(** * pdf_compressor: the adaptive preset search and the splitting protocol

    A shallow embedding of [compressor/utils.py], [compressor/pipeline.py]
    (at its interface), [compressor/strategy.py], [compressor/splitter.py],
    [orchestrator.process_file] with the loop of [process_directory], and
    [manual_mode.run_single_manual], followed by the properties of the
    search, of the split protocol and of their callers.

    Conventions of the embedding.
    - Python floats holding sizes in MB are exact rationals ([Q]); a file
      of [n] bytes measures [n / 1048576].
    - The external tools (pdftoppm, tesseract, recode_pdf, qpdf, pdfinfo)
      are an interface, [Pipeline], over a hidden tool state: each call
      answers with an exit status and with what it wrote.
    - The process state is a [World]: the files on disk with their sizes,
      the live temporary directories, the tool state and the log.
    - A Python function becomes a state transformer [M A]; an exception
      that leaves a function becomes the [Raise] outcome.
    - The directories named by the caller exist; [shutil.rmtree] and
      [Path.unlink] do what they are asked.
    - In a world a path holds a file or is missing, [tempfile.mkdtemp]
      succeeds and the output of pdfinfo can be read. The errors of the
      operating system that [get_file_size_mb] does not catch are modelled
      for that function alone, in [get_file_size_mb_on]; the statements on
      the other functions are about runs in which these calls succeed. *)

From Stdlib Require Import List String Ascii Bool Arith ZArith QArith Qround Lia Lqa.
From Stdlib Require Import DecimalString DecimalNat.
Import ListNotations.

Local Open Scope string_scope.
Local Open Scope list_scope.

(** ** Paths *)

(** A directory is either named by the caller (input and output
    directories) or was handed out by [tempfile.mkdtemp]. *)
Inductive Dir : Type :=
| Named (name : string)
| Temp (id : nat).

Definition Dir_eqb (a b : Dir) : bool :=
  match a, b with
  | Named x, Named y => String.eqb x y
  | Temp i, Temp j => Nat.eqb i j
  | _, _ => false
  end.

(** [dir / name] *)
Definition Path : Type := (Dir * string)%type.

Definition Path_eqb (p q : Path) : bool :=
  Dir_eqb (fst p) (fst q) && String.eqb (snd p) (snd q).

(** A PDF file as [pathlib.Path] sees it: [p.name = p.stem + p.suffix]. *)
Record PdfFile : Type := mkPdf {
  pdf_dir : Dir;
  pdf_stem : string;
  pdf_suffix : string
}.

Definition pdf_name (f : PdfFile) : string := (pdf_stem f ++ pdf_suffix f)%string.
Definition pdf_path (f : PdfFile) : Path := (pdf_dir f, pdf_name f).

(** [str(n)] for a non-negative integer. *)
Definition str_nat (n : nat) : string := NilEmpty.string_of_uint (Nat.to_uint n).

(** ** Quality presets *)

Inductive Encoder : Type := openjpeg | grok.

(** One entry of a [params_sequence]; the aggressive list of the split
    path has no ['jpeg2000_encoder'] key. *)
Record Params : Type := mkParams {
  dpi : Z;
  bg_downsample : Z;
  jpeg2000_encoder : option Encoder
}.

(** ** Log *)

(** The entries of the log that the properties below read: one per
    external command, per measured size, per copy and per decision about
    a temporary directory. *)
Inductive Event : Type :=
| Deconstruct (pdf : Path) (at_dpi : Z) (ok : bool)
| Analyze (ok : bool)
| Reconstruct (params : Params) (out : Path) (ok : bool)
| Measured (file : Path) (size_mb : Q)
| Copied (src dst : Path) (ok : bool)
| Unlinked (file : Path)
| SplitPages (pdf : Path) (first_page last_page : Z) (out : Path) (ok : bool)
| TierSkipped (pdf : Path)
| StrategyApplied (pdf : Path) (tier : Z)
| IterativeStarted (pdf : Path)
| SplittingStarted (pdf : Path)
| TryParts (k : Z)
| TempKept (d : Dir)
| TempCleaned (d : Dir).

(** ** Outcomes *)

Inductive Exn : Type := ValueError | KeyError | ZeroDivisionError | AttributeError.

Inductive Outcome (A : Type) : Type :=
| Return (a : A)
| Raise (e : Exn).

Arguments Return {A} a.
Arguments Raise {A} e.

(** ** The external tools *)

(** What the tools answer. [T] is their hidden state (the content of the
    documents, the clock, anything the answer may depend on).
    - [pdftoppm t pdf dpi]: exit status and the [page-*.tif] files found
      afterwards, in page order, with their sizes;
    - [tesseract t images]: [Some n] when every page was recognised and
      [combined.hocr] was written with [n] bytes;
    - [recode_pdf t images hocr params out]: exit status and the size of
      the file left at [out], if any;
    - [qpdf t pdf first last out]: the same for a page-range extraction;
    - [pdfinfo t pdf]: the page count, [0] when unknown. *)
Class Pipeline (T : Type) : Type := {
  pdftoppm : T -> Path -> Z -> bool * list (string * N) * T;
  tesseract : T -> list Path -> option N * T;
  recode_pdf : T -> list Path -> Path -> Params -> Path -> bool * option N * T;
  qpdf : T -> Path -> Z -> Z -> Path -> bool * option N * T;
  pdfinfo : T -> Path -> Z
}.

(** ** The world *)

Section Engine.

Context {T : Type} {tools : Pipeline T}.

Record World : Type := mkWorld {
  files : Path -> option N;
  temp_live : list nat;
  next_temp : nat;
  tool : T;
  log : list Event
}.

Definition M (A : Type) : Type := World -> A * World.

Definition ret {A} (a : A) : M A := fun w => (a, w).

Definition bind {A B} (m : M A) (k : A -> M B) : M B :=
  fun w => let (a, w1) := m w in k a w1.

Notation "x <- m ;; k" := (bind m (fun x => k))
  (at level 61, m at next level, right associativity).
Notation "m ;;; k" := (bind m (fun _ => k))
  (at level 61, right associativity).

Definition emit (e : Event) : M unit :=
  fun w => (tt, mkWorld (files w) (temp_live w) (next_temp w) (tool w) (log w ++ [e])).

Definition write_file (p : Path) (n : N) : M unit :=
  fun w => (tt, mkWorld (fun q => if Path_eqb q p then Some n else files w q)
                        (temp_live w) (next_temp w) (tool w) (log w)).

Definition write_opt (p : Path) (o : option N) : M unit :=
  match o with
  | Some n => write_file p n
  | None => ret tt
  end.

Definition remove_file (p : Path) : M unit :=
  fun w => (tt, mkWorld (fun q => if Path_eqb q p then None else files w q)
                        (temp_live w) (next_temp w) (tool w) (log w)).

Definition set_tool (t : T) : M unit :=
  fun w => (tt, mkWorld (files w) (temp_live w) (next_temp w) t (log w)).

Definition exists_file (p : Path) : M bool :=
  fun w => (match files w p with Some _ => true | None => false end, w).

(** ** compressor/utils.py *)

Definition MB : positive := 1048576.

(** The errors of [os.path.getsize]: the file is missing, a component of
    the path is not a directory, a directory may not be searched. They are
    all [OSError]s; [get_file_size_mb] catches the first only. *)
Inductive OSError : Type :=
| FileNotFoundError
| NotADirectoryError
| PermissionError.

(** Lines 34 to 38 of [get_file_size_mb], on the answer of
    [os.path.getsize]: the size in bytes, or the error that it raises. The
    result is the size in MB, or the error that leaves the function. *)
Definition get_file_size_mb_on (answer : N + OSError) : Q + OSError :=
  match answer with
  | inl size => inl (Z.of_N size # MB)
  | inr FileNotFoundError => inl 0%Q
  | inr e => inr e
  end.

(** [os.path.getsize] in a world: a path of the embedding holds a file
    or is missing. The other errors do not occur in a world, so that the
    functions below, which all measure files, have no exceptional
    outcome from this call. *)
Definition getsize (p : Path) (w : World) : N + OSError :=
  match files w p with
  | Some n => inl n
  | None => inr FileNotFoundError
  end.

(** [get_file_size_mb] in a world, without its log entry:
    [os.path.getsize(p) / (1024 * 1024)], and the [0] of the
    [except FileNotFoundError] branch. *)
Definition stat_size_mb (p : Path) : M Q :=
  fun w => (match files w p with
            | Some n => Z.of_N n # MB
            | None => 0%Q
            end, w).

(** [get_file_size_mb]. Every caller logs the size it was given
    (strategy.py lines 66, 94, 115, 132, 160, 219, orchestrator.py line
    15, splitter.py line 38); the entry is written here. *)
Definition get_file_size_mb (p : Path) : M Q :=
  size <- stat_size_mb p ;;
  emit (Measured p size) ;;;
  ret size.

(** [create_temp_directory]: [tempfile.mkdtemp()] hands out a directory
    that did not exist. *)
Definition create_temp_directory : M Dir :=
  fun w => (Temp (next_temp w),
            mkWorld (files w) (next_temp w :: temp_live w) (S (next_temp w))
                    (tool w) (log w)).

Definition Dir_live (d : Dir) (w : World) : bool :=
  match d with
  | Named _ => true
  | Temp i => existsb (Nat.eqb i) (temp_live w)
  end.

(** [cleanup_directory]: [shutil.rmtree], the directory and all it holds. *)
Definition cleanup_directory (d : Dir) : M unit :=
  fun w => (tt,
            mkWorld (fun q => if Dir_eqb (fst q) d then None else files w q)
                    (match d with
                     | Temp i => filter (fun j => negb (Nat.eqb i j)) (temp_live w)
                     | Named _ => temp_live w
                     end)
                    (next_temp w) (tool w) (log w ++ [TempCleaned d])).

(** [copy_file]: [shutil.copy2] inside a [try]; a missing source and a
    copy onto itself are reported as [False] and change nothing. *)
Definition copy_file (src dst : Path) : M bool :=
  fun w =>
    match files w src with
    | Some n =>
        if Path_eqb src dst then (emit (Copied src dst false) ;;; ret false) w
        else (write_file dst n ;;; emit (Copied src dst true) ;;; ret true) w
    | None => (emit (Copied src dst false) ;;; ret false) w
    end.

(** [Path.unlink] guarded by [Path.exists]. *)
Definition unlink_if_exists (p : Path) : M unit :=
  e <- exists_file p ;;
  if e then remove_file p ;;; emit (Unlinked p) else ret tt.

(** ** compressor/pipeline.py *)

Fixpoint write_all (d : Dir) (fs : list (string * N)) : M unit :=
  match fs with
  | [] => ret tt
  | (name, n) :: more => write_file (d, name) n ;;; write_all d more
  end.

(** [deconstruct_pdf_to_images]: run pdftoppm, then glob the page images;
    [None] when the command failed or left no image. *)
Definition deconstruct_pdf_to_images (pdf : PdfFile) (temp_dir : Dir) (at_dpi : Z)
  : M (option (list Path)) :=
  fun w =>
    let '(ok, pages, t) := pdftoppm (tool w) (pdf_path pdf) at_dpi in
    (set_tool t ;;;
     write_all temp_dir pages ;;;
     emit (Deconstruct (pdf_path pdf) at_dpi ok) ;;;
     if negb ok then ret None
     else match pages with
          | [] => ret None
          | _ :: _ => ret (Some (map (fun f => (temp_dir, fst f)) pages))
          end) w.

(** [analyze_images_to_hocr]: tesseract on every image, merged into
    [combined.hocr]; [None] when a page or the merge failed. *)
Definition analyze_images_to_hocr (image_files : list Path) (temp_dir : Dir)
  : M (option Path) :=
  fun w =>
    let '(merged, t) := tesseract (tool w) image_files in
    (set_tool t ;;;
     match merged with
     | None => emit (Analyze false) ;;; ret None
     | Some n =>
         write_file (temp_dir, "combined.hocr") n ;;;
         emit (Analyze true) ;;;
         ret (Some (temp_dir, "combined.hocr"))
     end) w.

(** [reconstruct_pdf]: one recode_pdf run for one preset. *)
Definition reconstruct_pdf (image_files : list Path) (hocr_file : Path) (temp_dir : Dir)
    (params : Params) (output_pdf_path : Path) : M bool :=
  fun w =>
    let '(ok, written, t) :=
      recode_pdf (tool w) image_files hocr_file params output_pdf_path in
    (set_tool t ;;;
     write_opt output_pdf_path written ;;;
     emit (Reconstruct params output_pdf_path ok) ;;;
     ret ok) w.

(** [get_pdf_page_count]: the number after [Pages:] in the output of
    pdfinfo, [0] when the command fails or prints no such line. The answer
    of the tool is taken as already read: an output that cannot be decoded
    or a count that is no integer, which would raise, is not in the
    embedding. *)
Definition get_pdf_page_count (pdf : PdfFile) : M Z :=
  fun w => (pdfinfo (tool w) (pdf_path pdf), w).

(** ** compressor/strategy.py *)

Record Strategy : Type := mkStrategy {
  name : string;
  params_sequence : list Params
}.

Definition STRATEGIES (tier : Z) : option Strategy :=
  match tier with
  | 1%Z => Some (mkStrategy "High Quality Compression"
      [ mkParams 300 1 (Some openjpeg);
        mkParams 300 2 (Some openjpeg);
        mkParams 300 3 (Some grok);
        mkParams 250 3 (Some openjpeg);
        mkParams 200 4 (Some grok) ])
  | 2%Z => Some (mkStrategy "Balanced Compression"
      [ mkParams 300 2 (Some openjpeg);
        mkParams 300 3 (Some grok);
        mkParams 300 4 (Some openjpeg);
        mkParams 250 4 (Some grok);
        mkParams 200 4 (Some openjpeg);
        mkParams 150 5 (Some grok) ])
  | 3%Z => Some (mkStrategy "Extreme compression"
      [ mkParams 200 3 (Some grok);
        mkParams 200 4 (Some grok);
        mkParams 200 5 (Some openjpeg);
        mkParams 150 5 (Some grok);
        mkParams 110 6 (Some grok) ])
  | _ => None
  end.

Definition Qlt_bool (x y : Q) : bool := negb (Qle_bool y x).

Definition determine_tier (size_mb : Q) : Z :=
  if Qle_bool 2 size_mb && Qlt_bool size_mb 10 then 1
  else if Qle_bool 10 size_mb && Qlt_bool size_mb 50 then 2
  else if Qle_bool 50 size_mb then 3
  else 0.

(** [max(p['dpi'] for p in ...)] over a sequence that starts with [p]. *)
Definition max_dpi_of (p : Params) (more : list Params) : Z :=
  fold_left (fun m q => Z.max m (dpi q)) more (dpi p).

Definition threshold_factor : Q := 3 # 2.

Section IterativeSearch.

(** What lines 87 to 172 of [run_iterative_compression] have in scope. *)
Variables (first_params : Params) (rest : list Params).
Variables (pdf : PdfFile) (output_dir : Dir) (target_size_mb : Q).
Variables (temp_dir : Dir) (image_files : list Path) (hocr_file : Path).

Definition sequence : list Params := first_params :: rest.

Definition final_path : Path := (output_dir, (pdf_stem pdf ++ "_compressed.pdf")%string).
Definition first_output : Path := (temp_dir, ("output_" ++ pdf_stem pdf ++ "_first.pdf")%string).
Definition last_output : Path := (temp_dir, ("output_" ++ pdf_stem pdf ++ "_last.pdf")%string).
Definition back_output (idx : nat) : Path :=
  (temp_dir, ("output_" ++ pdf_stem pdf ++ "_back_" ++ str_nat idx ++ ".pdf")%string).
Definition seq_output (i : nat) : Path :=
  (temp_dir, ("output_" ++ pdf_stem pdf ++ "_" ++ str_nat i ++ ".pdf")%string).

(** Lines 124 to 138: [for idx in range(last_index - 1, -1, -1)], entered
    with [n = last_index]; the next index is [n - 1]. *)
Fixpoint backtrack (n : nat) (chosen_path : Path) : M Path :=
  match n with
  | O => ret chosen_path
  | S idx =>
      let params := nth idx sequence first_params in
      let test_output := back_output idx in
      ok <- reconstruct_pdf image_files hocr_file temp_dir params test_output ;;
      if negb ok then ret chosen_path
      else
        test_size <- get_file_size_mb test_output ;;
        if Qle_bool test_size target_size_mb then backtrack idx test_output
        else ret chosen_path
  end.

(** Lines 151 to 172: [for i in range(1, len(...))], then the failure
    return. *)
Fixpoint sequential_attempts (i : nat) (remaining : list Params)
  : M (bool * option Path) :=
  match remaining with
  | [] => ret (false, None)
  | params :: later =>
      let output_pdf_path := seq_output i in
      ok <- reconstruct_pdf image_files hocr_file temp_dir params output_pdf_path ;;
      if negb ok then sequential_attempts (S i) later
      else
        result_size_mb <- get_file_size_mb output_pdf_path ;;
        if Qle_bool result_size_mb target_size_mb then
          copy_file output_pdf_path final_path ;;;
          ret (true, Some final_path)
        else sequential_attempts (S i) later
  end.

(** Lines 87 to 172. *)
Definition try_presets : M (bool * option Path) :=
  let output_pdf_path := first_output in
  ok <- reconstruct_pdf image_files hocr_file temp_dir first_params output_pdf_path ;;
  if ok then
    result_size_mb <- get_file_size_mb output_pdf_path ;;
    if Qle_bool result_size_mb target_size_mb then
      copy_file output_pdf_path final_path ;;;
      ret (true, Some final_path)
    else if Qlt_bool (target_size_mb * threshold_factor) result_size_mb then
      let last_index := (List.length sequence - 1)%nat in
      let last_params := nth last_index sequence first_params in
      ok_last <- reconstruct_pdf image_files hocr_file temp_dir last_params last_output ;;
      if negb ok_last then ret (false, None)
      else
        last_size <- get_file_size_mb last_output ;;
        if Qlt_bool target_size_mb last_size then ret (false, None)
        else
          chosen_path <- backtrack last_index last_output ;;
          copy_file chosen_path final_path ;;;
          ret (true, Some final_path)
    else sequential_attempts 1 rest
  else sequential_attempts 1 rest.

End IterativeSearch.

(** The [finally] clause shared by the three functions that own a
    temporary directory. *)
Definition release_temp (keep_temp_on_failure : bool) (temp_dir : Dir) : M unit :=
  if keep_temp_on_failure then emit (TempKept temp_dir)
  else cleanup_directory temp_dir.

(** Lines 73 to 172: the body of the [try]. *)
Definition iterative_body (first_params : Params) (rest : list Params)
    (pdf : PdfFile) (output_dir : Dir) (target_size_mb : Q) (temp_dir : Dir)
  : M (bool * option Path) :=
  let max_dpi := max_dpi_of first_params rest in
  images <- deconstruct_pdf_to_images pdf temp_dir max_dpi ;;
  match images with
  | None => ret (false, None)
  | Some image_files =>
      hocr <- analyze_images_to_hocr image_files temp_dir ;;
      match hocr with
      | None => ret (false, None)
      | Some hocr_file =>
          try_presets first_params rest pdf output_dir target_size_mb
                      temp_dir image_files hocr_file
      end
  end.

Definition run_iterative_compression (pdf : PdfFile) (output_dir : Dir)
    (target_size_mb : Q) (keep_temp_on_failure : bool)
  : M (Outcome (bool * option Path)) :=
  original_size_mb <- get_file_size_mb (pdf_path pdf) ;;
  let tier := determine_tier original_size_mb in
  if (tier =? 0)%Z then
    emit (TierSkipped (pdf_path pdf)) ;;;
    ret (Return (false, None))
  else
    match STRATEGIES tier with
    | None => ret (Raise KeyError)
    | Some strategy =>
        emit (StrategyApplied (pdf_path pdf) tier) ;;;
        match params_sequence strategy with
        | [] => ret (Raise ValueError)
        | first_params :: rest =>
            temp_dir <- create_temp_directory ;;
            r <- iterative_body first_params rest pdf output_dir target_size_mb temp_dir ;;
            release_temp keep_temp_on_failure temp_dir ;;;
            ret (Return r)
        end
    end.

Definition aggressive_params : list Params :=
  [ mkParams 150 4 None;
    mkParams 150 5 None;
    mkParams 120 3 None;
    mkParams 100 2 None ].

Section AggressiveSearch.

Variables (pdf : PdfFile) (output_dir : Dir) (target_size_mb : Q).
Variables (temp_dir : Dir) (image_files : list Path) (hocr_file : Path).

Definition compressed_output (i : nat) : Path :=
  (temp_dir, ("compressed_" ++ pdf_stem pdf ++ "_" ++ str_nat i ++ ".pdf")%string).

(** Lines 211 to 232: [for i, params in enumerate(aggressive_params)]. *)
Fixpoint aggressive_attempts (i : nat) (remaining : list Params)
  : M (bool * option Path) :=
  match remaining with
  | [] => ret (false, None)
  | params :: later =>
      let output_pdf_path := compressed_output i in
      ok <- reconstruct_pdf image_files hocr_file temp_dir params output_pdf_path ;;
      if negb ok then aggressive_attempts (S i) later
      else
        result_size_mb <- get_file_size_mb output_pdf_path ;;
        if Qle_bool result_size_mb target_size_mb then
          copy_file output_pdf_path (final_path pdf output_dir) ;;;
          ret (true, Some (final_path pdf output_dir))
        else aggressive_attempts (S i) later
  end.

End AggressiveSearch.

Definition aggressive_body (pdf : PdfFile) (output_dir : Dir) (target_size_mb : Q)
    (temp_dir : Dir) : M (bool * option Path) :=
  let max_dpi := max_dpi_of (mkParams 150 4 None) (tl aggressive_params) in
  images <- deconstruct_pdf_to_images pdf temp_dir max_dpi ;;
  match images with
  | None => ret (false, None)
  | Some image_files =>
      hocr <- analyze_images_to_hocr image_files temp_dir ;;
      match hocr with
      | None => ret (false, None)
      | Some hocr_file =>
          aggressive_attempts pdf output_dir target_size_mb temp_dir
                              image_files hocr_file 0 aggressive_params
      end
  end.

Definition run_aggressive_compression (pdf : PdfFile) (output_dir : Dir)
    (target_size_mb : Q) (keep_temp_on_failure : bool) : M (bool * option Path) :=
  temp_dir <- create_temp_directory ;;
  r <- aggressive_body pdf output_dir target_size_mb temp_dir ;;
  release_temp keep_temp_on_failure temp_dir ;;;
  ret r.

(** ** compressor/splitter.py *)

(** The options the functions read from [args]. *)
Record Args : Type := mkArgs {
  args_output_dir : Dir;
  target_size : Q;
  allow_splitting : bool;
  max_splits : Z;
  copy_small_files : bool;
  args_keep_temp_on_failure : bool
}.

Definition split_pdf (pdf : PdfFile) (output_path : Path) (start_page end_page : Z)
  : M bool :=
  fun w =>
    let '(ok, written, t) :=
      qpdf (tool w) (pdf_path pdf) start_page end_page output_path in
    (set_tool t ;;;
     write_opt output_path written ;;;
     emit (SplitPages (pdf_path pdf) start_page end_page output_path ok) ;;;
     ret ok) w.

Definition estimated_chunk_size : Q := 25.

Definition calculate_split_strategy (total_size_mb : Q) (the_max_splits : Z) : Z :=
  let initial_k := Z.min the_max_splits (Qceiling (total_size_mb / estimated_chunk_size)) in
  if (initial_k <? 2)%Z then 2%Z else initial_k.

(** [range(a, b)] *)
Definition range (a b : Z) : list Z :=
  map (fun i => (a + Z.of_nat i)%Z) (seq 0 (Z.to_nat (b - a))).

(** [math.ceil(total_pages / k)] for [k <> 0]. *)
Definition pages_per_split_of (total_pages k : Z) : Z :=
  Qceiling (inject_Z total_pages / inject_Z k).

(** The page range of part [i] (counted from 0), lines 88 and 89. *)
Definition start_page_of (pages_per_split : Z) (i : nat) : Z :=
  (Z.of_nat i * pages_per_split + 1)%Z.
Definition end_page_of (pages_per_split total_pages : Z) (i : nat) : Z :=
  Z.min ((Z.of_nat i + 1) * pages_per_split) total_pages.

Fixpoint unlink_all (ps : list Path) : M unit :=
  match ps with
  | [] => ret tt
  | p :: more => unlink_if_exists p ;;; unlink_all more
  end.

Section SplitAttempt.

Variables (pdf : PdfFile) (output_dir : Dir) (args : Args).
Variables (total_pages pages_per_split : Z) (temp_dir : Dir).

Definition temp_part (i : nat) : PdfFile :=
  mkPdf temp_dir (pdf_stem pdf ++ "_temp_part" ++ str_nat (i + 1))%string ".pdf".

Definition final_part_path_of (i : nat) : Path :=
  (output_dir, (pdf_stem pdf ++ "_part" ++ str_nat (i + 1) ++ ".pdf")%string).

(** Phase 1, lines 87 to 102: [for i in range(k)]. [None] is the
    [return False] of a failed extraction. *)
Fixpoint split_parts (indices : list nat) (temp_split_files : list PdfFile)
  : M (option (list PdfFile)) :=
  match indices with
  | [] => ret (Some temp_split_files)
  | i :: later =>
      let start_page := start_page_of pages_per_split i in
      let end_page := end_page_of pages_per_split total_pages i in
      if (total_pages <? start_page)%Z then ret (Some temp_split_files)
      else
        let part := temp_part i in
        ok <- split_pdf pdf (pdf_path part) start_page end_page ;;
        if negb ok then ret None
        else split_parts later (temp_split_files ++ [part])
  end.

(** Phase 2, lines 105 to 137: [for i, part_path in enumerate(...)]. A
    success that came without a path would raise at [compressed_path.exists()]
    and be handled by the [except] of lines 139 to 145. *)
Fixpoint compress_parts (i : nat) (parts : list PdfFile) (split_files : list Path)
  : M bool :=
  match parts with
  | [] => ret true
  | part_path :: later =>
      let keep_temp := args_keep_temp_on_failure args in
      r <- run_aggressive_compression part_path output_dir (target_size args) keep_temp ;;
      let (success, compressed) := r in
      if success then
        let final_part_path := final_part_path_of i in
        match compressed with
        | Some compressed_path =>
            (if negb (Path_eqb compressed_path final_part_path) then
               copy_file compressed_path final_part_path ;;;
               unlink_if_exists compressed_path
             else ret tt) ;;;
            compress_parts (S i) later (split_files ++ [final_part_path])
        | None => unlink_all split_files ;;; ret false
        end
      else
        unlink_all split_files ;;;
        ret false
  end.

End SplitAttempt.

Definition try_split_and_compress (pdf : PdfFile) (output_dir : Dir) (args : Args)
    (k total_pages : Z) : M (Outcome bool) :=
  if (k =? 0)%Z then ret (Raise ZeroDivisionError)
  else
    let pages_per_split := pages_per_split_of total_pages k in
    temp_dir <- create_temp_directory ;;
    r <- (parts <- split_parts pdf total_pages pages_per_split temp_dir
                               (seq 0 (Z.to_nat k)) [] ;;
          match parts with
          | None => ret false
          | Some temp_split_files =>
              compress_parts pdf output_dir args 0 temp_split_files []
          end) ;;
    release_temp (args_keep_temp_on_failure args) temp_dir ;;;
    ret (Return r).

(** Lines 60 to 71: [for k in range(initial_k, args.max_splits + 1)]. *)
Fixpoint try_counts (pdf : PdfFile) (output_dir : Dir) (args : Args)
    (total_pages : Z) (ks : list Z) : M (Outcome bool) :=
  match ks with
  | [] => ret (Return false)
  | k :: later =>
      emit (TryParts k) ;;;
      r <- try_split_and_compress pdf output_dir args k total_pages ;;
      match r with
      | Raise e => ret (Raise e)
      | Return false => try_counts pdf output_dir args total_pages later
      | Return true => ret (Return true)
      end
  end.

Definition run_splitting_protocol (pdf : PdfFile) (output_dir : Dir) (args : Args)
  : M (Outcome bool) :=
  emit (SplittingStarted (pdf_path pdf)) ;;;
  total_pages <- get_pdf_page_count pdf ;;
  if (total_pages =? 0)%Z then ret (Return false)
  else
    original_size_mb <- get_file_size_mb (pdf_path pdf) ;;
    let initial_k := calculate_split_strategy original_size_mb (max_splits args) in
    try_counts pdf output_dir args total_pages (range initial_k (max_splits args + 1)).

(** ** orchestrator.py *)

(** [process_file]; the [except Exception] of line 55 turns any
    exception into [False]. *)
Definition process_file (file_path : PdfFile) (args : Args) : M bool :=
  original_size_mb <- get_file_size_mb (pdf_path file_path) ;;
  if Qlt_bool original_size_mb (target_size args) then
    (if copy_small_files args then
       copy_file (pdf_path file_path) (args_output_dir args, pdf_name file_path) ;;;
       ret tt
     else ret tt) ;;;
    ret true
  else
    emit (IterativeStarted (pdf_path file_path)) ;;;
    r <- run_iterative_compression file_path (args_output_dir args) (target_size args)
                                   (args_keep_temp_on_failure args) ;;
    match r with
    | Raise _ => ret false
    | Return (true, _) => ret true
    | Return (false, _) =>
        if allow_splitting args then
          s <- run_splitting_protocol file_path (args_output_dir args) args ;;
          match s with
          | Return b => ret b
          | Raise _ => ret false
          end
        else ret false
    end.

(** [validate_arguments], the checks on the numbers (lines 172 and 177). *)
Definition valid_numbers (args : Args) : bool :=
  Qlt_bool 0 (target_size args) &&
  (2 <=? max_splits args)%Z && (max_splits args <=? 10)%Z.

(** ** compressor/splitter.py, the check of the parts *)

(** Lines 180 to 193 of [validate_split_results]: the loop, with its two
    accumulators. *)
Fixpoint validate_files (target_size_mb : Q) (split_files : list Path)
    (all_valid : bool) (total_size : Q) : M (bool * Q) :=
  match split_files with
  | [] => ret (all_valid, total_size)
  | file_path :: later =>
      present <- exists_file file_path ;;
      if negb present then validate_files target_size_mb later false total_size
      else
        size_mb <- get_file_size_mb file_path ;;
        let total_size := (total_size + size_mb)%Q in
        if Qlt_bool target_size_mb size_mb
        then validate_files target_size_mb later false total_size
        else validate_files target_size_mb later all_valid total_size
  end.

Definition validate_split_results (split_files : list Path) (target_size_mb : Q)
  : M bool :=
  r <- validate_files target_size_mb split_files true 0 ;;
  ret (fst r).

(** ** manual_mode.py *)

(** [run_single_manual] (lines 31 to 72): one reconstruction with the
    parameters the user typed, written to [dest_path] itself. The
    [finally] clause reads the variable [success], which is [False] until
    recode_pdf has reported success. *)
Definition run_single_manual (pdf : PdfFile) (dest_path : Path)
    (the_dpi the_bg_downsample : Z) (jpeg2000 : Encoder) (keep_temp_on_failure : bool)
  : M bool :=
  temp_dir <- create_temp_directory ;;
  success <-
    (images <- deconstruct_pdf_to_images pdf temp_dir the_dpi ;;
     match images with
     | None => ret false
     | Some image_files =>
         hocr <- analyze_images_to_hocr image_files temp_dir ;;
         match hocr with
         | None => ret false
         | Some hocr_file =>
             let params := mkParams the_dpi the_bg_downsample (Some jpeg2000) in
             ok <- reconstruct_pdf image_files hocr_file temp_dir params dest_path ;;
             if ok then ret true
             else
               (if keep_temp_on_failure then emit (TempKept temp_dir) else ret tt) ;;;
               ret false
         end
     end) ;;
  (if negb (keep_temp_on_failure && negb success) then cleanup_directory temp_dir
   else ret tt) ;;;
  ret success.

(** ** orchestrator.py, the batch *)

(** Lines 83 to 98 of [process_directory]: the loop over the files, with
    its three accumulators. *)
Fixpoint process_each (pdf_files : list PdfFile) (args : Args)
    (results : list (PdfFile * bool)) (successful_count failed_count : nat)
  : M (list (PdfFile * bool) * nat * nat) :=
  match pdf_files with
  | [] => ret (results, successful_count, failed_count)
  | pdf_file :: later =>
      success <- process_file pdf_file args ;;
      let results := results ++ [(pdf_file, success)] in
      if success
      then process_each later args results (S successful_count) failed_count
      else process_each later args results successful_count (S failed_count)
  end.

(** [process_directory], from [unique_files]: the list that lines 68 to
    75 found in the input directory, deduplicated and sorted. *)
Definition process_directory (unique_files : list PdfFile) (args : Args)
  : M (list (PdfFile * bool)) :=
  match unique_files with
  | [] => ret []
  | _ :: _ =>
      r <- process_each unique_files args [] 0 0 ;;
      ret (fst (fst r))
  end.

End Engine.

Notation "x <- m ;; k" := (bind m (fun x => k))
  (at level 61, m at next level, right associativity).
Notation "m ;;; k" := (bind m (fun _ => k))
  (at level 61, right associativity).

(** * A simulated pipeline

    The counterpart of [tests/test_strategy_simulation.py]: the tools
    always succeed and the size of a reconstruction is a function of the
    preset. *)

Module Simulation.

Definition sim_pipeline (size_of : Params -> option N) (pages : Z) : Pipeline unit := {|
  pdftoppm := fun t _ _ => (true, [("page-01.tif", 1000%N)], t);
  tesseract := fun t _ => (Some 100%N, t);
  recode_pdf := fun t _ _ p _ => (true, size_of p, t);
  qpdf := fun t _ _ _ _ => (true, Some 4000000%N, t);
  pdfinfo := fun _ _ => pages
|}.

Definition disk (input : Path) (bytes : N) : Path -> option N :=
  fun q => if Path_eqb q input then Some bytes else None.

Definition start (input : Path) (bytes : N) : @World unit :=
  mkWorld (disk input bytes) [] 0 tt [].

Definition doc : PdfFile := mkPdf (Named "in") "doc" ".pdf".
Definition out : Dir := Named "out".

(** The sizes of scenario A of the specification (tier 1): 6 MB, 3 MB,
    2.3 MB, 1.8 MB and 1.5 MB along the sequence. *)
Definition size_A (p : Params) : N :=
  match dpi p, bg_downsample p with
  | 300%Z, 1%Z => 6291456%N
  | 300%Z, 2%Z => 3145728%N
  | 300%Z, 3%Z => 2411725%N
  | 250%Z, 3%Z => 1887437%N
  | _, _ => 1572864%N
  end.

Definition scenario_A (p : Params) : option N := Some (size_A p).

(** Scenario B: the first preset gives 2.4 MB, the second 1.9 MB. *)
Definition scenario_B (p : Params) : option N :=
  match dpi p, bg_downsample p with
  | 300%Z, 1%Z => Some 2516582%N
  | _, _ => Some 1992294%N
  end.

(** Scenario C: nothing ever gets below 5 MB. *)
Definition scenario_C (p : Params) : option N := Some 5242880%N.

(** A recode_pdf that reports success and writes nothing. *)
Definition silent (p : Params) : option N := None.

Definition tier1_first : Params := mkParams 300 1 (Some openjpeg).
Definition tier1_rest : list Params :=
  [ mkParams 300 2 (Some openjpeg);
    mkParams 300 3 (Some grok);
    mkParams 250 3 (Some openjpeg);
    mkParams 200 4 (Some grok) ].
Definition tier1_last : Params := mkParams 200 4 (Some grok).

Definition scratch : Dir := Temp 0.
Definition images : list Path := [(scratch, "page-01.tif")].
Definition hocr : Path := (scratch, "combined.hocr").

(** The search of lines 87 to 172 on tier 1. *)
Definition search_tier1 (sizes : Params -> option N) (target : Q) (w : @World unit)
  : (bool * option Path) * @World unit :=
  @try_presets unit (sim_pipeline sizes 10) tier1_first tier1_rest doc out target
               scratch images hocr w.

Definition world_8mb : @World unit := start (pdf_path doc) 8388608.

(** A document of exactly 2 MB against a target of 2 MB. *)
Definition two_mb : @World unit := start (pdf_path doc) 2097152.
Definition args_2mb : Args := mkArgs out 2 false 4 false false.

Definition sim_A : Pipeline unit := sim_pipeline scenario_A 10.

(** [process_file] on the document of exactly 2 MB. *)
Definition boundary_run : bool * @World unit :=
  @process_file unit sim_A doc args_2mb two_mb.

(** The split protocol of scenario C: 60 MB, 10 pages, [max_splits = 4]. *)
Definition args_C : Args := mkArgs out 2 true 4 false false.
Definition world_60mb : @World unit := start (pdf_path doc) 62914560.
Abbreviation protocol_C :=
  (@run_splitting_protocol unit (sim_pipeline scenario_C 10) doc out args_C world_60mb).
Definition final_doc : Path := (out, "doc_compressed.pdf").
Definition first_doc : Path := first_output doc scratch.
Definition last_doc : Path := last_output doc scratch.

Definition after_first : @World unit :=
  snd (@reconstruct_pdf unit sim_A images hocr scratch tier1_first first_doc world_8mb).
Definition after_first_size : @World unit :=
  snd (get_file_size_mb first_doc after_first).
Definition after_last : @World unit :=
  snd (@reconstruct_pdf unit sim_A images hocr scratch tier1_last last_doc after_first_size).
Definition after_last_size : @World unit :=
  snd (get_file_size_mb last_doc after_last).

Definition six_mb : Q := 6291456 # MB.
Definition one_and_a_half_mb : Q := 1572864 # MB.

End Simulation.

(** More inputs for the simulated pipeline. *)

Module Scenarios.

Import Simulation.

(** Every rebuild gives 1 MB. *)
Definition one_mb_each (p : Params) : option N := Some 1048576%N.

(** A pipeline whose recode_pdf always fails and writes nothing. *)
Definition failing_pipeline : Pipeline unit := {|
  pdftoppm := fun t _ _ => (true, [("page-01.tif", 1000%N)], t);
  tesseract := fun t _ => (Some 100%N, t);
  recode_pdf := fun t _ _ _ _ => (false, None, t);
  qpdf := fun t _ _ _ _ => (true, Some 4000000%N, t);
  pdfinfo := fun _ _ => 10%Z
|}.

(** A pipeline in which the second part of a split of [doc] can never
    be compressed: recode_pdf fails on every output of a search on
    [doc_temp_part2.pdf], and gives 1 MB for any other. *)
Definition second_part_fails : Pipeline unit := {|
  pdftoppm := fun t _ _ => (true, [("page-01.tif", 1000%N)], t);
  tesseract := fun t _ => (Some 100%N, t);
  recode_pdf := fun t _ _ _ out =>
    if String.prefix "compressed_doc_temp_part2_" (snd out)
    then (false, None, t)
    else (true, Some 1048576%N, t);
  qpdf := fun t _ _ _ _ => (true, Some 4000000%N, t);
  pdfinfo := fun _ _ => 10%Z
|}.

(** The split protocol on a document of 60 MB and 10 pages whose second
    part never compresses, with [max_splits = 4]. *)
Abbreviation protocol_second_part_fails :=
  (@run_splitting_protocol unit second_part_fails doc out args_C world_60mb).

(** A document of 1 MB against a target of half a megabyte. *)
Definition world_1mb : @World unit := start (pdf_path doc) 1048576.
Definition args_half : Args := mkArgs out (1 # 2) false 4 false false.

(** A target of 8 MB, without splitting. *)
Definition args_8mb : Args := mkArgs out 8 false 4 false false.

Definition manual_doc : Path := (Named "out", "doc_manual.pdf").

End Scenarios.

(** * Reference definitions

    What the properties compare the code with. *)

(** The usual clamp of [x] into [[lo, hi]]. *)
Definition clamp (lo hi x : Z) : Z :=
  if (x <? lo)%Z then lo else if (hi <? x)%Z then hi else x.

(** The page ranges that phase 1 of [try_split_and_compress] hands to
    qpdf, one after the other, when no extraction fails. *)
Fixpoint ranges_from (pages_per_split total_pages : Z) (indices : list nat)
  : list (Z * Z) :=
  match indices with
  | [] => []
  | i :: later =>
      if (total_pages <? start_page_of pages_per_split i)%Z then []
      else (start_page_of pages_per_split i,
            end_page_of pages_per_split total_pages i)
           :: ranges_from pages_per_split total_pages later
  end.

Definition page_ranges (total_pages k : Z) : list (Z * Z) :=
  ranges_from (pages_per_split_of total_pages k) total_pages (seq 0 (Z.to_nat k)).

(** The pages of a range, in order. *)
Definition pages_of (r : Z * Z) : list Z := range (fst r) (snd r + 1).

(** [chain a rs b]: the ranges [rs] follow one another without gap or
    overlap, the first starts at [a] and the last ends at [b]. *)
Fixpoint chain (a : Z) (rs : list (Z * Z)) (b : Z) : Prop :=
  match rs with
  | [] => False
  | [r] => fst r = a /\ snd r = b
  | r :: more => fst r = a /\ chain (snd r + 1) more b
  end.

(** The ranges found in a log. *)
Definition logged_ranges (l : list Event) : list (Z * Z) :=
  flat_map (fun e => match e with
                     | SplitPages _ a b _ _ => [(a, b)]
                     | _ => []
                     end) l.

(** The source of the last successful copy to [dst] found in a log. *)
Fixpoint last_copy (dst : Path) (evs : list Event) : option Path :=
  match evs with
  | [] => None
  | e :: later =>
      match last_copy dst later with
      | Some src => Some src
      | None =>
          match e with
          | Copied src d true => if Path_eqb d dst then Some src else None
          | _ => None
          end
      end
  end.

(** The preset of the last successful rebuild into [out] found in a log. *)
Fixpoint producer (out : Path) (evs : list Event) : option Params :=
  match evs with
  | [] => None
  | e :: later =>
      match producer out later with
      | Some p => Some p
      | None =>
          match e with
          | Reconstruct p o true => if Path_eqb o out then Some p else None
          | _ => None
          end
      end
  end.

(** The preset whose result was copied to [dst], read off a log. *)
Definition winning_preset (dst : Path) (evs : list Event) : option Params :=
  match last_copy dst evs with
  | Some src => producer src evs
  | None => None
  end.

(** The naive search: the first preset, in the order of the sequence,
    whose size is at most the target. *)
Definition naive_search (size_of : Params -> N) (target_size_mb : Q)
    (presets : list Params) : option Params :=
  find (fun p => Qle_bool (Z.of_N (size_of p) # MB) target_size_mb) presets.

(** Whether a log shows an entry into [run_iterative_compression], whose
    first entry after the measured size is one of these two (lines 62
    and 66). *)
Definition search_invoked (evs : list Event) : bool :=
  existsb (fun e => match e with
                    | TierSkipped _ | StrategyApplied _ _ => true
                    | _ => false
                    end) evs.

(** A path in a directory named by the caller, as opposed to a
    temporary one. *)
Definition is_named (q : Path) : bool :=
  match fst q with
  | Named _ => true
  | Temp _ => false
  end.

(** The presets that were handed to recode_pdf, in order. *)
Definition reconstructions (l : list Event) : list Params :=
  flat_map (fun e => match e with Reconstruct p _ _ => [p] | _ => [] end) l.

(** The log of one backtracking step that kept its candidate: the
    preset [preset_at i] was rebuilt into [out_at i], of size [size_at i]. *)
Definition kept_step (preset_at : nat -> Params) (out_at : nat -> Path)
    (size_at : nat -> Q) (i : nat) : list Event :=
  [Reconstruct (preset_at i) (out_at i) true; Measured (out_at i) (size_at i)].

(** The log of the step that ended the backtracking below index [j]:
    nothing when index 0 was kept, otherwise the candidate [j - 1] that
    could not be rebuilt or came out above the target. *)
Definition stop_step (target_size_mb : Q) (preset_at : nat -> Params)
    (out_at : nat -> Path) (j : nat) (stop : list Event) : Prop :=
  match j with
  | O => stop = []
  | S i =>
      stop = [Reconstruct (preset_at i) (out_at i) false] \/
      exists s, (target_size_mb < s)%Q /\
        stop = [Reconstruct (preset_at i) (out_at i) true; Measured (out_at i) s]
  end.

Section WorldRelations.

Context {T : Type}.

Abbreviation World := (@World T).

(** [same_named w w']: the files of the named directories are the same
    in both worlds. [named_shrunk w w']: going from [w] to [w'], a file of
    a named directory was left as it was or is gone; none appeared and
    none changed. *)
Definition same_named (w w' : World) : Prop :=
  forall q, is_named q = true -> files w' q = files w q.

Definition named_shrunk (w w' : World) : Prop :=
  forall q, is_named q = true -> files w' q = None \/ files w' q = files w q.

Definition preserves (R : World -> World -> Prop) {A} (m : M A) : Prop :=
  forall w, R w (snd (m w)).

Definition keeps_named {A} (m : M A) : Prop := preserves same_named m.

(** [log_extends w w']: the log of [w'] continues the log of [w]. *)
Definition log_extends (w w' : World) : Prop :=
  exists evs, log w' = log w ++ evs.

Definition log_grows {A} (m : M A) : Prop := preserves log_extends m.

(** What a search may do to the named directories: nothing when it
    fails, and only write its [final] path when it succeeds. *)
Definition search_frame (final : Path) (m : M (bool * option Path)) : Prop :=
  forall w,
    (fst (m w) = (false, None) /\ same_named w (snd (m w))) \/
    (fst (m w) = (true, Some final) /\
     forall q, is_named q = true -> q <> final -> files (snd (m w)) q = files w q).

(** The invariant of phase 2: a file of a named directory is one of
    the final parts written so far, or is absent, or is as it was when
    the attempt began (in [w0]). *)
Definition parts_invariant (w0 : World) (split_files : list Path) (w : World) : Prop :=
  forall q, is_named q = true ->
    In q split_files \/ files w q = None \/ files w q = files w0 q.

End WorldRelations.

(** A file that is on the disk and measures at most the target. *)
Definition within_target (disk : Path -> option N) (target_size_mb : Q) (p : Path)
  : bool :=
  match disk p with
  | Some n => Qle_bool (Z.of_N n # MB) target_size_mb
  | None => false
  end.

(** ** What the tools are assumed to do *)

(** A recode_pdf that reports success has left a file at its output
    path. The searches rely on it: they measure a missing output as
    [0] MB. *)
Definition success_leaves_output {T : Type} (tools : Pipeline T) : Prop :=
  forall t images hocr p out ok written t',
    recode_pdf t images hocr p out = (ok, written, t') ->
    ok = true -> written <> None.

(** Part [j] (counted from 0) of the split of [pdf] can never be
    compressed: recode_pdf fails whenever it is asked for an output of the
    aggressive search on [<stem>_temp_part<j+1>.pdf]. *)
Definition part_never_compresses {T : Type} (tools : Pipeline T) (pdf : PdfFile)
    (j : nat) : Prop :=
  forall t images hocr params d d' i,
    fst (fst (recode_pdf t images hocr params
                (compressed_output (temp_part pdf d j) d' i))) = false.

(** Part [j] can never be extracted: qpdf fails whenever it is asked
    for [<stem>_temp_part<j+1>.pdf]. *)
Definition part_never_extracts {T : Type} (tools : Pipeline T) (pdf : PdfFile)
    (j : nat) : Prop :=
  forall t a b d,
    fst (fst (qpdf t (pdf_path pdf) a b (pdf_path (temp_part pdf d j)))) = false.

(** ** The files of a split *)

(** [<stem>_temp_part<i+1>_compressed.pdf] in the output directory: where
    the aggressive search leaves part [i] before it is renamed. It is the
    [final_path] of the temporary part, which reads the stem of the part
    and not its directory. *)
Definition part_scratch_path (pdf : PdfFile) (output_dir : Dir) (i : nat) : Path :=
  final_path (temp_part pdf output_dir i) output_dir.

(** The paths that a split of [pdf] into [output_dir] may write. *)
Definition split_output (pdf : PdfFile) (output_dir : Dir) (q : Path) : Prop :=
  (exists i, q = final_part_path_of pdf output_dir i) \/
  (exists i, q = part_scratch_path pdf output_dir i).

(** The entry of the extraction of part [i] (counted from 0) into the
    temporary directory of the attempt. *)
Definition extraction (pdf : PdfFile) (temp_dir : Dir) (pages_per_split total_pages : Z)
    (ok : bool) (i : nat) : Event :=
  SplitPages (pdf_path pdf) (start_page_of pages_per_split i)
             (end_page_of pages_per_split total_pages i)
             (pdf_path (temp_part pdf temp_dir i)) ok.

(** Whether an entry is a qpdf run, and whether a log shows one that
    failed. *)
Definition is_extraction (e : Event) : bool :=
  match e with
  | SplitPages _ _ _ _ _ => true
  | _ => false
  end.

Definition extraction_failed (evs : list Event) : bool :=
  existsb (fun e => match e with
                    | SplitPages _ _ _ _ ok => negb ok
                    | _ => false
                    end) evs.

(** ** Temporary directories *)

Section TempRelations.

Context {T : Type}.

(** The temporary directories are in order: every live one was handed
    out by [mkdtemp], and no file lies in a temporary directory that is
    not live. *)
Definition temps_in_order (w : @World T) : Prop :=
  (forall i, In i (temp_live w) -> (i < next_temp w)%nat) /\
  (forall i name, files w (Temp i, name) <> None -> In i (temp_live w)).

(** A directory that a computation owning the temporary directory [own]
    may write to: a named one, or its own. *)
Definition allowed (own : option nat) (d : Dir) : Prop :=
  match d with
  | Named _ => True
  | Temp j => own = Some j
  end.

(** [tidy own w w']: going from [w], where the temporary directories are
    in order and [own] is live, to [w'], they stay in order and the live
    ones are the same. *)
Definition tidy (own : option nat) (w w' : @World T) : Prop :=
  temps_in_order w ->
  (forall i, own = Some i -> In i (temp_live w)) ->
  temps_in_order w' /\ temp_live w' = temp_live w /\
  (next_temp w <= next_temp w')%nat.

End TempRelations.

(** ** What a log shows *)

(** The entries that only the split path writes: a qpdf run, the start
    of the protocol, a count being tried, a file being unlinked. *)
Definition splitting_event (e : Event) : bool :=
  match e with
  | SplitPages _ _ _ _ _ | SplittingStarted _ | TryParts _ | Unlinked _ => true
  | _ => false
  end.

(** The entries that a search may write. *)
Definition search_event (e : Event) : bool :=
  match e with
  | Deconstruct _ _ _ | Analyze _ | Reconstruct _ _ _ | Measured _ _
  | Copied _ _ _ | TierSkipped _ | StrategyApplied _ _
  | TempKept _ | TempCleaned _ => true
  | _ => false
  end.

(** The entries that one split attempt may write. *)
Definition attempt_event (e : Event) : bool :=
  match e with
  | SplitPages _ _ _ _ _ | Unlinked _ => true
  | _ => search_event e
  end.

(** The part counts that were tried, in order. *)
Definition tried_counts (evs : list Event) : list Z :=
  flat_map (fun e => match e with TryParts k => [k] | _ => [] end) evs.

(** The runs of the external tools: pdftoppm, the OCR pass over all
    pages, recode_pdf and qpdf. *)
Record Runs : Type := mkRuns {
  renderings : nat;
  recognitions : nat;
  rebuilds : nat;
  extractions : nat
}.

Definition runs_of_event (e : Event) : Runs :=
  match e with
  | Deconstruct _ _ _ => mkRuns 1 0 0 0
  | Analyze _ => mkRuns 0 1 0 0
  | Reconstruct _ _ _ => mkRuns 0 0 1 0
  | SplitPages _ _ _ _ _ => mkRuns 0 0 0 1
  | _ => mkRuns 0 0 0 0
  end.

Definition runs_add (a b : Runs) : Runs :=
  mkRuns (renderings a + renderings b) (recognitions a + recognitions b)
         (rebuilds a + rebuilds b) (extractions a + extractions b).

Definition runs_of (evs : list Event) : Runs :=
  fold_right (fun e r => runs_add (runs_of_event e) r) (mkRuns 0 0 0 0) evs.

Definition runs_le (a b : Runs) : Prop :=
  (renderings a <= renderings b)%nat /\ (recognitions a <= recognitions b)%nat /\
  (rebuilds a <= rebuilds b)%nat /\ (extractions a <= extractions b)%nat.

(** The log of presets that were tried one after the other, from index
    [i] on, and rejected: the rebuild failed, or its result was measured
    above the target. *)
Inductive rejections (target_size_mb : Q) (out_at : nat -> Path)
  : nat -> list Params -> list Event -> Prop :=
| rejections_none (i : nat) : rejections target_size_mb out_at i [] []
| rejections_failed (i : nat) (p : Params) (ps : list Params) (evs : list Event) :
    rejections target_size_mb out_at (S i) ps evs ->
    rejections target_size_mb out_at i (p :: ps)
               (Reconstruct p (out_at i) false :: evs)
| rejections_too_big (i : nat) (p : Params) (ps : list Params) (s : Q)
    (evs : list Event) :
    (target_size_mb < s)%Q ->
    rejections target_size_mb out_at (S i) ps evs ->
    rejections target_size_mb out_at i (p :: ps)
               (Reconstruct p (out_at i) true :: Measured (out_at i) s :: evs).

(** What a loop over presets that stops at the first fit leaves: the
    presets before the winner were rejected, the winner was rebuilt,
    measured at most the target and copied to [final]; without a winner
    all presets were rejected. [evs] is what the loop wrote to the log,
    [r] what it returned and [disk] the files it left. The copy succeeded
    exactly when the winner's output is on the disk, and then [final]
    holds its bytes and the measured size is its size; a missing output
    was measured as [0]. [reliable] is the assumption on recode_pdf under
    which the output of the winner is known to be there. *)
Definition scan_outcome (reliable : Prop) (target_size_mb : Q) (out_at : nat -> Path)
    (final : Path) (i : nat) (remaining : list Params) (disk : Path -> option N)
    (r : bool * option Path) (evs : list Event)
  : Prop :=
  exists (tried : list Params) (rejected : list Event),
    rejections target_size_mb out_at i tried rejected /\
    ((r = (false, None) /\ tried = remaining /\ evs = rejected) \/
     (exists (p : Params) (later : list Params) (s : Q) (copied : bool),
        let out := out_at (i + List.length tried)%nat in
        remaining = tried ++ p :: later /\
        (s <= target_size_mb)%Q /\
        r = (true, Some final) /\
        evs = rejected ++ [Reconstruct p out true; Measured out s;
                           Copied out final copied] /\
        match disk out with
        | Some n => s = Z.of_N n # MB /\ copied = true /\ disk final = Some n
        | None => s = 0%Q /\ copied = false
        end /\
        (reliable -> disk out <> None))).

Section LogRelations.

Context {T : Type}.

(** [logs S m]: whatever the world, [m] appends to the log a list of
    entries that satisfies [S]. *)
Definition logs (S : list Event -> Prop) {A} (m : @M T A) : Prop :=
  forall w, exists evs, log (snd (m w)) = log w ++ evs /\ S evs.

Definition emits_only (P : Event -> bool) {A} (m : @M T A) : Prop :=
  logs (fun evs => forallb P evs = true) m.

Definition costs_at_most (budget : Runs) {A} (m : @M T A) : Prop :=
  logs (fun evs => runs_le (runs_of evs) budget) m.

End LogRelations.

(** * Properties *)

(** ** The split plan *)

Lemma pages_per_split_pos (total_pages : Z) (k : positive) :
  pages_per_split_of total_pages (Zpos k) = (- ((- total_pages) / Zpos k))%Z.
Proof.
  unfold pages_per_split_of, Qceiling, Qfloor, Qdiv, Qinv, Qmult, Qopp, inject_Z.
  simpl. rewrite Z.mul_1_r. reflexivity.
Qed.

Lemma pages_per_split_bounds (total_pages k : Z) :
  (1 <= total_pages)%Z -> (1 <= k)%Z ->
  (1 <= pages_per_split_of total_pages k)%Z /\
  (total_pages <= k * pages_per_split_of total_pages k)%Z /\
  (k * (pages_per_split_of total_pages k - 1) < total_pages)%Z.
Proof.
  intros Ht Hk. destruct k as [|k|k]; try lia.
  rewrite pages_per_split_pos.
  pose proof (Z.div_mod (- total_pages) (Zpos k) ltac:(lia)) as E.
  pose proof (Z.mod_pos_bound (- total_pages) (Zpos k) ltac:(lia)) as B.
  nia.
Qed.

Lemma range_cons (a b : Z) : (a < b)%Z -> range a b = a :: range (a + 1) b.
Proof.
  intro H. unfold range.
  replace (Z.to_nat (b - a)) with (S (Z.to_nat (b - (a + 1)))) by lia.
  simpl. f_equal.
  - lia.
  - rewrite <- seq_shift, map_map. apply map_ext. intro i. lia.
Qed.

Lemma range_nil (a b : Z) : (b <= a)%Z -> range a b = [].
Proof.
  intro H. unfold range. replace (Z.to_nat (b - a)) with 0%nat by lia. reflexivity.
Qed.

Lemma seq_shift_by (m off n : nat) :
  map (fun i => (m + i)%nat) (seq off n) = seq (m + off) n.
Proof.
  revert off. induction n as [|n IH]; intro off; simpl; [reflexivity|].
  f_equal. rewrite IH. f_equal. lia.
Qed.

Lemma range_split (a b c : Z) :
  (a <= b)%Z -> (b <= c)%Z -> range a c = range a b ++ range b c.
Proof.
  intros Hab Hbc. unfold range.
  replace (Z.to_nat (c - a)) with (Z.to_nat (b - a) + Z.to_nat (c - b))%nat by lia.
  rewrite seq_app, map_app. f_equal.
  rewrite Nat.add_0_l.
  rewrite <- (Nat.add_0_r (Z.to_nat (b - a))).
  rewrite <- seq_shift_by. rewrite map_map.
  apply map_ext. intro i. lia.
Qed.

Lemma chain_covers (rs : list (Z * Z)) :
  forall a b,
    chain a rs b ->
    Forall (fun r => (fst r <= snd r)%Z) rs ->
    flat_map pages_of rs = range a (b + 1).
Proof.
  induction rs as [|r more IH]; intros a b Hc Hn; [contradiction|].
  inversion Hn as [|? ? Hr Hmore]; subst.
  destruct more as [|r' more'].
  - destruct Hc as [<- <-]. simpl. rewrite app_nil_r. reflexivity.
  - destruct Hc as [<- Hc].
    change (flat_map pages_of (r :: r' :: more'))
      with (pages_of r ++ flat_map pages_of (r' :: more')).
    rewrite (IH _ _ Hc Hmore). unfold pages_of.
    assert (snd r + 1 <= b + 1)%Z.
    { clear - Hc Hmore. revert Hc Hmore. generalize (snd r + 1)%Z as a.
      induction (r' :: more') as [|x l IHl]; intros a Hc Hn; [contradiction|].
      inversion Hn; subst. destruct l.
      - destruct Hc; lia.
      - destruct Hc as [? Hc]. specialize (IHl _ Hc ltac:(assumption)). lia. }
    symmetry. apply range_split; lia.
Qed.

Lemma ranges_from_chain (pps total_pages : Z) :
  (1 <= pps)%Z ->
  forall n i,
    (1 <= n)%nat ->
    (Z.of_nat i * pps < total_pages)%Z ->
    (total_pages <= Z.of_nat (i + n) * pps)%Z ->
    let rs := ranges_from pps total_pages (seq i n) in
    chain (Z.of_nat i * pps + 1) rs total_pages /\
    Forall (fun r => (fst r <= snd r)%Z) rs.
Proof.
  intro Hp. induction n as [|n IH]; intros i Hn Hlo Hhi rs; [lia|].
  subst rs. cbn [seq ranges_from].
  destruct (Z.ltb_spec total_pages (start_page_of pps i)) as [Hlt|Hge];
    unfold start_page_of in *; [lia|].
  destruct (Z.le_gt_cases total_pages ((Z.of_nat i + 1) * pps)) as [Hend|Hmore].
  - (* this part reaches the last page: the loop breaks or ends *)
    assert (ranges_from pps total_pages (seq (S i) n) = []) as ->.
    { destruct n; [reflexivity|]. cbn [seq ranges_from]. unfold start_page_of.
      destruct (Z.ltb_spec total_pages (Z.of_nat (S i) * pps + 1)); [reflexivity|lia]. }
    cbn. unfold end_page_of. split; [split; lia|].
    constructor; [cbn; lia|constructor].
  - destruct n as [|n]; [lia|].
    destruct (IH (S i)) as [Hc Hf]; try lia.
    remember (ranges_from pps total_pages (seq (S i) (S n))) as more eqn:Em.
    destruct more as [|r more]; [contradiction|].
    split.
    + cbn [chain]. split; [reflexivity|].
      cbn [snd]. unfold end_page_of.
      replace (Z.min ((Z.of_nat i + 1) * pps) total_pages + 1)%Z
        with (Z.of_nat (S i) * pps + 1)%Z by lia.
      exact Hc.
    + constructor; [|exact Hf]. cbn. unfold end_page_of. lia.
Qed.

(** The plan of a split into [k]: the ranges are non-empty, follow one
    another from page 1 to the last page, and list every page once. *)
Lemma page_ranges_chain (total_pages k : Z) :
  (1 <= total_pages)%Z -> (1 <= k)%Z ->
  Forall (fun r => (fst r <= snd r)%Z) (page_ranges total_pages k) /\
  chain 1 (page_ranges total_pages k) total_pages /\
  flat_map pages_of (page_ranges total_pages k) = range 1 (total_pages + 1).
Proof.
  intros Ht Hk.
  destruct (pages_per_split_bounds _ _ Ht Hk) as (Hp & Hcov & _).
  destruct (ranges_from_chain (pages_per_split_of total_pages k) total_pages Hp
              (Z.to_nat k) 0%nat) as [Hc Hf]; try lia.
  unfold page_ranges. simpl in Hc.
  split; [exact Hf|]. split; [exact Hc|].
  apply chain_covers; assumption.
Qed.

(** ** The split planner *)

(** C7. For [max_splits >= 2], [calculate_split_strategy] returns
    [ceil(size / 25)] clamped into [[2, max_splits]]. *)
Theorem calculate_split_strategy_clamp (total_size_mb : Q) (the_max_splits : Z) :
  (0 < total_size_mb)%Q -> (2 <= the_max_splits)%Z ->
  calculate_split_strategy total_size_mb the_max_splits
    = clamp 2 the_max_splits (Qceiling (total_size_mb / 25)) /\
  (2 <= calculate_split_strategy total_size_mb the_max_splits <= the_max_splits)%Z.
Proof.
  intros _ Hm. unfold calculate_split_strategy, clamp, estimated_chunk_size.
  generalize (Qceiling (total_size_mb / 25)) as c. intro c.
  destruct (Z.ltb_spec (Z.min the_max_splits c) 2);
    destruct (Z.ltb_spec c 2);
    destruct (Z.ltb_spec the_max_splits c); lia.
Qed.

Lemma calculate_split_strategy_clamp_witness :
  calculate_split_strategy 60 4 = 3%Z /\
  calculate_split_strategy 60 4 = clamp 2 4 (Qceiling (60 / 25)).
Proof.
  split; [reflexivity|].
  apply (calculate_split_strategy_clamp 60 4); [reflexivity|lia].
Defined.

(** ** Strings and paths *)

Lemma length_append (a b : string) :
  String.length (a ++ b)%string = (String.length a + String.length b)%nat.
Proof. induction a as [|c a IH]; simpl; [reflexivity|now rewrite IH]. Qed.

Lemma append_inv_head (a b c : string) : (a ++ b = a ++ c)%string -> b = c.
Proof. induction a as [|x a IH]; simpl; intro H; [exact H|]. injection H. exact IH. Qed.

Lemma Dir_eqb_spec (a b : Dir) : reflect (a = b) (Dir_eqb a b).
Proof.
  destruct a as [x|i], b as [y|j]; simpl; try (constructor; discriminate).
  - destruct (String.eqb_spec x y); constructor; congruence.
  - destruct (Nat.eqb_spec i j); constructor; congruence.
Qed.

Lemma Path_eqb_spec (p q : Path) : reflect (p = q) (Path_eqb p q).
Proof.
  destruct p as [d n], q as [e m]. unfold Path_eqb. simpl.
  destruct (Dir_eqb_spec d e), (String.eqb_spec n m); simpl; constructor; congruence.
Qed.

Lemma Path_eqb_refl (p : Path) : Path_eqb p p = true.
Proof. destruct (Path_eqb_spec p p); congruence. Qed.

Lemma Path_eqb_names (d e : Dir) (n m : string) :
  String.length n <> String.length m -> Path_eqb (d, n) (e, m) = false.
Proof.
  intro H. destruct (Path_eqb_spec (d, n) (e, m)) as [E|]; [|reflexivity].
  injection E as _ E. subst. contradiction.
Qed.

(** [run H]: take the next step of a computation, whose result is [H]. *)
Ltac run H := unfold bind; rewrite ?H; cbv beta iota.

Lemma append_inv_tail (c : string) :
  forall a b : string, (a ++ c = b ++ c)%string -> a = b.
Proof.
  assert (L : forall a x b, (a = String x b ++ a)%string -> False).
  { intros a x b H. apply (f_equal String.length) in H.
    simpl in H. rewrite length_append in H. lia. }
  induction a as [|x a IH]; intros [|y b] H; simpl in H.
  - reflexivity.
  - destruct (L c y b H).
  - symmetry in H. destruct (L c x a H).
  - injection H as -> H. f_equal. exact (IH _ H).
Qed.

Lemma str_nat_inj (i j : nat) : str_nat i = str_nat j -> i = j.
Proof.
  unfold str_nat. intro H. apply Unsigned.to_uint_inj.
  apply (f_equal NilEmpty.uint_of_string) in H.
  rewrite !NilEmpty.usu in H. congruence.
Qed.

Lemma back_output_inj (pdf : PdfFile) (d : Dir) (i j : nat) :
  back_output pdf d i = back_output pdf d j -> i = j.
Proof.
  unfold back_output. intro H. injection H as H.
  apply append_inv_head in H. injection H as H.
  apply append_inv_tail in H. now apply str_nat_inj.
Qed.

Lemma back_output_not_last (pdf : PdfFile) (d : Dir) (i : nat) :
  back_output pdf d i <> last_output pdf d.
Proof.
  unfold back_output, last_output. intro H. injection H as H.
  apply append_inv_head in H. discriminate.
Qed.

Lemma append_assoc (a b c : string) : ((a ++ b) ++ c = a ++ (b ++ c))%string.
Proof. induction a as [|x a IH]; simpl; [reflexivity|now rewrite IH]. Qed.

Lemma append_equal_tails (x y : string) :
  String.length x = String.length y ->
  forall a b : string, (a ++ x = b ++ y)%string -> x = y.
Proof.
  intros Hl a. induction a as [|c a IH]; intros [|d b] H; simpl in H.
  - exact H.
  - apply (f_equal String.length) in H. simpl in H. rewrite length_append in H. lia.
  - apply (f_equal String.length) in H. simpl in H. rewrite length_append in H. lia.
  - injection H as _ H. exact (IH _ H).
Qed.

Lemma last_output_not_final (pdf : PdfFile) (d e : Dir) :
  Path_eqb (last_output pdf d) (final_path pdf e) = false.
Proof. apply Path_eqb_names. rewrite !length_append. simpl. lia. Qed.

Lemma back_output_not_final (pdf : PdfFile) (d e : Dir) (i : nat) :
  Path_eqb (back_output pdf d i) (final_path pdf e) = false.
Proof. apply Path_eqb_names. rewrite !length_append. simpl. lia. Qed.

(** [output_<stem>_<i>.pdf] is never [<stem>_compressed.pdf]: when the
    lengths agree the last eight characters differ. *)
Lemma seq_output_not_final (pdf : PdfFile) (d e : Dir) (i : nat) :
  Path_eqb (seq_output pdf d i) (final_path pdf e) = false.
Proof.
  destruct (Path_eqb_spec (seq_output pdf d i) (final_path pdf e)) as [E|]; [|reflexivity].
  exfalso. unfold seq_output, final_path in E. injection E as _ E.
  pose proof (f_equal String.length E) as L.
  rewrite !length_append in L. simpl in L. rewrite !length_append in L. simpl in L.
  assert (E' : (("output_" ++ pdf_stem pdf) ++ ("_" ++ str_nat i ++ ".pdf")
                = (pdf_stem pdf ++ "_compre") ++ "ssed.pdf")%string)
    by (rewrite !append_assoc; exact E).
  clear E. rename E' into E.
  apply append_equal_tails in E.
  - discriminate E.
  - simpl. rewrite ?length_append in *. simpl in *. lia.
Qed.

Lemma compressed_output_not_final (pdf : PdfFile) (d e : Dir) (i : nat) :
  Path_eqb (compressed_output pdf d i) (final_path pdf e) = false.
Proof. apply Path_eqb_names. rewrite !length_append. simpl. lia. Qed.

Lemma find_first {A} (f : A -> bool) (d : A) (l : list A) :
  forall j,
    (j < List.length l)%nat -> f (nth j l d) = true ->
    (forall i, (i < j)%nat -> f (nth i l d) = false) ->
    find f l = Some (nth j l d).
Proof.
  induction l as [|a l IH]; intros j Hj Ht Hf; simpl in Hj; [lia|].
  destruct j as [|j]; simpl in *.
  - now rewrite Ht.
  - pose proof (Hf 0%nat ltac:(lia)) as H0. simpl in H0. rewrite H0.
    apply IH; [lia|exact Ht|].
    intros i Hi. apply (Hf (S i)). lia.
Qed.

Lemma find_nowhere {A} (f : A -> bool) (d : A) (l : list A) :
  (forall i, (i < List.length l)%nat -> f (nth i l d) = false) -> find f l = None.
Proof.
  induction l as [|a l IH]; intro H; simpl; [reflexivity|].
  pose proof (H 0%nat ltac:(simpl; lia)) as H0. simpl in H0. rewrite H0. apply IH.
  intros i Hi. apply (H (S i)). simpl. lia.
Qed.

Lemma last_copy_app dst (l m : list Event) :
  last_copy dst (l ++ m)
  = match last_copy dst m with Some s => Some s | None => last_copy dst l end.
Proof.
  induction l as [|e l IH]; simpl.
  - now destruct (last_copy dst m).
  - rewrite IH. now destruct (last_copy dst m).
Qed.

Lemma producer_app out (l m : list Event) :
  producer out (l ++ m)
  = match producer out m with Some p => Some p | None => producer out l end.
Proof.
  induction l as [|e l IH]; simpl.
  - now destruct (producer out m).
  - rewrite IH. now destruct (producer out m).
Qed.

Lemma winning_preset_last dst pre p src s :
  winning_preset dst
    (pre ++ [Reconstruct p src true; Measured src s; Copied src dst true]) = Some p.
Proof.
  unfold winning_preset. rewrite last_copy_app.
  cbn [last_copy]. rewrite Path_eqb_refl.
  rewrite producer_app. cbn [producer]. now rewrite Path_eqb_refl.
Qed.

Section SearchProperties.

Context {T : Type} {tools : Pipeline T}.

Abbreviation World := (@World T).

Lemma reconstructions_app (l m : list Event) :
  reconstructions (l ++ m) = reconstructions l ++ reconstructions m.
Proof. apply flat_map_app. Qed.

(** *** What one step does to the world *)

Lemma reconstruct_pdf_log images hocr td p out (w : World) :
  log (snd (reconstruct_pdf images hocr td p out w))
  = log w ++ [Reconstruct p out (fst (reconstruct_pdf images hocr td p out w))].
Proof.
  unfold reconstruct_pdf.
  destruct (recode_pdf (tool w) images hocr p out) as [[ok written] t].
  destruct written; reflexivity.
Qed.

Lemma get_file_size_mb_eq p (w : World) :
  get_file_size_mb p w
  = (fst (stat_size_mb p w),
     mkWorld (files w) (temp_live w) (next_temp w) (tool w)
             (log w ++ [Measured p (fst (stat_size_mb p w))])).
Proof. reflexivity. Qed.

Lemma first_output_not_final (pdf : PdfFile) (d e : Dir) :
  Path_eqb (first_output pdf d) (final_path pdf e) = false.
Proof.
  apply Path_eqb_names. rewrite !length_append. simpl. lia.
Qed.

Lemma copy_file_present {src dst n} {w : World} :
  files w src = Some n -> Path_eqb src dst = false ->
  fst (copy_file src dst w) = true /\
  files (snd (copy_file src dst w)) dst = Some n /\
  log (snd (copy_file src dst w)) = log w ++ [Copied src dst true].
Proof.
  intros Hs Hd. unfold copy_file. rewrite Hs, Hd. cbn.
  rewrite Path_eqb_refl. auto.
Qed.

Section OneSearch.

Variables (first_params : Params) (rest : list Params).
Variables (pdf : PdfFile) (output_dir : Dir) (target_size_mb : Q).
Variables (temp_dir : Dir) (image_files : list Path) (hocr_file : Path).

Abbreviation rebuild := (reconstruct_pdf image_files hocr_file temp_dir).
Abbreviation search :=
  (try_presets first_params rest pdf output_dir target_size_mb
               temp_dir image_files hocr_file).
Abbreviation first_out := (first_output pdf temp_dir).
Abbreviation last_out := (last_output pdf temp_dir).
Abbreviation final := (final_path pdf output_dir).

(** C4. When the first preset is rebuilt into a file of size at most the
    target, the search returns success with that file copied to
    [<stem>_compressed.pdf], and recode_pdf ran exactly once. *)
Theorem conservative_fit_returns_at_once (w w1 w2 : World) (s1 : Q) (n : N) :
  rebuild first_params first_out w = (true, w1) ->
  files w1 first_out = Some n ->
  get_file_size_mb first_out w1 = (s1, w2) ->
  (s1 <= target_size_mb)%Q ->
  fst (search w) = (true, Some final) /\
  files (snd (search w)) final = Some n /\
  log (snd (search w))
    = log w ++ [Reconstruct first_params first_out true;
                Measured first_out s1;
                Copied first_out final true] /\
  reconstructions (log (snd (search w)))
    = reconstructions (log w) ++ [first_params].
Proof.
  intros H1 Hn H2 Hle.
  assert (Hw2 : files w2 first_out = Some n /\
                log w2 = log w ++ [Reconstruct first_params first_out true;
                                   Measured first_out s1]).
  { rewrite get_file_size_mb_eq in H2. injection H2 as <- <-. cbn.
    split; [exact Hn|].
    pose proof (reconstruct_pdf_log image_files hocr_file temp_dir
                  first_params first_out w) as L.
    rewrite H1 in L. cbn in L. rewrite L, <- app_assoc. reflexivity. }
  destruct Hw2 as [Hf Hl].
  destruct (copy_file_present Hf
              (first_output_not_final pdf temp_dir output_dir)) as (_ & Cf & Cl).
  assert (E : search w = ((true, Some final), snd (copy_file first_out final w2))).
  { unfold try_presets. run H1. run H2.
    apply Qle_bool_iff in Hle. rewrite Hle.
    unfold bind, ret. destruct (copy_file first_out final w2). reflexivity. }
  rewrite E. cbn [fst snd].
  split; [reflexivity|]. split; [exact Cf|].
  assert (L : log (snd (copy_file first_out final w2))
              = log w ++ [Reconstruct first_params first_out true;
                          Measured first_out s1; Copied first_out final true]).
  { rewrite Cl, Hl, <- app_assoc. reflexivity. }
  split; [exact L|].
  rewrite L, reconstructions_app. reflexivity.
Qed.

Abbreviation last_index := (List.length (sequence first_params rest) - 1)%nat.
Abbreviation last_params :=
  (nth last_index (sequence first_params rest) first_params).
Abbreviation back_out := (back_output pdf temp_dir).
Abbreviation preset_at := (fun i => nth i (sequence first_params rest) first_params).

Lemma stat_size_mb_nonneg p (w : World) : (0 <= fst (stat_size_mb p w))%Q.
Proof.
  unfold stat_size_mb. cbn. destruct (files w p) as [n|].
  - unfold Qle. cbn. lia.
  - apply Qle_refl.
Qed.

Lemma get_file_size_mb_nonneg {p} {w w' : World} {s} :
  get_file_size_mb p w = (s, w') -> (0 <= s)%Q.
Proof.
  rewrite get_file_size_mb_eq. intro E. injection E as <- _.
  apply stat_size_mb_nonneg.
Qed.

Lemma get_file_size_mb_log {p} {w w' : World} {s} :
  get_file_size_mb p w = (s, w') -> log w' = log w ++ [Measured p s].
Proof. rewrite get_file_size_mb_eq. intro E. injection E as <- <-. reflexivity. Qed.

Lemma rebuild_log {p out} {w w' : World} {ok} :
  rebuild p out w = (ok, w') -> log w' = log w ++ [Reconstruct p out ok].
Proof.
  intro E. pose proof (reconstruct_pdf_log image_files hocr_file temp_dir p out w) as L.
  rewrite E in L. exact L.
Qed.

Lemma Qle_bool_false {x y : Q} : (y < x)%Q -> Qle_bool x y = false.
Proof.
  intro H. destruct (Qle_bool x y) eqn:E; [|reflexivity].
  apply Qle_bool_iff in E. lra.
Qed.

Lemma Qlt_bool_true {x y : Q} : (x < y)%Q -> Qlt_bool x y = true.
Proof. intro H. unfold Qlt_bool. now rewrite Qle_bool_false. Qed.

Lemma Qlt_bool_iff (x y : Q) : Qlt_bool x y = true <-> (x < y)%Q.
Proof.
  split; [|apply Qlt_bool_true].
  unfold Qlt_bool. intro H. destruct (Qle_bool y x) eqn:E; [discriminate|].
  destruct (Qlt_le_dec x y) as [L|L]; [exact L|].
  apply Qle_bool_iff in L. congruence.
Qed.

(** Lines 102 to 109: a first result beyond 1.5 times the target leads
    to the rebuild of the last preset. *)
Lemma far_goes_to_last {w w1 w2 : World} {s1 : Q} :
  rebuild first_params first_out w = (true, w1) ->
  get_file_size_mb first_out w1 = (s1, w2) ->
  (target_size_mb * threshold_factor < s1)%Q ->
  search w =
    (ok_last <- rebuild last_params last_out ;;
     if negb ok_last then ret (false, None)
     else
       last_size <- get_file_size_mb last_out ;;
       if Qlt_bool target_size_mb last_size then ret (false, None)
       else
         chosen_path <- backtrack first_params rest pdf target_size_mb temp_dir
                                  image_files hocr_file last_index last_out ;;
         copy_file chosen_path final ;;;
         ret (true, Some final)) w2.
Proof.
  intros H1 H2 Hfar.
  pose proof (get_file_size_mb_nonneg H2) as Hpos.
  unfold try_presets. run H1. run H2.
  rewrite Qle_bool_false by (unfold threshold_factor in Hfar; lra).
  rewrite (Qlt_bool_true Hfar). reflexivity.
Qed.

Abbreviation kept := (kept_step preset_at back_out).
Abbreviation stopped := (stop_step target_size_mb preset_at back_out).

Lemma flat_map_agree {A B} (f g : A -> list B) (l : list A) :
  (forall a, In a l -> f a = g a) -> flat_map f l = flat_map g l.
Proof.
  intro H. rewrite !flat_map_concat_map. f_equal. now apply map_ext_in.
Qed.

Lemma rev_seq_S {j n : nat} :
  (j <= n)%nat -> rev (seq j (S n - j)) = n :: rev (seq j (n - j)).
Proof.
  intro H. replace (S n - j)%nat with (S (n - j)) by lia.
  rewrite seq_S, rev_app_distr. simpl. f_equal. lia.
Qed.

Abbreviation backtracking :=
  (backtrack first_params rest pdf target_size_mb temp_dir image_files hocr_file).

(** Lines 124 to 138, as seen in the log. *)
Lemma backtrack_trace (n : nat) :
  forall (chosen : Path) (w : World),
  exists (j : nat) (size_at : nat -> Q) (stop : list Event),
    (j <= n)%nat /\
    log (snd (backtracking n chosen w))
      = log w ++ flat_map (kept size_at) (rev (seq j (n - j))) ++ stop /\
    (forall i, (j <= i < n)%nat -> (size_at i <= target_size_mb)%Q) /\
    stopped j stop /\
    fst (backtracking n chosen w) = (if (j =? n)%nat then chosen else back_out j).
Proof.
  induction n as [|idx IH]; intros chosen w.
  - exists 0%nat, (fun _ => 0%Q), []. cbn. rewrite app_nil_r.
    repeat split; auto. intros i Hi. lia.
  - cbn [backtrack].
    destruct (rebuild (preset_at idx) (back_out idx) w) as [ok w1] eqn:R.
    pose proof (rebuild_log R) as LR.
    run R. destruct ok; cbn [negb]; cbv beta iota.
    + destruct (get_file_size_mb (back_out idx) w1) as [s w2] eqn:G.
      pose proof (get_file_size_mb_log G) as LG.
      run G. destruct (Qle_bool s target_size_mb) eqn:HQ; cbv beta iota zeta.
      * (* kept: go on below idx *)
        destruct (IH (back_out idx) w2) as (j & size_at & stop & Hj & L & Hs & Hstop & Hv).
        exists j, (fun i => if (i =? idx)%nat then s else size_at i), stop.
        split; [lia|]. split; [|split; [|split]].
        -- rewrite L, LG, LR, (rev_seq_S Hj). cbn [flat_map].
           unfold kept_step at 2. rewrite Nat.eqb_refl, <- !app_assoc. cbn [app].
           do 3 f_equal. f_equal. apply flat_map_agree. intros i Hi.
           apply in_rev, in_seq in Hi. unfold kept_step.
           destruct (Nat.eqb_spec i idx); [lia|reflexivity].
        -- intros i Hi. destruct (Nat.eqb_spec i idx).
           ++ now apply Qle_bool_iff.
           ++ apply Hs. lia.
        -- exact Hstop.
        -- rewrite Hv. destruct (Nat.eqb_spec j idx), (Nat.eqb_spec j (S idx));
             subst; try lia; reflexivity.
      * (* above the target: stop *)
        exists (S idx), (fun _ => 0%Q), [Reconstruct (preset_at idx) (back_out idx) true;
                                        Measured (back_out idx) s].
        rewrite Nat.sub_diag, Nat.eqb_refl. cbn.
        split; [lia|]. split; [rewrite LG, LR, <- app_assoc; reflexivity|].
        split; [intros; lia|]. split; [|reflexivity].
        right. exists s. split; [|reflexivity].
        destruct (Qlt_le_dec target_size_mb s) as [|Hle]; [assumption|].
        apply Qle_bool_iff in Hle. congruence.
    + exists (S idx), (fun _ => 0%Q), [Reconstruct (preset_at idx) (back_out idx) false].
      rewrite Nat.sub_diag, Nat.eqb_refl. cbn.
      split; [lia|]. split; [exact LR|].
      split; [intros; lia|]. split; [|reflexivity].
      left. reflexivity.
Qed.

Lemma copy_file_log src dst (w : World) :
  log (snd (copy_file src dst w)) = log w ++ [Copied src dst (fst (copy_file src dst w))].
Proof.
  unfold copy_file. destruct (files w src); [destruct (Path_eqb src dst)|]; reflexivity.
Qed.

Lemma copy_file_content src dst (w : World) :
  fst (copy_file src dst w) = true ->
  files (snd (copy_file src dst w)) dst = files (snd (copy_file src dst w)) src /\
  files (snd (copy_file src dst w)) src = files w src /\
  files w src <> None.
Proof.
  unfold copy_file. destruct (files w src) as [n|] eqn:E; [|discriminate].
  destruct (Path_eqb src dst) eqn:D; [discriminate|]. cbn. intros _.
  rewrite Path_eqb_refl, D, E. repeat split; congruence.
Qed.

(** The search once the last preset fitted: lines 120 to 144. *)
Lemma fit_at_last_backtracks {w w1 w2 w3 w4 : World} {s1 sL : Q} :
  rebuild first_params first_out w = (true, w1) ->
  get_file_size_mb first_out w1 = (s1, w2) ->
  (target_size_mb * threshold_factor < s1)%Q ->
  rebuild last_params last_out w2 = (true, w3) ->
  get_file_size_mb last_out w3 = (sL, w4) ->
  (sL <= target_size_mb)%Q ->
  search w =
    ((true, Some final),
     snd (copy_file (fst (backtracking last_index last_out w4)) final
                    (snd (backtracking last_index last_out w4)))).
Proof.
  intros H1 H2 Hfar H3 H4 HL.
  rewrite (far_goes_to_last H1 H2 Hfar).
  run H3. cbn [negb]. cbv beta iota. run H4.
  unfold Qlt_bool. apply Qle_bool_iff in HL. rewrite HL. cbn [negb].
  unfold bind, ret.
  destruct (backtracking last_index last_out w4) as [chosen w5]. cbn [fst snd].
  destruct (copy_file chosen final w5). reflexivity.
Qed.

(** What the search leaves behind once the last preset fitted. *)
Lemma fit_at_last_outcome {w w1 w2 w3 w4 : World} {s1 sL : Q} :
  rebuild first_params first_out w = (true, w1) ->
  get_file_size_mb first_out w1 = (s1, w2) ->
  (target_size_mb * threshold_factor < s1)%Q ->
  rebuild last_params last_out w2 = (true, w3) ->
  get_file_size_mb last_out w3 = (sL, w4) ->
  (sL <= target_size_mb)%Q ->
  log w4 = log w ++ [Reconstruct first_params first_out true;
                     Measured first_out s1;
                     Reconstruct last_params last_out true;
                     Measured last_out sL] /\
  exists (j : nat) (size_at : nat -> Q) (stop : list Event) (copied : bool),
    let chosen := if (j =? last_index)%nat then last_out else back_out j in
    (j <= last_index)%nat /\
    (forall i, (j <= i < last_index)%nat -> (size_at i <= target_size_mb)%Q) /\
    stopped j stop /\
    log (snd (search w))
      = log w4
        ++ flat_map (kept size_at) (rev (seq j (last_index - j)))
        ++ stop
        ++ [Copied chosen final copied] /\
    fst (search w) = (true, Some final) /\
    (copied = true ->
     files (snd (search w)) final = files (snd (search w)) chosen /\
     files (snd (search w)) chosen <> None).
Proof.
  intros H1 H2 Hfar H3 H4 HL.
  split.
  { rewrite (get_file_size_mb_log H4), (rebuild_log H3), (get_file_size_mb_log H2),
      (rebuild_log H1), <- !app_assoc. reflexivity. }
  rewrite (fit_at_last_backtracks H1 H2 Hfar H3 H4 HL). cbn [fst snd].
  destruct (backtrack_trace last_index last_out w4)
    as (j & size_at & stop & Hj & L & Hs & Hstop & Hv).
  set (b := backtracking last_index last_out w4) in *.
  exists j, size_at, stop, (fst (copy_file (fst b) final (snd b))).
  cbv zeta. rewrite <- Hv.
  split; [exact Hj|]. split; [exact Hs|]. split; [exact Hstop|].
  split; [|split; [reflexivity|]].
  - rewrite copy_file_log, L, <- !app_assoc. reflexivity.
  - intro C. destruct (copy_file_content _ _ _ C) as (E1 & E2 & E3).
    split; [exact E1|]. rewrite E2. exact E3.
Qed.

(** C2. When the first preset is rebuilt into more than 1.5 times the
    target, the next preset handed to recode_pdf is the last one of the
    sequence; and when that rebuild fails or its result exceeds the
    target, the search returns failure without any further rebuild. *)
Theorem far_jumps_to_last_and_may_fail
    (w w1 w2 w3 w4 : World) (s1 sL : Q) (ok_last : bool) :
  rebuild first_params first_out w = (true, w1) ->
  get_file_size_mb first_out w1 = (s1, w2) ->
  (target_size_mb * threshold_factor < s1)%Q ->
  rebuild last_params last_out w2 = (ok_last, w3) ->
  get_file_size_mb last_out w3 = (sL, w4) ->
  (exists tail,
     log (snd (search w))
       = log w ++ [Reconstruct first_params first_out true;
                   Measured first_out s1;
                   Reconstruct last_params last_out ok_last] ++ tail) /\
  (ok_last = false \/ (target_size_mb < sL)%Q ->
   fst (search w) = (false, None) /\
   log (snd (search w))
     = log w ++ [Reconstruct first_params first_out true;
                 Measured first_out s1;
                 Reconstruct last_params last_out ok_last]
             ++ (if ok_last then [Measured last_out sL] else []) /\
   reconstructions (log (snd (search w)))
     = reconstructions (log w) ++ [first_params; last_params]).
Proof.
  intros H1 H2 Hfar H3 H4.
  assert (L3 : log w3 = log w ++ [Reconstruct first_params first_out true;
                                  Measured first_out s1;
                                  Reconstruct last_params last_out ok_last]).
  { rewrite (rebuild_log H3), (get_file_size_mb_log H2),
      (rebuild_log H1), <- !app_assoc. reflexivity. }
  pose proof (get_file_size_mb_log H4) as L4.
  destruct ok_last.
  - destruct (Qlt_le_dec target_size_mb sL) as [Hgt|Hle].
    + (* the last preset is above the target *)
      assert (E : search w = ((false, None), w4)).
      { rewrite (far_goes_to_last H1 H2 Hfar). run H3. cbn [negb]. cbv beta iota. run H4.
        now rewrite (Qlt_bool_true Hgt). }
      rewrite E. cbn [fst snd].
      assert (L : log w4 = log w ++ [Reconstruct first_params first_out true;
                                    Measured first_out s1;
                                    Reconstruct last_params last_out true]
                                 ++ [Measured last_out sL]).
      { rewrite L4, L3, <- app_assoc. reflexivity. }
      split; [exists [Measured last_out sL]; exact L|].
      intros _. split; [reflexivity|]. split; [exact L|].
      rewrite L, !reconstructions_app. reflexivity.
    + (* the last preset fits: backtracking follows *)
      split.
      * destruct (fit_at_last_outcome H1 H2 Hfar H3 H4 Hle)
          as (_ & j & size_at & stop & copied & _ & _ & _ & L & _).
        eexists. rewrite L, L4, L3, <- !app_assoc. reflexivity.
      * intros [Hf|Hgt]; [discriminate|lra].
  - assert (E : search w = ((false, None), w3)).
    { rewrite (far_goes_to_last H1 H2 Hfar). run H3. reflexivity. }
    rewrite E. cbn [fst snd]. split.
    + exists []. rewrite L3. reflexivity.
    + intros _. split; [reflexivity|].
      split; [rewrite L3; reflexivity|].
      rewrite L3, reconstructions_app. reflexivity.
Qed.

Abbreviation seq_out := (seq_output pdf temp_dir).
Abbreviation compressed_out := (compressed_output pdf temp_dir).

Lemma measure_missing {p} {w : World} :
  files w p = None ->
  get_file_size_mb p w = (0%Q, snd (emit (Measured p 0) w)).
Proof. intro H. rewrite get_file_size_mb_eq. unfold stat_size_mb. cbn. now rewrite H. Qed.

Lemma copy_file_keeps_result {A} (a : A) src dst (w : World) :
  fst ((copy_file src dst ;;; ret a) w) = a.
Proof. unfold bind, ret. now destruct (copy_file src dst w). Qed.

(** C10, as the code has it. [get_file_size_mb] answers [0] for a
    missing file, and it is not total: every other error of
    [os.path.getsize] leaves it. In a world, where a path holds a file or
    is missing, it is the size probe of the searches; and with a target
    that is not negative (the arguments are validated to have
    [target_size > 0]) an attempt that recode_pdf reports as successful
    but that left no file is measured as [0] and passes the size test in
    each of the loops: the first attempt, the sequential attempts, the
    aggressive attempts of the split path, the backtracking (the candidate
    is kept) and the attempt with the last preset. *)
Theorem missing_output_passes_size_test :
  (0 <= target_size_mb)%Q ->
  (get_file_size_mb_on (inr FileNotFoundError) = inl 0%Q /\
   (forall answer e,
      get_file_size_mb_on answer = inr e <->
      answer = inr e /\ e <> FileNotFoundError) /\
   (forall p (w : World),
      get_file_size_mb_on (getsize p w) = inl (fst (get_file_size_mb p w)))) /\
  (forall p (w : World), files w p = None -> fst (get_file_size_mb p w) = 0%Q) /\
  (forall w w1 : World,
     rebuild first_params first_out w = (true, w1) ->
     files w1 first_out = None ->
     fst (search w) = (true, Some final) /\
     log (snd (search w))
       = log w1 ++ [Measured first_out 0; Copied first_out final false]) /\
  (forall i p later (w w1 : World),
     rebuild p (seq_out i) w = (true, w1) ->
     files w1 (seq_out i) = None ->
     fst (sequential_attempts pdf output_dir target_size_mb temp_dir
                              image_files hocr_file i (p :: later) w)
     = (true, Some final)) /\
  (forall i p later (w w1 : World),
     rebuild p (compressed_out i) w = (true, w1) ->
     files w1 (compressed_out i) = None ->
     fst (aggressive_attempts pdf output_dir target_size_mb temp_dir
                              image_files hocr_file i (p :: later) w)
     = (true, Some final)) /\
  (forall idx chosen (w w1 : World),
     rebuild (preset_at idx) (back_out idx) w = (true, w1) ->
     files w1 (back_out idx) = None ->
     backtracking (S idx) chosen w
     = backtracking idx (back_out idx) (snd (emit (Measured (back_out idx) 0) w1))) /\
  (forall (w w1 w2 w3 : World) s1,
     rebuild first_params first_out w = (true, w1) ->
     get_file_size_mb first_out w1 = (s1, w2) ->
     (target_size_mb * threshold_factor < s1)%Q ->
     rebuild last_params last_out w2 = (true, w3) ->
     files w3 last_out = None ->
     fst (search w) = (true, Some final)).
Proof.
  intro Hpos. apply Qle_bool_iff in Hpos.
  split.
  { split; [reflexivity|]. split.
    - intros answer e. split.
      + destruct answer as [n|[| |]]; cbn; intro H; try discriminate H;
          injection H as <-; split; (reflexivity || discriminate).
      + intros [-> He]. destruct e; [contradiction| |]; reflexivity.
    - intros p w. unfold getsize. rewrite get_file_size_mb_eq. unfold stat_size_mb.
      cbn [fst]. destruct (files w p); reflexivity. }
  split; [intros p w H; now rewrite (measure_missing H)|].
  split.
  { intros w w1 R F.
    assert (E : search w
                = ((true, Some final),
                   snd (copy_file first_out final
                          (snd (emit (Measured first_out 0) w1))))).
    { unfold try_presets. run R. run (measure_missing F). rewrite Hpos.
      unfold bind, ret. now destruct (copy_file first_out final _). }
    rewrite E. split; [reflexivity|].
    unfold copy_file. cbn [emit snd files]. rewrite F. cbn.
    now rewrite <- app_assoc. }
  split.
  { intros i p later w w1 R F. cbn [sequential_attempts]. cbv zeta.
    run R. cbn [negb]. cbv beta iota. run (measure_missing F).
    rewrite Hpos. apply copy_file_keeps_result. }
  split.
  { intros i p later w w1 R F. cbn [aggressive_attempts]. cbv zeta.
    run R. cbn [negb]. cbv beta iota. run (measure_missing F).
    rewrite Hpos. apply copy_file_keeps_result. }
  split.
  { intros idx chosen w w1 R F. cbn [backtrack]. cbv zeta.
    run R. cbn [negb]. cbv beta iota. run (measure_missing F).
    now rewrite Hpos. }
  intros w w1 w2 w3 s1 R G Hfar R3 F.
  rewrite (far_goes_to_last R G Hfar).
  run R3. cbn [negb]. cbv beta iota. run (measure_missing F).
  unfold Qlt_bool. rewrite Hpos. cbn [negb]. unfold bind.
  destruct (backtracking _ _ _) as [chosen w5].
  apply copy_file_keeps_result.
Qed.

Section Deterministic.

(** The setting of C3: every rebuild succeeds and leaves a file whose
    size depends on the preset alone. *)
Variable size_of : Params -> N.
Hypothesis recode_deterministic :
  forall t p out, exists t',
    recode_pdf t image_files hocr_file p out = (true, Some (size_of p), t').

Abbreviation mb_of := (fun p => Z.of_N (size_of p) # MB).
Abbreviation fits := (fun p => Qle_bool (mb_of p) target_size_mb).

Lemma det_attempt p out (w : World) :
  exists w1 w2 : World,
    rebuild p out w = (true, w1) /\
    get_file_size_mb out w1 = (mb_of p, w2) /\
    log w2 = log w ++ [Reconstruct p out true; Measured out (mb_of p)] /\
    files w2 out = Some (size_of p) /\
    (forall q, q <> out -> files w2 q = files w q).
Proof.
  unfold reconstruct_pdf.
  destruct (recode_deterministic (tool w) p out) as [t' E]. rewrite E.
  eexists. eexists. split; [reflexivity|].
  rewrite get_file_size_mb_eq. cbn. rewrite Path_eqb_refl.
  split; [reflexivity|]. split; [now rewrite <- app_assoc|].
  split; [cbn; now rewrite Path_eqb_refl|].
  intros q Hq. cbn. destruct (Path_eqb_spec q out); [contradiction|reflexivity].
Qed.

Lemma det_backtrack (n : nat) :
  forall (chosen : Path) (w : World),
  exists (j : nat) (evs : list Event),
    (j <= n)%nat /\
    (forall i, (j <= i < n)%nat -> fits (preset_at i) = true) /\
    match j with O => True | S i => fits (preset_at i) = false end /\
    fst (backtracking n chosen w) = (if (j =? n)%nat then chosen else back_out j) /\
    log (snd (backtracking n chosen w)) = log w ++ evs /\
    last_copy final evs = None /\
    ((j < n)%nat -> producer (back_out j) evs = Some (preset_at j)) /\
    (forall out p, producer out evs = Some p ->
                   exists i, (i < n)%nat /\ out = back_out i) /\
    ((j < n)%nat ->
     files (snd (backtracking n chosen w)) (back_out j) = Some (size_of (preset_at j))) /\
    (forall q, (forall i, (i < n)%nat -> q <> back_out i) ->
               files (snd (backtracking n chosen w)) q = files w q).
Proof.
  induction n as [|idx IH]; intros chosen w.
  - exists 0%nat, []. cbn. rewrite app_nil_r.
    repeat split; auto; try (intros; lia). intros out p H. discriminate.
  - destruct (det_attempt (preset_at idx) (back_out idx) w) as (w1 & w2 & R & G & L & F & Fo).
    cbn [backtrack]. cbv zeta. run R. cbn [negb]. cbv beta iota. run G.
    destruct (Qle_bool (mb_of (preset_at idx)) target_size_mb) eqn:Hfit.
    + destruct (IH (back_out idx) w2)
        as (j & evs & Hj & Hall & Hstop & Hv & Hl & Hc & Hp & Hq & Hf & Hfo).
      exists j, ([Reconstruct (preset_at idx) (back_out idx) true;
                  Measured (back_out idx) (mb_of (preset_at idx))] ++ evs).
      split; [lia|]. split.
      { intros i Hi. destruct (Nat.eq_dec i idx) as [->|]; [exact Hfit|].
        apply Hall. lia. }
      split; [exact Hstop|]. split.
      { rewrite Hv. destruct (Nat.eqb_spec j idx), (Nat.eqb_spec j (S idx));
          subst; try lia; reflexivity. }
      split; [rewrite Hl, L, <- app_assoc; reflexivity|].
      split; [rewrite last_copy_app, Hc; reflexivity|].
      split.
      { intros _. rewrite producer_app.
        destruct (Nat.eq_dec j idx) as [->|Hne].
        - destruct (producer (back_out idx) evs) as [p|] eqn:P.
          + destruct (Hq _ _ P) as (i & Hi & E).
            apply back_output_inj in E. lia.
          + cbn. now rewrite Path_eqb_refl.
        - rewrite Hp by lia. reflexivity. }
      split.
      { intros out p. rewrite producer_app.
        destruct (producer out evs) as [p'|] eqn:P.
        - intros _. destruct (Hq _ _ P) as (i & Hi & E). exists i. split; [lia|exact E].
        - cbn. destruct (Path_eqb_spec (back_out idx) out) as [<-|]; [|discriminate].
          intros _. exists idx. split; [lia|reflexivity]. }
      split.
      { intros _. destruct (Nat.eq_dec j idx) as [->|Hne].
        - rewrite Hfo; [exact F|].
          intros i Hi E. apply back_output_inj in E. lia.
        - apply Hf. lia. }
      intros q Hq'. rewrite Hfo.
      * apply Fo. apply Hq'. lia.
      * intros i Hi. apply Hq'. lia.
    + exists (S idx), [Reconstruct (preset_at idx) (back_out idx) true;
                       Measured (back_out idx) (mb_of (preset_at idx))].
      cbn [ret fst snd]. rewrite Nat.eqb_refl.
      split; [lia|]. split; [intros; lia|]. split; [exact Hfit|].
      split; [reflexivity|]. split; [exact L|]. split; [reflexivity|].
      split; [intros; lia|]. split.
      { intros out p. cbn.
        destruct (Path_eqb_spec (back_out idx) out) as [<-|]; [|discriminate].
        intros _. exists idx. split; [lia|reflexivity]. }
      split; [intros; lia|].
      intros q Hq'. apply Fo. apply Hq'. lia.
Qed.

Lemma det_sequential (remaining : list Params) :
  forall (i : nat) (w : World),
    let r := sequential_attempts pdf output_dir target_size_mb temp_dir
                                 image_files hocr_file i remaining w in
    exists evs,
      log (snd r) = log w ++ evs /\
      match find fits remaining with
      | Some p =>
          fst r = (true, Some final) /\
          winning_preset final evs = Some p /\
          files (snd r) final = Some (size_of p)
      | None => fst r = (false, None) /\ last_copy final evs = None
      end.
Proof.
  induction remaining as [|p later IH]; intros i w r; subst r.
  - exists []. cbn. rewrite app_nil_r. auto.
  - destruct (det_attempt p (seq_output pdf temp_dir i) w)
      as (w1 & w2 & R & G & L & F & Fo).
    cbn [sequential_attempts find]. cbv zeta. run R. cbn [negb]. cbv beta iota. run G.
    destruct (Qle_bool (mb_of p) target_size_mb) eqn:Hfit.
    + pose proof (copy_file_present F (seq_output_not_final pdf temp_dir output_dir i))
        as (_ & Cf & Cl).
      unfold bind, ret.
      destruct (copy_file (seq_output pdf temp_dir i) final w2) as [c w3]. cbn [fst snd] in *.
      eexists. split; [rewrite Cl, L, <- app_assoc; reflexivity|].
      split; [reflexivity|]. split; [|exact Cf].
      apply (winning_preset_last final []).
    + destruct (IH (S i) w2) as (evs & Hl & Hr).
      exists ([Reconstruct p (seq_output pdf temp_dir i) true;
               Measured (seq_output pdf temp_dir i) (mb_of p)] ++ evs).
      split; [rewrite Hl, L, <- app_assoc; reflexivity|].
      destruct (find fits later) as [p'|].
      * destruct Hr as (Hv & Hw & Hf). split; [exact Hv|]. split; [|exact Hf].
        unfold winning_preset in *. rewrite last_copy_app.
        destruct (last_copy final evs) as [src|]; [|discriminate].
        now rewrite producer_app, Hw.
      * destruct Hr as (Hv & Hc). split; [exact Hv|].
        rewrite last_copy_app, Hc. reflexivity.
Qed.

Abbreviation presets := (sequence first_params rest).

Lemma fits_monotone :
  (forall i j, (i <= j < List.length presets)%nat ->
               (size_of (preset_at j) <= size_of (preset_at i))%N) ->
  forall i j, (i <= j < List.length presets)%nat ->
              fits (preset_at i) = true -> fits (preset_at j) = true.
Proof.
  intros Hm i j Hij Hi. apply Qle_bool_iff in Hi. apply Qle_bool_iff.
  apply Qle_trans with (2 := Hi). unfold Qle. cbn [Qnum Qden].
  specialize (Hm i j Hij). apply Z.mul_le_mono_nonneg_r; lia.
Qed.

Lemma naive_from_stop (j : nat) :
  (forall i k, (i <= k < List.length presets)%nat ->
               fits (preset_at i) = true -> fits (preset_at k) = true) ->
  (j < List.length presets)%nat ->
  fits (preset_at j) = true ->
  match j with O => True | S i => fits (preset_at i) = false end ->
  naive_search size_of target_size_mb presets = Some (preset_at j).
Proof.
  intros Hm Hj Hfit Hstop. unfold naive_search.
  apply find_first; [exact Hj|exact Hfit|].
  intros i Hi. destruct j as [|i']; [lia|].
  destruct (Qle_bool (mb_of (preset_at i)) target_size_mb) eqn:E; [|reflexivity].
  rewrite (Hm i i') in Hstop; [discriminate|lia|exact E].
Qed.

(** C3. With a rebuild that always succeeds and whose size depends on
    the preset alone, non-increasing along the sequence, the search picks
    the preset that the naive scan picks (the first, in order, whose size
    is at most the target) and copies its result to the output; it fails
    exactly when the naive scan finds none, that is when every preset is
    above the target. *)
Theorem search_agrees_with_naive_scan (w : World) :
  (forall i j, (i <= j < List.length presets)%nat ->
               (size_of (preset_at j) <= size_of (preset_at i))%N) ->
  exists evs : list Event,
    log (snd (search w)) = log w ++ evs /\
    winning_preset final evs = naive_search size_of target_size_mb presets /\
    match naive_search size_of target_size_mb presets with
    | Some p =>
        fst (search w) = (true, Some final) /\
        files (snd (search w)) final = Some (size_of p)
    | None =>
        fst (search w) = (false, None) /\
        forall p, In p presets -> (target_size_mb < mb_of p)%Q
    end.
Proof.
  intro Hmono. pose proof (fits_monotone Hmono) as Hm.
  assert (Hlen : (last_index < List.length presets)%nat) by (cbn; lia).
  destruct (det_attempt first_params first_out w) as (w1 & w2 & R & G & L & F & Fo).
  destruct (Qle_bool (mb_of first_params) target_size_mb) eqn:Hfit.
  - (* the first preset fits *)
    assert (N : naive_search size_of target_size_mb presets = Some first_params).
    { unfold naive_search. cbn [sequence find]. now rewrite Hfit. }
    rewrite N.
    pose proof (copy_file_present F (first_output_not_final pdf temp_dir output_dir))
      as (_ & Cf & Cl).
    assert (E : search w = ((true, Some final), snd (copy_file first_out final w2))).
    { unfold try_presets. run R. run G. rewrite Hfit. unfold bind, ret.
      now destruct (copy_file first_out final w2). }
    rewrite E. cbn [fst snd]. eexists.
    split; [rewrite Cl, L, <- app_assoc; reflexivity|].
    split; [apply (winning_preset_last final [])|].
    split; [reflexivity|exact Cf].
  - destruct (Qlt_bool (target_size_mb * threshold_factor) (mb_of first_params)) eqn:Hfar.
    + (* far from the target: the last preset, then backtracking *)
      apply Qlt_bool_iff in Hfar.
      rewrite (far_goes_to_last R G Hfar).
      destruct (det_attempt last_params last_out w2)
        as (w3 & w4 & R3 & G4 & L4 & F4 & Fo4).
      run R3. cbn [negb]. cbv beta iota. run G4.
      unfold Qlt_bool.
      destruct (Qle_bool (mb_of last_params) target_size_mb) eqn:HfitL; cbn [negb].
      * destruct (det_backtrack last_index last_out w4)
          as (j & evs & Hj & Hall & Hstop & Hv & Hl & Hc & Hp & Hq & Hf & Hfo).
        set (b := backtracking last_index last_out w4) in *.
        assert (Hfitj : fits (preset_at j) = true).
        { destruct (Nat.eq_dec j last_index) as [->|]; [exact HfitL|].
          apply Hall. lia. }
        assert (N : naive_search size_of target_size_mb presets = Some (preset_at j)).
        { apply naive_from_stop; [exact Hm|lia|exact Hfitj|exact Hstop]. }
        assert (Hsrc : files (snd b) (fst b) = Some (size_of (preset_at j)) /\
                       producer (fst b)
                         ([Reconstruct first_params first_out true;
                           Measured first_out (mb_of first_params);
                           Reconstruct last_params last_out true;
                           Measured last_out (mb_of last_params)] ++ evs)
                       = Some (preset_at j) /\
                       Path_eqb (fst b) final = false).
        { rewrite Hv. destruct (Nat.eqb_spec j last_index) as [->|Hne].
          - split; [|split; [|apply last_output_not_final]].
            + rewrite Hfo; [exact F4|].
              intros i _ E. symmetry in E. exact (back_output_not_last _ _ _ E).
            + rewrite producer_app.
              destruct (producer last_out evs) as [p|] eqn:P.
              * destruct (Hq _ _ P) as (i & _ & E).
                symmetry in E. destruct (back_output_not_last _ _ _ E).
              * cbn [producer]. now rewrite Path_eqb_refl.
          - split; [|split; [|apply back_output_not_final]].
            + apply Hf. lia.
            + rewrite producer_app, Hp by lia. reflexivity. }
        destruct Hsrc as (Hfile & Hprod & Hne).
        pose proof (copy_file_present Hfile Hne) as (_ & Cf & Cl).
        rewrite N. unfold bind, ret.
        destruct b as [chosen w5]. cbn [fst snd] in *.
        destruct (copy_file chosen final w5) as [c w6]. cbn [fst snd] in *.
        exists ([Reconstruct first_params first_out true;
                 Measured first_out (mb_of first_params);
                 Reconstruct last_params last_out true;
                 Measured last_out (mb_of last_params)] ++ evs
                ++ [Copied chosen final true]).
        split; [rewrite Cl, Hl, L4, L, <- !app_assoc; reflexivity|].
        split; [|split; [reflexivity|exact Cf]].
        unfold winning_preset. rewrite app_assoc, last_copy_app.
        cbn [last_copy]. rewrite Path_eqb_refl.
        rewrite producer_app. cbn [producer]. exact Hprod.
      * (* even the last preset is above the target *)
        assert (Hnone : forall i, (i < List.length presets)%nat ->
                                  fits (preset_at i) = false).
        { intros i Hi.
          destruct (Qle_bool (mb_of (preset_at i)) target_size_mb) eqn:E; [|reflexivity].
          rewrite (Hm i last_index) in HfitL; [discriminate|lia|exact E]. }
        assert (N : naive_search size_of target_size_mb presets = None).
        { unfold naive_search. apply find_nowhere with (d := first_params). exact Hnone. }
        rewrite N. cbn [ret fst snd]. eexists.
        split; [rewrite L4, L, <- app_assoc; reflexivity|].
        split; [reflexivity|]. split; [reflexivity|].
        intros p Hp. destruct (In_nth _ _ first_params Hp) as (i & Hi & <-).
        specialize (Hnone i Hi). cbv beta in Hnone.
        destruct (Qlt_le_dec target_size_mb (mb_of (preset_at i))) as [|Hle];
          [assumption|].
        apply Qle_bool_iff in Hle. congruence.
    + (* close to the target: the presets that follow, in order *)
      assert (E : search w
                  = sequential_attempts pdf output_dir target_size_mb temp_dir
                                        image_files hocr_file 1 rest w2).
      { unfold try_presets. run R. run G. now rewrite Hfit, Hfar. }
      rewrite E.
      destruct (det_sequential rest 1 w2) as (evs & Hl & Hr).
      assert (N : naive_search size_of target_size_mb presets = find fits rest).
      { unfold naive_search. cbn [sequence find]. now rewrite Hfit. }
      rewrite N.
      exists ([Reconstruct first_params first_out true;
               Measured first_out (mb_of first_params)] ++ evs).
      split; [rewrite Hl, L, <- app_assoc; reflexivity|].
      destruct (find fits rest) as [p|] eqn:Ffind.
      * destruct Hr as (Hv & Hw & Hf).
        split; [|split; assumption].
        unfold winning_preset in *. rewrite last_copy_app.
        destruct (last_copy final evs) as [src|]; [|discriminate].
        now rewrite producer_app, Hw.
      * destruct Hr as (Hv & Hc).
        split; [unfold winning_preset; rewrite last_copy_app, Hc; reflexivity|].
        split; [exact Hv|].
        intros p [<-|Hp].
        -- destruct (Qlt_le_dec target_size_mb (mb_of first_params)) as [|Hle];
             [assumption|].
           apply Qle_bool_iff in Hle. congruence.
        -- pose proof (find_none _ _ Ffind p Hp) as Hn. cbv beta in Hn.
           destruct (Qlt_le_dec target_size_mb (mb_of p)) as [|Hle]; [assumption|].
           apply Qle_bool_iff in Hle. congruence.
Qed.

End Deterministic.

End OneSearch.

End SearchProperties.

(** ** The split protocol *)

Section SplitProperties.

Context {T : Type} {tools : Pipeline T}.

Abbreviation World := (@World T).

(* The relations between worlds, for the tools at hand. *)
Local Abbreviation same_named := (@same_named T).
Local Abbreviation named_shrunk := (@named_shrunk T).
Local Abbreviation preserves R m := (@preserves T R _ m).
Local Abbreviation keeps_named m := (@keeps_named T _ m).
Local Abbreviation log_extends := (@log_extends T).
Local Abbreviation log_grows m := (@log_grows T _ m).
Local Abbreviation search_frame := (@search_frame T).
Local Abbreviation parts_invariant := (@parts_invariant T).

Lemma same_named_refl (w : World) : same_named w w.
Proof. intros q _. reflexivity. Qed.

Lemma same_named_trans (a b c : World) :
  same_named a b -> same_named b c -> same_named a c.
Proof. intros H1 H2 q Hq. now rewrite (H2 q Hq), (H1 q Hq). Qed.

Lemma same_named_shrunk (a b : World) : same_named a b -> named_shrunk a b.
Proof. intros H q Hq. right. exact (H q Hq). Qed.

Lemma named_shrunk_trans (a b c : World) :
  named_shrunk a b -> named_shrunk b c -> named_shrunk a c.
Proof.
  intros H1 H2 q Hq. destruct (H2 q Hq) as [E|E]; [now left|].
  rewrite E. exact (H1 q Hq).
Qed.

Section Preserved.

(** Computations that keep the world within a preorder [R]. *)
Variable R : World -> World -> Prop.
Hypothesis R_refl : forall w, R w w.
Hypothesis R_trans : forall a b c, R a b -> R b c -> R a c.

Lemma preserves_ret {A} (a : A) : preserves R (ret a).
Proof. intro w. apply R_refl. Qed.

Lemma preserves_bind_post {A B} (P : A -> Prop) (m : M A) (k : A -> M B) :
  (forall w, P (fst (m w))) ->
  preserves R m -> (forall a, P a -> preserves R (k a)) -> preserves R (bind m k).
Proof.
  intros HP Hm Hk w. unfold bind.
  specialize (HP w). specialize (Hm w).
  destruct (m w) as [a w1]. cbn [fst snd] in *.
  apply R_trans with (1 := Hm). now apply Hk.
Qed.

Lemma preserves_bind {A B} (m : M A) (k : A -> M B) :
  preserves R m -> (forall a, preserves R (k a)) -> preserves R (bind m k).
Proof.
  intros Hm Hk. apply preserves_bind_post with (P := fun _ => True); auto.
Qed.

End Preserved.

Lemma keeps_ret {A} (a : A) : keeps_named (ret a).
Proof. apply preserves_ret, same_named_refl. Qed.

Lemma keeps_bind_post {A B} (P : A -> Prop) (m : M A) (k : A -> M B) :
  (forall w, P (fst (m w))) ->
  keeps_named m -> (forall a, P a -> keeps_named (k a)) -> keeps_named (bind m k).
Proof. apply preserves_bind_post, same_named_trans. Qed.

Lemma keeps_bind {A B} (m : M A) (k : A -> M B) :
  keeps_named m -> (forall a, keeps_named (k a)) -> keeps_named (bind m k).
Proof. apply preserves_bind, same_named_trans. Qed.

Lemma keeps_emit e : keeps_named (emit e).
Proof. intros w q _. reflexivity. Qed.

Lemma keeps_set_tool t : keeps_named (set_tool t).
Proof. intros w q _. reflexivity. Qed.

Lemma keeps_write_temp i name n : keeps_named (write_file (Temp i, name) n).
Proof.
  intros w q Hq. cbn. destruct (Path_eqb_spec q (Temp i, name)) as [->|]; [discriminate|reflexivity].
Qed.

Lemma keeps_write_opt_temp i name o : keeps_named (write_opt (Temp i, name) o).
Proof. destruct o; [apply keeps_write_temp|apply keeps_ret]. Qed.

Lemma keeps_write_all_temp i fs : keeps_named (write_all (Temp i) fs).
Proof.
  induction fs as [|[name n] fs IH]; [apply keeps_ret|].
  cbn [write_all]. apply keeps_bind; [apply keeps_write_temp|intros _; exact IH].
Qed.

Lemma keeps_get_file_size_mb p : keeps_named (get_file_size_mb p).
Proof. intros w q _. reflexivity. Qed.

Lemma keeps_create_temp_directory : keeps_named create_temp_directory.
Proof. intros w q _. reflexivity. Qed.

Lemma keeps_release_temp keep i : keeps_named (release_temp keep (Temp i)).
Proof.
  intros w q Hq. destruct keep; cbn; [reflexivity|].
  destruct q as [[x|j] name]; [reflexivity|discriminate].
Qed.

Lemma keeps_deconstruct pdf i at_dpi :
  keeps_named (deconstruct_pdf_to_images pdf (Temp i) at_dpi).
Proof.
  intros w. unfold deconstruct_pdf_to_images.
  destruct (pdftoppm (tool w) (pdf_path pdf) at_dpi) as [[ok pages] t].
  apply (keeps_bind (set_tool t)); [apply keeps_set_tool|intros _].
  apply keeps_bind; [apply keeps_write_all_temp|intros _].
  apply keeps_bind; [apply keeps_emit|intros _].
  destruct ok; [destruct pages|]; apply keeps_ret.
Qed.

Lemma keeps_analyze images i : keeps_named (analyze_images_to_hocr images (Temp i)).
Proof.
  intros w. unfold analyze_images_to_hocr.
  destruct (tesseract (tool w) images) as [merged t].
  apply (keeps_bind (set_tool t)); [apply keeps_set_tool|intros _].
  destruct merged.
  - apply keeps_bind; [apply keeps_write_temp|intros _].
    apply keeps_bind; [apply keeps_emit|intros _; apply keeps_ret].
  - apply keeps_bind; [apply keeps_emit|intros _; apply keeps_ret].
Qed.

Lemma keeps_reconstruct images hocr d p i name :
  keeps_named (reconstruct_pdf images hocr d p (Temp i, name)).
Proof.
  intros w. unfold reconstruct_pdf.
  destruct (recode_pdf (tool w) images hocr p (Temp i, name)) as [[ok written] t].
  apply (keeps_bind (set_tool t)); [apply keeps_set_tool|intros _].
  apply keeps_bind; [apply keeps_write_opt_temp|intros _].
  apply keeps_bind; [apply keeps_emit|intros _; apply keeps_ret].
Qed.

Lemma keeps_split_pdf pdf i name a b :
  keeps_named (split_pdf pdf (Temp i, name) a b).
Proof.
  intros w. unfold split_pdf.
  destruct (qpdf (tool w) (pdf_path pdf) a b (Temp i, name)) as [[ok written] t].
  apply (keeps_bind (set_tool t)); [apply keeps_set_tool|intros _].
  apply keeps_bind; [apply keeps_write_opt_temp|intros _].
  apply keeps_bind; [apply keeps_emit|intros _; apply keeps_ret].
Qed.

Lemma copy_file_frame src dst (w : World) :
  forall q, q <> dst -> files (snd (copy_file src dst w)) q = files w q.
Proof.
  intros q Hq. unfold copy_file.
  destruct (files w src); [destruct (Path_eqb src dst)|]; cbn; try reflexivity.
  destruct (Path_eqb_spec q dst); [contradiction|reflexivity].
Qed.

Lemma unlink_if_exists_gone p (w : World) :
  files (snd (unlink_if_exists p w)) p = None /\
  forall q, q <> p -> files (snd (unlink_if_exists p w)) q = files w q.
Proof.
  unfold unlink_if_exists, bind, exists_file.
  destruct (files w p) eqn:E; cbn.
  - rewrite Path_eqb_refl. split; [reflexivity|].
    intros q Hq. destruct (Path_eqb_spec q p); [contradiction|reflexivity].
  - split; [exact E|reflexivity].
Qed.

Lemma unlink_all_gone (ps : list Path) :
  forall w : World,
    (forall q, In q ps -> files (snd (unlink_all ps w)) q = None) /\
    (forall q, files (snd (unlink_all ps w)) q = None \/
               files (snd (unlink_all ps w)) q = files w q).
Proof.
  induction ps as [|p ps IH]; intro w.
  - cbn. split; [contradiction|auto].
  - cbn [unlink_all]. unfold bind.
    destruct (unlink_if_exists_gone p w) as [Hp Ho].
    destruct (unlink_if_exists p w) as [[] w1]. cbn [snd] in *.
    destruct (IH w1) as [Hin Hall]. split.
    + intros q [<-|Hq]; [|now apply Hin].
      destruct (Hall p) as [E|E]; [exact E|]. now rewrite E.
    + intro q. destruct (Hall q) as [E|E]; [now left|].
      destruct (Path_eqb_spec q p) as [->|Hne].
      * left. now rewrite E.
      * right. rewrite E. now apply Ho.
Qed.

(** *** The log only grows *)

Lemma log_extends_refl (w : World) : log_extends w w.
Proof. exists []. now rewrite app_nil_r. Qed.

Lemma log_extends_trans (a b c : World) :
  log_extends a b -> log_extends b c -> log_extends a c.
Proof. intros [x Hx] [y Hy]. exists (x ++ y). now rewrite Hy, Hx, app_assoc. Qed.

Lemma log_extends_same (w w' : World) : log w' = log w -> log_extends w w'.
Proof. intro H. exists []. now rewrite app_nil_r. Qed.

Lemma log_extends_by (w w' : World) e : log w' = log w ++ [e] -> log_extends w w'.
Proof. intro H. now exists [e]. Qed.

Lemma grows_ret {A} (a : A) : log_grows (ret a).
Proof. apply preserves_ret, log_extends_refl. Qed.

Lemma grows_bind {A B} (m : M A) (k : A -> M B) :
  log_grows m -> (forall a, log_grows (k a)) -> log_grows (bind m k).
Proof. apply preserves_bind, log_extends_trans. Qed.

Lemma grows_emit e : log_grows (emit e).
Proof. intro w. now apply log_extends_by with e. Qed.

Lemma grows_set_tool t : log_grows (set_tool t).
Proof. intro w. now apply log_extends_same. Qed.

Lemma grows_write_file p n : log_grows (write_file p n).
Proof. intro w. now apply log_extends_same. Qed.

Lemma grows_write_opt p o : log_grows (write_opt p o).
Proof. destruct o; [apply grows_write_file|apply grows_ret]. Qed.

Lemma grows_remove_file p : log_grows (remove_file p).
Proof. intro w. now apply log_extends_same. Qed.

Lemma grows_exists_file p : log_grows (exists_file p).
Proof. intro w. now apply log_extends_same. Qed.

Lemma grows_stat_size_mb p : log_grows (stat_size_mb p).
Proof. intro w. now apply log_extends_same. Qed.

Lemma grows_create_temp_directory : log_grows create_temp_directory.
Proof. intro w. now apply log_extends_same. Qed.

Lemma grows_cleanup_directory d : log_grows (cleanup_directory d).
Proof. intro w. now apply log_extends_by with (TempCleaned d). Qed.

Lemma grows_get_pdf_page_count pdf : log_grows (get_pdf_page_count pdf).
Proof. intro w. now apply log_extends_same. Qed.

Create HintDb grows discriminated.

#[local] Hint Resolve grows_ret grows_emit grows_set_tool grows_write_file
  grows_write_opt grows_remove_file grows_exists_file grows_stat_size_mb
  grows_create_temp_directory grows_cleanup_directory grows_get_pdf_page_count
  : grows.

(** [grow]: split a computation along its binds and branches and close
    the pieces with the lemmas of the [grows] database. *)
Ltac grow :=
  repeat first
    [ solve [auto with grows]
    | apply grows_bind; [|intro]
    | match goal with
      | |- log_grows (match ?x with _ => _ end) => destruct x
      end ].

Lemma grows_write_all d fs : log_grows (write_all d fs).
Proof.
  induction fs as [|[name n] fs IH]; cbn [write_all]; grow.
Qed.

Lemma grows_get_file_size_mb p : log_grows (get_file_size_mb p).
Proof. unfold get_file_size_mb. grow. Qed.

Lemma grows_release_temp keep d : log_grows (release_temp keep d).
Proof. unfold release_temp. grow. Qed.

Lemma grows_copy_file src dst : log_grows (copy_file src dst).
Proof. intro w. apply log_extends_by with (1 := copy_file_log src dst w). Qed.

Lemma grows_unlink_if_exists p : log_grows (unlink_if_exists p).
Proof. unfold unlink_if_exists. grow. Qed.

#[local] Hint Resolve grows_write_all grows_get_file_size_mb grows_release_temp
  grows_copy_file grows_unlink_if_exists : grows.

Lemma grows_unlink_all ps : log_grows (unlink_all ps).
Proof. induction ps as [|p ps IH]; cbn [unlink_all]; grow. Qed.

Lemma grows_deconstruct pdf d at_dpi : log_grows (deconstruct_pdf_to_images pdf d at_dpi).
Proof.
  intro w. unfold deconstruct_pdf_to_images.
  destruct (pdftoppm (tool w) (pdf_path pdf) at_dpi) as [[ok pages] t].
  revert w. change (log_grows (set_tool t ;;; write_all d pages ;;;
                               emit (Deconstruct (pdf_path pdf) at_dpi ok) ;;;
                               if negb ok then ret None
                               else match pages with
                                    | [] => ret None
                                    | _ :: _ => ret (Some (map (fun f => (d, fst f)) pages))
                                    end)).
  grow.
Qed.

Lemma grows_analyze images d : log_grows (analyze_images_to_hocr images d).
Proof.
  intro w. unfold analyze_images_to_hocr.
  destruct (tesseract (tool w) images) as [merged t].
  revert w. change (log_grows (set_tool t ;;;
                               match merged with
                               | None => emit (Analyze false) ;;; ret None
                               | Some n =>
                                   write_file (d, "combined.hocr"%string) n ;;;
                                   emit (Analyze true) ;;;
                                   ret (Some (d, "combined.hocr"%string))
                               end)).
  grow.
Qed.

Lemma grows_reconstruct images hocr d p out : log_grows (reconstruct_pdf images hocr d p out).
Proof. intro w. apply log_extends_by with (1 := reconstruct_pdf_log images hocr d p out w). Qed.

Lemma grows_split_pdf pdf out a b : log_grows (split_pdf pdf out a b).
Proof.
  intro w. unfold split_pdf.
  destruct (qpdf (tool w) (pdf_path pdf) a b out) as [[ok written] t].
  revert w. change (log_grows (set_tool t ;;; write_opt out written ;;;
                               emit (SplitPages (pdf_path pdf) a b out ok) ;;; ret ok)).
  grow.
Qed.

#[local] Hint Resolve grows_unlink_all grows_deconstruct grows_analyze
  grows_reconstruct grows_split_pdf : grows.

Lemma grows_backtrack first_params rest pdf target temp_dir images hocr n :
  forall chosen,
    log_grows (backtrack first_params rest pdf target temp_dir images hocr n chosen).
Proof. induction n as [|idx IH]; intro chosen; cbn [backtrack]; cbv zeta; grow. Qed.

Lemma grows_sequential pdf output_dir target temp_dir images hocr remaining :
  forall i,
    log_grows (sequential_attempts pdf output_dir target temp_dir images hocr i remaining).
Proof.
  induction remaining as [|p later IH]; intro i;
    cbn [sequential_attempts]; cbv zeta; grow.
Qed.

Lemma grows_aggressive pdf output_dir target temp_dir images hocr remaining :
  forall i,
    log_grows (aggressive_attempts pdf output_dir target temp_dir images hocr i remaining).
Proof.
  induction remaining as [|p later IH]; intro i;
    cbn [aggressive_attempts]; cbv zeta; grow.
Qed.

#[local] Hint Resolve grows_backtrack grows_sequential grows_aggressive : grows.

Lemma grows_try_presets first_params rest pdf output_dir target temp_dir images hocr :
  log_grows (try_presets first_params rest pdf output_dir target temp_dir images hocr).
Proof. unfold try_presets. cbv zeta. grow. Qed.

#[local] Hint Resolve grows_try_presets : grows.

Lemma grows_iterative_body first_params rest pdf output_dir target temp_dir :
  log_grows (iterative_body first_params rest pdf output_dir target temp_dir).
Proof. unfold iterative_body. cbv zeta. grow. Qed.

Lemma grows_run_aggressive pdf output_dir target keep :
  log_grows (run_aggressive_compression pdf output_dir target keep).
Proof. unfold run_aggressive_compression, aggressive_body. cbv zeta. grow. Qed.

#[local] Hint Resolve grows_iterative_body grows_run_aggressive : grows.

Lemma grows_split_parts pdf total pps temp_dir indices :
  forall acc, log_grows (split_parts pdf total pps temp_dir indices acc).
Proof.
  induction indices as [|i later IH]; intro acc; cbn [split_parts]; cbv zeta; grow.
Qed.

Lemma grows_compress_parts pdf output_dir args parts :
  forall i split_files, log_grows (compress_parts pdf output_dir args i parts split_files).
Proof.
  induction parts as [|part later IH]; intros i split_files;
    cbn [compress_parts]; cbv zeta; grow.
Qed.

#[local] Hint Resolve grows_split_parts grows_compress_parts : grows.

Lemma grows_try_split_and_compress pdf output_dir args k total :
  log_grows (try_split_and_compress pdf output_dir args k total).
Proof. unfold try_split_and_compress. cbv zeta. grow. Qed.

#[local] Hint Resolve grows_try_split_and_compress : grows.

Lemma grows_try_counts pdf output_dir args total ks :
  log_grows (try_counts pdf output_dir args total ks).
Proof. induction ks as [|k later IH]; cbn [try_counts]; grow. Qed.

Lemma frame_fail final : search_frame final (ret (false, None)).
Proof. intro w. left. split; [reflexivity|apply same_named_refl]. Qed.

Lemma frame_bind_post {A} (P : A -> Prop) final (m : M A)
    (k : A -> M (bool * option Path)) :
  (forall w, P (fst (m w))) ->
  keeps_named m -> (forall a, P a -> search_frame final (k a)) ->
  search_frame final (bind m k).
Proof.
  intros HP Hm Hk w. unfold bind.
  specialize (HP w). specialize (Hm w).
  destruct (m w) as [a w1]. cbn [fst snd] in *.
  destruct (Hk a HP w1) as [[E S]|[E S]].
  - left. split; [exact E|]. eapply same_named_trans; eassumption.
  - right. split; [exact E|]. intros q Hq Hne. rewrite (S q Hq Hne). now apply Hm.
Qed.

Lemma frame_bind {A} final (m : M A) (k : A -> M (bool * option Path)) :
  keeps_named m -> (forall a, search_frame final (k a)) ->
  search_frame final (bind m k).
Proof.
  intros Hm Hk. apply frame_bind_post with (P := fun _ => True); auto.
Qed.

Lemma frame_copy src final :
  search_frame final (copy_file src final ;;; ret (true, Some final)).
Proof.
  intro w. right. unfold bind, ret.
  pose proof (copy_file_frame src final w) as C.
  destruct (copy_file src final w) as [c w1]. cbn [fst snd] in *.
  split; [reflexivity|]. intros q _ Hne. now apply C.
Qed.

Lemma frame_finally final (m : M (bool * option Path)) (fin : M unit) :
  search_frame final m -> keeps_named fin ->
  search_frame final (r <- m ;; fin ;;; ret r).
Proof.
  intros Hm Hf w. unfold bind, ret.
  specialize (Hm w). destruct (m w) as [r w1]. cbn [fst snd] in *.
  specialize (Hf w1). destruct (fin w1) as [[] w2]. cbn [fst snd] in *.
  destruct Hm as [[E S]|[E S]].
  - left. split; [exact E|]. eapply same_named_trans; eassumption.
  - right. split; [exact E|]. intros q Hq Hne. rewrite (Hf q Hq). now apply S.
Qed.

Section Aggressive.

Variables (pdf : PdfFile) (output_dir : Dir) (target_size_mb : Q).

Lemma aggressive_attempts_frame i images hocr (remaining : list Params) :
  forall n,
    search_frame (final_path pdf output_dir)
      (aggressive_attempts pdf output_dir target_size_mb (Temp i) images hocr n remaining).
Proof.
  induction remaining as [|p later IH]; intros n.
  - apply frame_fail.
  - cbn [aggressive_attempts]. cbv zeta.
    apply frame_bind; [apply keeps_reconstruct|]. intros [|]; cbn [negb]; [|apply IH].
    apply frame_bind; [apply keeps_get_file_size_mb|]. intro s.
    destruct (Qle_bool s target_size_mb); [apply frame_copy|apply IH].
Qed.

Lemma create_temp_directory_is_temp (w : World) :
  exists i, fst (create_temp_directory w) = Temp i.
Proof. eexists. reflexivity. Qed.

Lemma run_aggressive_compression_frame keep :
  search_frame (final_path pdf output_dir)
    (run_aggressive_compression pdf output_dir target_size_mb keep).
Proof.
  unfold run_aggressive_compression.
  apply frame_bind_post with (P := fun d => exists i, d = Temp i);
    [apply create_temp_directory_is_temp|apply keeps_create_temp_directory|].
  intros d [i ->].
  apply frame_finally; [|apply keeps_release_temp].
  unfold aggressive_body. cbv zeta.
  apply frame_bind; [apply keeps_deconstruct|]. intros [images|]; [|apply frame_fail].
  apply frame_bind; [apply keeps_analyze|]. intros [hocr|]; [|apply frame_fail].
  apply aggressive_attempts_frame.
Qed.

End Aggressive.

Section OneDocument.

Variables (pdf : PdfFile) (output_dir : Dir) (args : Args).

Lemma split_parts_keeps total_pages pages_per_split i (indices : list nat) :
  forall acc,
    keeps_named (split_parts pdf total_pages pages_per_split (Temp i) indices acc).
Proof.
  induction indices as [|n later IH]; intro acc; [apply keeps_ret|].
  cbn [split_parts]. cbv zeta.
  destruct (total_pages <? start_page_of pages_per_split n)%Z; [apply keeps_ret|].
  apply keeps_bind; [apply keeps_split_pdf|].
  intros [|]; cbn [negb]; [apply IH|apply keeps_ret].
Qed.

Lemma unlink_all_restores {w0 w w' : World} {split_files : list Path} :
  parts_invariant w0 split_files w ->
  same_named w w' ->
  named_shrunk w0 (snd (unlink_all split_files w')).
Proof.
  intros Inv K q Hq.
  destruct (unlink_all_gone split_files w') as [Hin Hall].
  destruct (Inv q Hq) as [I|[E|E]].
  - left. now apply Hin.
  - destruct (Hall q) as [E'|E']; [now left|].
    left. now rewrite E', (K q Hq).
  - destruct (Hall q) as [E'|E']; [now left|].
    right. now rewrite E', (K q Hq).
Qed.

Lemma compress_parts_fail (w0 : World) (parts : list PdfFile) :
  forall i split_files (w w' : World),
    parts_invariant w0 split_files w ->
    compress_parts pdf output_dir args i parts split_files w = (false, w') ->
    named_shrunk w0 w'.
Proof.
  induction parts as [|part later IH]; intros i split_files w w' Inv E.
  - discriminate.
  - cbn [compress_parts] in E. cbv zeta in E. unfold bind at 1 in E.
    pose proof (run_aggressive_compression_frame part output_dir (target_size args)
                  (args_keep_temp_on_failure args) w) as F.
    destruct (run_aggressive_compression part output_dir (target_size args)
                (args_keep_temp_on_failure args) w) as [[success compressed] w1].
    cbn [fst snd] in F. cbv beta iota in E.
    destruct F as [[Er K]|[Er K]]; injection Er as -> ->.
    + (* the part could not be compressed *)
      unfold bind, ret in E.
      pose proof (unlink_all_restores Inv K) as U.
      destruct (unlink_all split_files w1) as [[] w2].
      injection E as <-. exact U.
    + (* the part was compressed: rename it and go on *)
      set (cmp := final_path part output_dir) in *.
      set (fin := final_part_path_of pdf output_dir i) in *.
      unfold bind at 1 in E.
      assert (Step : forall w2,
                 files w2 cmp = None \/ cmp = fin ->
                 (forall q, q <> cmp -> q <> fin -> files w2 q = files w1 q) ->
                 parts_invariant w0 (split_files ++ [fin]) w2).
      { intros w2 Hc Ho q Hq.
        destruct (Path_eqb_spec q fin) as [->|Hf];
          [left; apply in_or_app; right; now left|].
        destruct (Path_eqb_spec q cmp) as [->|Hcmp].
        - destruct Hc as [Hc| ->]; [right; now left|contradiction].
        - rewrite (Ho q Hcmp Hf), (K q Hq Hcmp).
          destruct (Inv q Hq) as [I|R]; [left; apply in_or_app; now left|now right]. }
      destruct (Path_eqb_spec cmp fin) as [Eq|Ne]; cbn [negb] in E.
      * cbn [ret] in E. apply (IH _ _ _ _ (Step w1 (or_intror Eq) (fun _ _ _ => eq_refl)) E).
      * unfold bind at 1 in E.
        pose proof (copy_file_frame cmp fin w1) as C.
        destruct (copy_file cmp fin w1) as [c w2]. cbn [snd] in C.
        destruct (unlink_if_exists_gone cmp w2) as [G O].
        destruct (unlink_if_exists cmp w2) as [[] w3]. cbn [snd] in *.
        apply (IH _ _ _ _ (Step w3 (or_introl G)
                 (fun q Hc Hf => eq_trans (O q Hc) (C q Hf))) E).
Qed.

Lemma try_split_and_compress_fail k total_pages (w w' : World) :
  try_split_and_compress pdf output_dir args k total_pages w = (Return false, w') ->
  named_shrunk w w'.
Proof.
  unfold try_split_and_compress.
  destruct (k =? 0)%Z; [discriminate|]. cbv zeta.
  unfold bind at 1. cbn [create_temp_directory].
  set (i := next_temp w). set (w0 := mkWorld _ _ _ _ _).
  assert (K0 : same_named w w0) by (intros q _; reflexivity).
  unfold bind at 1. unfold bind at 1.
  pose proof (split_parts_keeps total_pages (pages_per_split_of total_pages k) i
                (seq 0 (Z.to_nat k)) [] w0) as K1.
  destruct (split_parts _ _ _ _ _ _ w0) as [parts w1]. cbn [snd] in K1.
  assert (K : same_named w w1) by (exact (same_named_trans _ _ _ K0 K1)).
  destruct parts as [temp_split_files|].
  - destruct (compress_parts pdf output_dir args 0 temp_split_files [] w1)
      as [b w2] eqn:E.
    unfold bind, ret.
    pose proof (keeps_release_temp (args_keep_temp_on_failure args) i w2) as K3.
    destruct (release_temp _ _ w2) as [[] w3]. cbn [fst snd] in *.
    intro Hb. injection Hb as -> <-.
    apply named_shrunk_trans with (b := w2); [|now apply same_named_shrunk].
    apply named_shrunk_trans with (b := w1); [now apply same_named_shrunk|].
    apply (compress_parts_fail w1 temp_split_files 0 [] w1 w2); [|exact E].
    intros q _. right. now right.
  - unfold bind, ret.
    pose proof (keeps_release_temp (args_keep_temp_on_failure args) i w1) as K3.
    destruct (release_temp _ _ w1) as [[] w3]. cbn [fst snd] in *.
    intro Hb. injection Hb as <-.
    apply same_named_shrunk. eapply same_named_trans; eassumption.
Qed.

Lemma try_counts_fail total_pages (ks : list Z) :
  forall w w' : World,
    try_counts pdf output_dir args total_pages ks w = (Return false, w') ->
    named_shrunk w w'.
Proof.
  induction ks as [|k later IH]; intros w w'.
  - intro H. injection H as <-. apply same_named_shrunk, same_named_refl.
  - cbn [try_counts]. unfold bind at 1. cbn [emit].
    set (w0 := mkWorld _ _ _ _ _).
    unfold bind at 1.
    pose proof (try_split_and_compress_fail k total_pages w0) as F.
    destruct (try_split_and_compress pdf output_dir args k total_pages w0) as [r w1].
    destruct r as [[|]|e]; cbn [ret]; try discriminate.
    intro H. apply named_shrunk_trans with (b := w1); [|now apply IH].
    apply named_shrunk_trans with (b := w0); [|now apply F].
    apply same_named_shrunk. intros q _. reflexivity.
Qed.

Lemma run_splitting_protocol_fail (w w' : World) :
  run_splitting_protocol pdf output_dir args w = (Return false, w') ->
  named_shrunk w w'.
Proof.
  unfold run_splitting_protocol. unfold bind at 1. cbn [emit].
  set (w0 := mkWorld _ _ _ _ _).
  unfold bind at 1. unfold get_pdf_page_count at 1.
  destruct (pdfinfo (tool w0) (pdf_path pdf) =? 0)%Z.
  - intro H. injection H as <-. apply same_named_shrunk. intros q _. reflexivity.
  - unfold bind at 1. rewrite get_file_size_mb_eq.
    set (w1 := mkWorld _ _ _ _ _).
    intro H. apply named_shrunk_trans with (b := w1); [|exact (try_counts_fail _ _ _ _ H)].
    apply same_named_shrunk. intros q _. reflexivity.
Qed.

Lemma split_pdf_log out a b (w : World) :
  log (snd (split_pdf pdf out a b w))
  = log w ++ [SplitPages (pdf_path pdf) a b out (fst (split_pdf pdf out a b w))].
Proof.
  unfold split_pdf. destruct (qpdf (tool w) (pdf_path pdf) a b out) as [[ok written] t].
  destruct written; reflexivity.
Qed.

Lemma logged_ranges_app (l m : list Event) :
  logged_ranges (l ++ m) = logged_ranges l ++ logged_ranges m.
Proof. apply flat_map_app. Qed.

(** Phase 1 hands to qpdf the ranges of [ranges_from], in order. *)
Lemma split_parts_ranges total_pages pages_per_split temp_dir (indices : list nat) :
  forall acc (w w' : World) parts,
    split_parts pdf total_pages pages_per_split temp_dir indices acc w = (Some parts, w') ->
    logged_ranges (log w')
    = logged_ranges (log w) ++ ranges_from pages_per_split total_pages indices.
Proof.
  induction indices as [|i later IH]; intros acc w w' parts.
  - intro H. injection H as _ <-. cbn. now rewrite app_nil_r.
  - cbn [split_parts ranges_from]. cbv zeta.
    destruct (total_pages <? start_page_of pages_per_split i)%Z.
    + intro H. injection H as _ <-. now rewrite app_nil_r.
    + unfold bind at 1.
      pose proof (split_pdf_log (pdf_path (temp_part pdf temp_dir i))
                    (start_page_of pages_per_split i)
                    (end_page_of pages_per_split total_pages i) w) as L.
      destruct (split_pdf _ _ _ _ w) as [ok w1]. cbn [fst snd] in L.
      destruct ok; cbn [negb]; [|discriminate].
      intro H. rewrite (IH _ _ _ _ H), L, logged_ranges_app, <- app_assoc.
      reflexivity.
Qed.

Lemma range_in (a b k : Z) : In k (range a b) <-> (a <= k < b)%Z.
Proof.
  unfold range. rewrite in_map_iff. split.
  - intros (i & <- & Hi). apply in_seq in Hi. lia.
  - intro H. exists (Z.to_nat (k - a)). split; [lia|]. apply in_seq. lia.
Qed.

Lemma try_split_and_compress_returns k total_pages (w : World) :
  k <> 0%Z ->
  exists b, fst (try_split_and_compress pdf output_dir args k total_pages w) = Return b.
Proof.
  intro Hk. unfold try_split_and_compress.
  destruct (Z.eqb_spec k 0); [contradiction|]. cbv zeta.
  unfold bind, ret.
  destruct (create_temp_directory w) as [d w0].
  destruct (split_parts _ _ _ _ _ _ w0) as [[parts|] w1].
  - destruct (compress_parts _ _ _ _ _ _ w1) as [b w2].
    destruct (release_temp _ _ w2). now exists b.
  - destruct (release_temp _ _ w1). now exists false.
Qed.

Lemma try_counts_returns total_pages (ks : list Z) :
  (forall k, In k ks -> k <> 0%Z) ->
  forall w : World,
    exists b, fst (try_counts pdf output_dir args total_pages ks w) = Return b.
Proof.
  induction ks as [|k later IH]; intros Hks w.
  - now exists false.
  - cbn [try_counts]. unfold bind at 1. cbn [emit].
    set (w0 := mkWorld _ _ _ _ _). unfold bind at 1.
    destruct (try_split_and_compress_returns k total_pages w0) as [b Hb];
      [apply Hks; now left|].
    destruct (try_split_and_compress _ _ _ _ _ w0) as [r w1]. cbn [fst] in Hb. subst r.
    destruct b.
    + now exists true.
    + apply IH. intros k' Hk'. apply Hks. now right.
Qed.

Lemma try_counts_all_tried total_pages (ks : list Z) :
  forall w w' : World,
    try_counts pdf output_dir args total_pages ks w = (Return false, w') ->
    forall k, In k ks -> In (TryParts k) (log w').
Proof.
  induction ks as [|k later IH]; intros w w' H k' Hin; [contradiction|].
  cbn [try_counts] in H. unfold bind at 1 in H. cbn [emit] in H.
  set (w0 := mkWorld _ _ _ _ _) in H. unfold bind at 1 in H.
  pose proof (grows_try_split_and_compress pdf output_dir args k total_pages w0) as [e1 G1].
  destruct (try_split_and_compress _ _ _ _ _ w0) as [r w1]. cbn [snd] in G1.
  destruct r as [[|]|e]; cbn [ret] in H; try discriminate.
  destruct Hin as [<-|Hin]; [|exact (IH _ _ H _ Hin)].
  pose proof (grows_try_counts pdf output_dir args total_pages later w1) as [e2 G2].
  rewrite H in G2. cbn [snd] in G2. rewrite G2, G1. subst w0. cbn [log].
  apply in_or_app. left. apply in_or_app. left. apply in_or_app. right. now left.
Qed.

Lemma calculate_split_strategy_at_least_2 size the_max_splits :
  (2 <= calculate_split_strategy size the_max_splits)%Z.
Proof.
  unfold calculate_split_strategy.
  destruct (Z.ltb_spec (Z.min the_max_splits (Qceiling (size / estimated_chunk_size))) 2); lia.
Qed.

End OneDocument.

End SplitProperties.

(** ** The caller's size check *)

Section Orchestrator.

Context {T : Type} {tools : Pipeline T}.

Abbreviation World := (@World T).

(* The relations between worlds, for the tools at hand. *)
Local Abbreviation same_named := (@same_named T).
Local Abbreviation named_shrunk := (@named_shrunk T).
Local Abbreviation preserves R m := (@preserves T R _ m).
Local Abbreviation keeps_named m := (@keeps_named T _ m).
Local Abbreviation log_extends := (@log_extends T).
Local Abbreviation log_grows m := (@log_grows T _ m).
Local Abbreviation search_frame := (@search_frame T).
Local Abbreviation parts_invariant := (@parts_invariant T).

Lemma search_invoked_app (l m : list Event) :
  search_invoked (l ++ m) = search_invoked l || search_invoked m.
Proof. apply existsb_app. Qed.

Lemma determine_tier_cases (size_mb : Q) :
  determine_tier size_mb = 0%Z \/ determine_tier size_mb = 1%Z \/
  determine_tier size_mb = 2%Z \/ determine_tier size_mb = 3%Z.
Proof.
  unfold determine_tier.
  destruct (Qle_bool 2 size_mb && Qlt_bool size_mb 10); [auto|].
  destruct (Qle_bool 10 size_mb && Qlt_bool size_mb 50); [auto|].
  destruct (Qle_bool 50 size_mb); auto.
Qed.

Lemma search_invoked_grows (w w' : World) :
  log_extends w w' -> search_invoked (log w) = true -> search_invoked (log w') = true.
Proof. intros [evs ->] H. now rewrite search_invoked_app, H. Qed.

(** Every entry into [run_iterative_compression] shows in the log, and
    the function returns. *)
Lemma run_iterative_compression_enters pdf output_dir target keep (w : World) :
  search_invoked (log (snd (run_iterative_compression pdf output_dir target keep w))) = true /\
  exists r, fst (run_iterative_compression pdf output_dir target keep w) = Return r.
Proof.
  destruct (run_iterative_compression pdf output_dir target keep w) as [res w'] eqn:H.
  cbn [fst snd].
  unfold run_iterative_compression in H. unfold bind at 1 in H.
  rewrite get_file_size_mb_eq in H. cbv zeta in H.
  set (w0 := mkWorld _ _ _ _ _) in H.
  assert (Tail : forall first_params rest e,
             search_invoked [e] = true ->
             (emit e ;;;
              (temp_dir <- create_temp_directory ;;
               r <- iterative_body first_params rest pdf output_dir target temp_dir ;;
               release_temp keep temp_dir ;;;
               ret (Return r))) w0 = (res, w') ->
             search_invoked (log w') = true /\ exists r, res = Return r).
  { intros first_params rest e He K. unfold bind at 1 in K. cbn [emit] in K.
    set (v0 := mkWorld _ _ _ _ _) in K.
    assert (G : log_grows
                  (temp_dir <- create_temp_directory ;;
                   r <- iterative_body first_params rest pdf output_dir target temp_dir ;;
                   release_temp keep temp_dir ;;;
                   ret (Return r))).
    { apply grows_bind; [apply grows_create_temp_directory|intro d].
      apply grows_bind; [apply grows_iterative_body|intro r].
      apply grows_bind; [apply grows_release_temp|intro]. apply grows_ret. }
    specialize (G v0). rewrite K in G. cbn [snd] in G.
    split.
    - apply (search_invoked_grows _ _ G). subst v0. cbn [log].
      now rewrite search_invoked_app, He, orb_true_r.
    - unfold bind, ret in K.
      destruct (create_temp_directory v0) as [d v1].
      destruct (iterative_body first_params rest pdf output_dir target d v1) as [r v2].
      destruct (release_temp keep d v2). injection K as <- _. now exists r. }
  destruct (determine_tier_cases (fst (stat_size_mb (pdf_path pdf) w))) as [E|[E|[E|E]]];
    rewrite E in H; cbn [Z.eqb STRATEGIES params_sequence] in H.
  - unfold bind, ret in H. cbn [emit] in H. injection H as <- <-. cbn [log].
    split; [|now exists (false, None)].
    now rewrite search_invoked_app, orb_true_r.
  - refine (Tail _ _ _ _ H). reflexivity.
  - refine (Tail _ _ _ _ H). reflexivity.
  - refine (Tail _ _ _ _ H). reflexivity.
Qed.

(** How [run_iterative_compression] reaches lines 87 to 172: for a
    document of tier 1, 2 or 3 whose pages were rendered and recognised,
    it is the search of [try_presets] in a fresh temporary directory,
    followed by the [finally] clause. *)
Lemma run_iterative_compression_stages
    pdf output_dir target keep (w w_images w_hocr : World)
    strategy first_params rest image_files hocr_file :
  let size := fst (stat_size_mb (pdf_path pdf) w) in
  let tier := determine_tier size in
  let temp_dir := Temp (next_temp w) in
  let w_temp := mkWorld (files w) (next_temp w :: temp_live w) (S (next_temp w)) (tool w)
                        ((log w ++ [Measured (pdf_path pdf) size])
                         ++ [StrategyApplied (pdf_path pdf) tier]) in
  tier <> 0%Z ->
  STRATEGIES tier = Some strategy ->
  params_sequence strategy = first_params :: rest ->
  deconstruct_pdf_to_images pdf temp_dir (max_dpi_of first_params rest) w_temp
    = (Some image_files, w_images) ->
  analyze_images_to_hocr image_files temp_dir w_images = (Some hocr_file, w_hocr) ->
  run_iterative_compression pdf output_dir target keep w
  = (Return (fst (try_presets first_params rest pdf output_dir target temp_dir
                              image_files hocr_file w_hocr)),
     snd (release_temp keep temp_dir
            (snd (try_presets first_params rest pdf output_dir target temp_dir
                              image_files hocr_file w_hocr)))).
Proof.
  intros size tier temp_dir w_temp Htier Hs Hp Hd Ha.
  unfold run_iterative_compression. unfold bind at 1.
  rewrite get_file_size_mb_eq. cbv zeta. fold size. fold tier.
  destruct (Z.eqb_spec tier 0); [contradiction|].
  rewrite Hs, Hp. unfold bind at 1. cbn [emit log files temp_live next_temp tool].
  unfold bind at 1. cbn [create_temp_directory log files temp_live next_temp tool].
  fold temp_dir. fold w_temp.
  unfold bind at 1. unfold iterative_body. cbv zeta.
  unfold bind at 1. rewrite Hd. unfold bind at 1. rewrite Ha.
  destruct (try_presets _ _ _ _ _ _ _ _ w_hocr) as [r w1]. cbn [fst snd].
  unfold bind, ret. now destruct (release_temp keep temp_dir w1).
Qed.

(** Validated arguments have a positive target. *)
Lemma valid_numbers_target (args : Args) :
  valid_numbers args = true -> (0 < target_size args)%Q.
Proof.
  unfold valid_numbers. intro H.
  apply andb_prop in H. destruct H as [H _].
  apply andb_prop in H. destruct H as [H _].
  unfold Qlt_bool in H. destruct (Qle_bool (target_size args) 0) eqn:E; [discriminate|].
  destruct (Qlt_le_dec 0 (target_size args)) as [L|L]; [exact L|].
  apply Qle_bool_iff in L. congruence.
Qed.

Lemma grows_run_splitting_protocol pdf output_dir args :
  log_grows (run_splitting_protocol pdf output_dir args).
Proof.
  unfold run_splitting_protocol.
  apply grows_bind; [apply grows_emit|intros _].
  apply grows_bind; [apply grows_get_pdf_page_count|intro total_pages].
  destruct (total_pages =? 0)%Z; [apply grows_ret|].
  apply grows_bind; [apply grows_get_file_size_mb|intro size].
  apply grows_try_counts.
Qed.

(** A document that is not below the target is handed to
    [run_iterative_compression]. *)
Lemma large_file_is_searched (file_path : PdfFile) (args : Args) (w : World) :
  (target_size args <= fst (stat_size_mb (pdf_path file_path) w))%Q ->
  search_invoked (log (snd (process_file file_path args w))) = true.
Proof.
  intro Hge. unfold process_file. unfold bind at 1.
  rewrite get_file_size_mb_eq. unfold Qlt_bool.
  apply Qle_bool_iff in Hge. rewrite Hge. cbn [negb].
  unfold bind at 1. cbn [emit]. set (w1 := mkWorld _ _ _ _ _).
  unfold bind at 1.
  destruct (run_iterative_compression_enters file_path (args_output_dir args)
              (target_size args) (args_keep_temp_on_failure args) w1) as [Hin _].
  destruct (run_iterative_compression _ _ _ _ w1) as [r w2]. cbn [snd] in Hin.
  destruct r as [[[|] x]|e]; try exact Hin.
  destruct (allow_splitting args); [|exact Hin].
  unfold bind.
  pose proof (grows_run_splitting_protocol file_path (args_output_dir args) args w2) as G.
  destruct (run_splitting_protocol file_path (args_output_dir args) args w2) as [s w3].
  cbn [snd] in G.
  assert (Hw3 : search_invoked (log w3) = true)
    by exact (search_invoked_grows _ _ G Hin).
  destruct s as [b|e]; exact Hw3.
Qed.


End Orchestrator.

(** * Further properties of the code *)

(** ** The number and the length of the parts *)

Lemma ranges_from_length (pages_per_split total_pages : Z) :
  (1 <= pages_per_split)%Z -> (1 <= total_pages)%Z ->
  forall n a,
    List.length (ranges_from pages_per_split total_pages (seq a n))
    = Nat.min n (Z.to_nat (pages_per_split_of total_pages pages_per_split) - a).
Proof.
  intros Hp Ht.
  destruct (pages_per_split_bounds total_pages pages_per_split Ht Hp) as (C1 & C2 & C3).
  set (c := pages_per_split_of total_pages pages_per_split) in *.
  induction n as [|n IH]; intro a; [reflexivity|].
  cbn [seq ranges_from]. unfold start_page_of.
  destruct (Z.ltb_spec total_pages (Z.of_nat a * pages_per_split + 1)) as [L|L].
  - assert (c <= Z.of_nat a)%Z by nia.
    replace (Z.to_nat c - a)%nat with 0%nat by lia. now rewrite Nat.min_0_r.
  - assert (Z.of_nat a < c)%Z by nia.
    cbn [List.length]. rewrite IH. lia.
Qed.

Lemma ranges_from_sizes (pages_per_split total_pages : Z) (indices : list nat) :
  (1 <= pages_per_split)%Z ->
  Forall (fun r => (1 <= snd r - fst r + 1 <= pages_per_split)%Z)
         (ranges_from pages_per_split total_pages indices).
Proof.
  intro Hp. induction indices as [|i later IH]; cbn [ranges_from]; [constructor|].
  destruct (Z.ltb_spec total_pages (start_page_of pages_per_split i)) as [L|L];
    constructor; [|exact IH].
  unfold start_page_of, end_page_of in *. cbn [fst snd]. lia.
Qed.

(** The number of ranges of a split into [k]: the number of chunks of
    [pages_per_split] pages that the document fills. *)
Lemma page_ranges_length (total_pages k : Z) :
  (1 <= total_pages)%Z -> (1 <= k)%Z ->
  let pages_per_split := pages_per_split_of total_pages k in
  List.length (page_ranges total_pages k)
    = Z.to_nat (pages_per_split_of total_pages pages_per_split) /\
  (1 <= List.length (page_ranges total_pages k) <= Z.to_nat k)%nat /\
  Forall (fun r => (1 <= snd r - fst r + 1 <= pages_per_split)%Z)
         (page_ranges total_pages k).
Proof.
  intros Ht Hk pages_per_split.
  destruct (pages_per_split_bounds total_pages k Ht Hk) as (B1 & B2 & B3).
  fold pages_per_split in B1, B2, B3.
  destruct (pages_per_split_bounds total_pages pages_per_split Ht B1) as (C1 & C2 & C3).
  unfold page_ranges. fold pages_per_split.
  rewrite (ranges_from_length pages_per_split total_pages B1 Ht).
  rewrite Nat.sub_0_r.
  assert (pages_per_split_of total_pages pages_per_split <= k)%Z by nia.
  split; [lia|]. split; [lia|]. now apply ranges_from_sizes.
Qed.

(** ** The check of the parts *)

Section Helpers.

Context {T : Type} {tools : Pipeline T}.

Abbreviation World := (@World T).

Lemma validate_files_checks (target_size_mb : Q) (split_files : list Path) :
  forall all_valid total_size (w : World),
    let r := validate_files target_size_mb split_files all_valid total_size w in
    fst (fst r) = all_valid && forallb (within_target (files w) target_size_mb) split_files /\
    files (snd r) = files w /\ temp_live (snd r) = temp_live w /\ tool (snd r) = tool w.
Proof.
  induction split_files as [|p later IH]; intros all_valid total_size w; cbv zeta.
  - cbn. now rewrite andb_true_r.
  - cbn [validate_files forallb].
    set (step := bind (exists_file p) _).
    assert (Step : exists valid' total' (w' : World),
               step w = validate_files target_size_mb later valid' total' w' /\
               valid' = all_valid && within_target (files w) target_size_mb p /\
               files w' = files w /\ temp_live w' = temp_live w /\ tool w' = tool w).
    { subst step. unfold bind at 1. unfold exists_file at 1. unfold within_target.
      destruct (files w p) as [n|] eqn:E; cbn [negb].
      - unfold bind at 1. rewrite get_file_size_mb_eq. unfold stat_size_mb. rewrite E.
        cbn [fst]. cbv zeta. unfold Qlt_bool.
        destruct (Qle_bool (Z.of_N n # MB) target_size_mb); cbn [negb];
          do 3 eexists; (split; [reflexivity|]); cbn [files temp_live tool];
          rewrite ?andb_true_r, ?andb_false_r; auto.
      - do 3 eexists. split; [reflexivity|]. rewrite andb_false_r. auto. }
    destruct Step as (valid' & total' & w' & -> & -> & F1 & F2 & F3).
    pose proof (IH (all_valid && within_target (files w) target_size_mb p) total' w') as H.
    cbv zeta in H. rewrite F1, F2, F3, <- andb_assoc in H. exact H.
Qed.

(** X15. [validate_split_results] answers [True] exactly when every file of
    the list is on the disk and measures at most the target (so for the
    empty list), and it only reads: files, temporary directories and tools
    are as before. *)
Theorem validate_split_results_checks
    (split_files : list Path) (target_size_mb : Q) (w : World) :
  let r := validate_split_results split_files target_size_mb w in
  (fst r = true <->
   Forall (fun p => exists n, files w p = Some n /\ (Z.of_N n # MB <= target_size_mb)%Q)
          split_files) /\
  files (snd r) = files w /\ temp_live (snd r) = temp_live w /\ tool (snd r) = tool w.
Proof.
  cbv zeta. unfold validate_split_results, bind, ret.
  destruct (validate_files_checks target_size_mb split_files true 0 w) as (H1 & H2).
  destruct (validate_files target_size_mb split_files true 0 w) as [r w'].
  cbn [fst snd] in *. split; [|exact H2].
  rewrite H1. cbn [andb]. rewrite forallb_forall, Forall_forall.
  split; intros H p Hp; specialize (H p Hp); unfold within_target in *.
  - destruct (files w p) as [n|]; [|discriminate].
    exists n. split; [reflexivity|]. now apply Qle_bool_iff.
  - destruct H as (n & -> & Hn). now apply Qle_bool_iff.
Qed.

(** ** Documents below the first tier *)

Lemma determine_tier_below (size_mb : Q) : (size_mb < 2)%Q -> determine_tier size_mb = 0%Z.
Proof.
  intro H. unfold determine_tier.
  rewrite (Qle_bool_false H).
  rewrite (@Qle_bool_false 10 size_mb) by lra.
  rewrite (@Qle_bool_false 50 size_mb) by lra.
  reflexivity.
Qed.

(** X11. A document below 2 MB has no tier: [run_iterative_compression]
    returns [(False, None)] after measuring it, whatever the target; no
    tool runs, no temporary directory is made and no file is touched. So
    [process_file], for such a document that is not below the target,
    fails at once when splitting is not allowed. *)
Theorem below_two_mb_is_not_searched
    (pdf : PdfFile) (output_dir : Dir) (target_size_mb : Q) (keep : bool)
    (args : Args) (w : World) :
  let size := fst (stat_size_mb (pdf_path pdf) w) in
  (size < 2)%Q ->
  run_iterative_compression pdf output_dir target_size_mb keep w
  = (Return (false, None),
     mkWorld (files w) (temp_live w) (next_temp w) (tool w)
             (log w ++ [Measured (pdf_path pdf) size; TierSkipped (pdf_path pdf)])) /\
  ((target_size args <= size)%Q -> allow_splitting args = false ->
   process_file pdf args w
   = (false,
      mkWorld (files w) (temp_live w) (next_temp w) (tool w)
              (log w ++ [Measured (pdf_path pdf) size; IterativeStarted (pdf_path pdf);
                         Measured (pdf_path pdf) size; TierSkipped (pdf_path pdf)]))).
Proof.
  intros size Hsmall.
  assert (Run : forall out target keep' (v : World),
             files v = files w ->
             run_iterative_compression pdf out target keep' v
             = (Return (false, None),
                mkWorld (files v) (temp_live v) (next_temp v) (tool v)
                        (log v ++ [Measured (pdf_path pdf) size;
                                   TierSkipped (pdf_path pdf)]))).
  { intros out target keep' v Hv.
    unfold run_iterative_compression. unfold bind at 1.
    rewrite get_file_size_mb_eq. cbv zeta.
    assert (Es : fst (stat_size_mb (pdf_path pdf) v) = size)
      by (unfold size, stat_size_mb; cbn [fst]; now rewrite Hv).
    rewrite Es, (determine_tier_below size Hsmall). cbn [Z.eqb].
    unfold bind, emit, ret. cbn [fst snd files temp_live next_temp tool log].
    now rewrite <- app_assoc. }
  split; [now apply Run|].
  intros Hbig Hsplit.
  unfold process_file. unfold bind at 1. rewrite get_file_size_mb_eq. fold size.
  unfold Qlt_bool. apply Qle_bool_iff in Hbig. rewrite Hbig. cbn [negb].
  unfold bind at 1. cbn [emit]. unfold bind at 1.
  rewrite Run by reflexivity. rewrite Hsplit.
  unfold ret. cbn [files temp_live next_temp tool log].
  now rewrite <- !app_assoc.
Qed.

End Helpers.

(** ** What the functions write to the log *)

Section Logs.

Context {T : Type} {tools : Pipeline T}.

Abbreviation World := (@World T).

Local Abbreviation logs S m := (@logs T S _ m).
Local Abbreviation emits_only P m := (@emits_only T P _ m).
Local Abbreviation costs_at_most b m := (@costs_at_most T b _ m).

Lemma logs_ret (S : list Event -> Prop) {A} (a : A) : S [] -> logs S (ret a).
Proof. intros H w. exists []. cbn. now rewrite app_nil_r. Qed.

Lemma logs_bind_post (S1 S2 S : list Event -> Prop) {A B} (post : A -> Prop)
    (m : M A) (k : A -> M B) :
  (forall e1 e2, S1 e1 -> S2 e2 -> S (e1 ++ e2)) ->
  (forall w, post (fst (m w))) ->
  logs S1 m -> (forall a, post a -> logs S2 (k a)) -> logs S (bind m k).
Proof.
  intros HS Hpost Hm Hk w. unfold bind.
  destruct (Hm w) as (e1 & L1 & H1). specialize (Hpost w).
  destruct (m w) as [a w1]. cbn [fst snd] in *.
  destruct (Hk a Hpost w1) as (e2 & L2 & H2).
  exists (e1 ++ e2). split; [now rewrite L2, L1, app_assoc|now apply HS].
Qed.

Lemma logs_bind (S1 S2 S : list Event -> Prop) {A B} (m : M A) (k : A -> M B) :
  (forall e1 e2, S1 e1 -> S2 e2 -> S (e1 ++ e2)) ->
  logs S1 m -> (forall a, logs S2 (k a)) -> logs S (bind m k).
Proof.
  intros HS Hm Hk.
  apply logs_bind_post with (S1 := S1) (S2 := S2) (post := fun _ => True); auto.
Qed.

Lemma logs_weaken (S S' : list Event -> Prop) {A} (m : M A) :
  (forall evs, S evs -> S' evs) -> logs S m -> logs S' m.
Proof. intros H Hm w. destruct (Hm w) as (evs & L & HS). exists evs. auto. Qed.

Lemma logs_silent (S : list Event -> Prop) {A} (m : M A) :
  (forall w, log (snd (m w)) = log w) -> S [] -> logs S m.
Proof. intros L H w. exists []. now rewrite app_nil_r. Qed.

Lemma logs_one (S : list Event -> Prop) {A} (m : M A) (e : World -> Event) :
  (forall w, log (snd (m w)) = log w ++ [e w]) -> (forall w, S [e w]) -> logs S m.
Proof. intros L H w. exists [e w]. auto. Qed.

(** *** The entries of the primitive steps *)

Lemma write_all_log d fs (w : World) : log (snd (write_all d fs w)) = log w.
Proof.
  revert w. induction fs as [|[name n] fs IH]; intro w; [reflexivity|].
  cbn [write_all]. unfold bind. cbn [write_file]. now rewrite IH.
Qed.

Lemma deconstruct_log pdf d at_dpi (w : World) :
  log (snd (deconstruct_pdf_to_images pdf d at_dpi w))
  = log w ++ [Deconstruct (pdf_path pdf) at_dpi
                          (fst (fst (pdftoppm (tool w) (pdf_path pdf) at_dpi)))].
Proof.
  unfold deconstruct_pdf_to_images.
  destruct (pdftoppm (tool w) (pdf_path pdf) at_dpi) as [[ok pages] t]. cbn [fst].
  unfold bind at 1. cbn [set_tool]. unfold bind at 1.
  set (w0 := mkWorld _ _ _ _ _).
  pose proof (write_all_log d pages w0) as L.
  destruct (write_all d pages w0) as [[] w1]. cbn [snd] in L.
  unfold bind, emit, ret. destruct ok; [destruct pages|]; cbn; now rewrite L.
Qed.

Lemma analyze_log images d (w : World) :
  exists ok, log (snd (analyze_images_to_hocr images d w)) = log w ++ [Analyze ok].
Proof.
  unfold analyze_images_to_hocr.
  destruct (tesseract (tool w) images) as [[n|] t]; [exists true|exists false]; reflexivity.
Qed.

Lemma release_temp_log keep d (w : World) :
  log (snd (release_temp keep d w))
  = log w ++ [if keep then TempKept d else TempCleaned d].
Proof. destruct keep; reflexivity. Qed.

Section Steps.

Variable S : list Event -> Prop.

Lemma logs_emit e : S [e] -> logs S (emit e).
Proof. intro H. now apply logs_one with (e := fun _ => e). Qed.

Lemma logs_measure p : (forall s, S [Measured p s]) -> logs S (get_file_size_mb p).
Proof.
  intro H. apply logs_one with (e := fun w => Measured p (fst (stat_size_mb p w))); auto.
Qed.

Lemma logs_reconstruct images hocr d p out :
  (forall ok, S [Reconstruct p out ok]) -> logs S (reconstruct_pdf images hocr d p out).
Proof.
  intro H.
  apply logs_one
    with (e := fun w => Reconstruct p out (fst (reconstruct_pdf images hocr d p out w)));
    [apply reconstruct_pdf_log|auto].
Qed.

Lemma logs_copy src dst : (forall c, S [Copied src dst c]) -> logs S (copy_file src dst).
Proof.
  intro H.
  apply logs_one with (e := fun w => Copied src dst (fst (copy_file src dst w)));
    [apply copy_file_log|auto].
Qed.

Lemma logs_deconstruct pdf d at_dpi :
  (forall ok, S [Deconstruct (pdf_path pdf) at_dpi ok]) ->
  logs S (deconstruct_pdf_to_images pdf d at_dpi).
Proof.
  intro H.
  apply logs_one
    with (e := fun w => Deconstruct (pdf_path pdf) at_dpi
                          (fst (fst (pdftoppm (tool w) (pdf_path pdf) at_dpi))));
    [apply deconstruct_log|auto].
Qed.

Lemma logs_analyze images d :
  (forall ok, S [Analyze ok]) -> logs S (analyze_images_to_hocr images d).
Proof.
  intros H w. destruct (analyze_log images d w) as [ok L]. exists [Analyze ok]. auto.
Qed.

Lemma logs_split_pdf pdf out a b :
  (forall ok, S [SplitPages (pdf_path pdf) a b out ok]) -> logs S (split_pdf pdf out a b).
Proof.
  intro H.
  apply logs_one
    with (e := fun w => SplitPages (pdf_path pdf) a b out (fst (split_pdf pdf out a b w)));
    [apply split_pdf_log|auto].
Qed.

Lemma logs_release keep d :
  S [TempKept d] -> S [TempCleaned d] -> logs S (release_temp keep d).
Proof.
  intros H1 H2.
  apply logs_one with (e := fun _ => if keep then TempKept d else TempCleaned d);
    [apply release_temp_log|intros _; now destruct keep].
Qed.

Lemma logs_cleanup d : S [TempCleaned d] -> logs S (cleanup_directory d).
Proof. intro H. now apply logs_one with (e := fun _ => TempCleaned d). Qed.

Lemma logs_create : S [] -> logs S create_temp_directory.
Proof. now apply logs_silent. Qed.

Lemma logs_page_count pdf : S [] -> logs S (get_pdf_page_count pdf).
Proof. now apply logs_silent. Qed.

Lemma logs_unlink p : S [] -> S [Unlinked p] -> logs S (unlink_if_exists p).
Proof.
  intros H0 H1 w. unfold unlink_if_exists, bind, exists_file.
  destruct (files w p); [exists [Unlinked p]|exists []]; cbn; rewrite ?app_nil_r; auto.
Qed.

End Steps.

(** [step]: the entries of one primitive step, whatever the property
    [S] of entries at hand; what is left is [S] of at most one entry. *)
Ltac step :=
  first [ apply logs_ret | apply logs_emit | apply logs_measure
        | apply logs_reconstruct | apply logs_copy | apply logs_deconstruct
        | apply logs_analyze | apply logs_split_pdf | apply logs_release
        | apply logs_cleanup | apply logs_create | apply logs_page_count
        | apply logs_unlink ].

(** *** Which entries *)

Lemma only_bind (P : Event -> bool) {A B} (m : M A) (k : A -> M B) :
  emits_only P m -> (forall a, emits_only P (k a)) -> emits_only P (bind m k).
Proof.
  apply logs_bind. intros e1 e2 H1 H2. now rewrite forallb_app, H1, H2.
Qed.

Lemma only_mono (P P' : Event -> bool) {A} (m : M A) :
  (forall e, P e = true -> P' e = true) -> emits_only P m -> emits_only P' m.
Proof.
  intro H. apply logs_weaken. intros evs Hevs.
  rewrite forallb_forall in *. auto.
Qed.

Create HintDb only discriminated.

Section SearchEntries.

Variable P : Event -> bool.
Hypothesis P_search : forall e, search_event e = true -> P e = true.

(** [entries]: the computation at hand writes only entries of [P]. *)
Ltac entry :=
  step; intros; cbn [forallb];
  rewrite ?P_search by reflexivity; reflexivity.

Ltac entries :=
  repeat first
    [ solve [entry]
    | solve [auto with only]
    | apply only_bind; [|intro]
    | match goal with
      | |- emits_only _ (match ?x with _ => _ end) => destruct x
      end ].

Lemma only_backtrack first_params rest pdf target temp_dir images hocr n :
  forall chosen,
    emits_only P (backtrack first_params rest pdf target temp_dir images hocr n chosen).
Proof. induction n as [|idx IH]; intro chosen; cbn [backtrack]; cbv zeta; entries. Qed.

Lemma only_sequential pdf output_dir target temp_dir images hocr remaining :
  forall i,
    emits_only P (sequential_attempts pdf output_dir target temp_dir images hocr i remaining).
Proof.
  induction remaining as [|p later IH]; intro i;
    cbn [sequential_attempts]; cbv zeta; entries.
Qed.

Lemma only_aggressive pdf output_dir target temp_dir images hocr remaining :
  forall i,
    emits_only P (aggressive_attempts pdf output_dir target temp_dir images hocr i remaining).
Proof.
  induction remaining as [|p later IH]; intro i;
    cbn [aggressive_attempts]; cbv zeta; entries.
Qed.

#[local] Hint Resolve only_backtrack only_sequential only_aggressive : only.

Lemma only_try_presets first_params rest pdf output_dir target temp_dir images hocr :
  emits_only P (try_presets first_params rest pdf output_dir target temp_dir images hocr).
Proof. unfold try_presets. cbv zeta. entries. Qed.

#[local] Hint Resolve only_try_presets : only.

Lemma only_run_iterative_compression pdf output_dir target keep :
  emits_only P (run_iterative_compression pdf output_dir target keep).
Proof. unfold run_iterative_compression, iterative_body. cbv zeta. entries. Qed.

Lemma only_run_aggressive_compression pdf output_dir target keep :
  emits_only P (run_aggressive_compression pdf output_dir target keep).
Proof. unfold run_aggressive_compression, aggressive_body. cbv zeta. entries. Qed.

End SearchEntries.

Lemma search_event_attempt (e : Event) : search_event e = true -> attempt_event e = true.
Proof. destruct e; cbn; auto. Qed.

Section AttemptEntries.

Variable P : Event -> bool.
Hypothesis P_attempt : forall e, attempt_event e = true -> P e = true.

Ltac entry :=
  step; intros; cbn [forallb];
  rewrite ?P_attempt by reflexivity; reflexivity.

Ltac entries :=
  repeat first
    [ solve [entry]
    | solve [auto with only]
    | apply only_bind; [|intro]
    | match goal with
      | |- emits_only _ (match ?x with _ => _ end) => destruct x
      end ].

Lemma only_run_aggressive_in_attempt pdf output_dir target keep :
  emits_only P (run_aggressive_compression pdf output_dir target keep).
Proof.
  apply only_run_aggressive_compression.
  intros e He. now apply P_attempt, search_event_attempt.
Qed.

Lemma only_unlink_all ps : emits_only P (unlink_all ps).
Proof. induction ps as [|p ps IH]; cbn [unlink_all]; entries. Qed.

#[local] Hint Resolve only_run_aggressive_in_attempt only_unlink_all : only.

Lemma only_split_parts pdf total pps temp_dir indices :
  forall acc, emits_only P (split_parts pdf total pps temp_dir indices acc).
Proof.
  induction indices as [|i later IH]; intro acc; cbn [split_parts]; cbv zeta; entries.
Qed.

Lemma only_compress_parts pdf output_dir args parts :
  forall i split_files,
    emits_only P (compress_parts pdf output_dir args i parts split_files).
Proof.
  induction parts as [|part later IH]; intros i split_files;
    cbn [compress_parts]; cbv zeta; entries.
Qed.

#[local] Hint Resolve only_split_parts only_compress_parts : only.

Lemma only_try_split_and_compress pdf output_dir args k total :
  emits_only P (try_split_and_compress pdf output_dir args k total).
Proof. unfold try_split_and_compress. cbv zeta. entries. Qed.

End AttemptEntries.

(** Phase 2 of a split attempt runs searches and unlinks files. *)
Section PartEntries.

Variable P : Event -> bool.
Hypothesis P_search : forall e, search_event e = true -> P e = true.
Hypothesis P_unlinked : forall p, P (Unlinked p) = true.

Ltac entry :=
  step; intros; cbn [forallb];
  rewrite ?P_unlinked; rewrite ?P_search by reflexivity; reflexivity.

Lemma only_unlink_parts ps : emits_only P (unlink_all ps).
Proof.
  induction ps as [|p ps IH]; cbn [unlink_all]; [entry|].
  apply only_bind; [entry|intro; exact IH].
Qed.

Lemma only_phase2 pdf output_dir args parts :
  forall i split_files,
    emits_only P (compress_parts pdf output_dir args i parts split_files).
Proof.
  induction parts as [|part later IH]; intros i split_files;
    cbn [compress_parts]; cbv zeta; [entry|].
  apply only_bind; [apply only_run_aggressive_compression; exact P_search|].
  intros [success compressed].
  assert (Undo : emits_only P (unlink_all split_files ;;; ret false))
    by (apply only_bind; [apply only_unlink_parts|intro; entry]).
  destruct success; [|exact Undo].
  destruct compressed as [compressed_path|]; [|exact Undo].
  apply only_bind; [|intro; apply IH].
  destruct (negb _); [|entry].
  apply only_bind; [entry|intro; entry].
Qed.

End PartEntries.

(** *** The split path is taken only when allowed *)

Lemma search_event_not_splitting (e : Event) :
  search_event e = true -> negb (splitting_event e) = true.
Proof. destruct e; cbn; auto. Qed.

(** X12. A search writes only the entries of a search: it runs no qpdf and
    unlinks nothing. With [allow_splitting] off, [process_file] as a whole
    writes no entry of the split path. *)
Theorem no_splitting_unless_allowed (file_path : PdfFile) (args : Args) :
  allow_splitting args = false ->
  emits_only (fun e => negb (splitting_event e)) (process_file file_path args) /\
  emits_only search_event
    (run_iterative_compression file_path (args_output_dir args) (target_size args)
                               (args_keep_temp_on_failure args)).
Proof.
  intro Hs. split; [|apply only_run_iterative_compression; auto].
  assert (Search :
            emits_only (fun e => negb (splitting_event e))
              (run_iterative_compression file_path (args_output_dir args)
                 (target_size args) (args_keep_temp_on_failure args)))
    by (apply only_run_iterative_compression, search_event_not_splitting).
  unfold process_file.
  apply only_bind; [step; intros; reflexivity|]. intro size.
  destruct (Qlt_bool size (target_size args)).
  - apply only_bind; [|intro; step; reflexivity].
    destruct (copy_small_files args); [|step; reflexivity].
    apply only_bind; [step; intros; reflexivity|intro; step; reflexivity].
  - apply only_bind; [step; reflexivity|]. intros _.
    apply only_bind; [exact Search|]. intro r. rewrite Hs.
    destruct r as [[[|] o]|e]; step; reflexivity.
Qed.

(** *** The counts that the protocol tries *)

Lemma tried_counts_app (l m : list Event) :
  tried_counts (l ++ m) = tried_counts l ++ tried_counts m.
Proof. apply flat_map_app. Qed.

Lemma tried_counts_quiet (evs : list Event) :
  forallb attempt_event evs = true -> tried_counts evs = [].
Proof.
  induction evs as [|e evs IH]; [reflexivity|].
  cbn [forallb]. intro H. apply andb_prop in H. destruct H as [He H].
  destruct e; cbn in He; try discriminate; cbn; auto.
Qed.

Lemma tried_counts_cons (k : Z) (evs : list Event) :
  tried_counts (TryParts k :: evs) = k :: tried_counts evs.
Proof. reflexivity. Qed.

Lemma try_counts_order pdf output_dir args total_pages (ks : list Z) :
  forall w : World,
  exists evs n,
    log (snd (try_counts pdf output_dir args total_pages ks w)) = log w ++ evs /\
    tried_counts evs = firstn n ks /\
    (fst (try_counts pdf output_dir args total_pages ks w) = Return false ->
     n = List.length ks) /\
    (n <= List.length ks)%nat /\ (ks <> [] -> 1 <= n)%nat.
Proof.
  induction ks as [|k later IH]; intro w.
  - exists [], 0%nat. cbn. rewrite app_nil_r. repeat split; auto. congruence.
  - destruct (try_counts pdf output_dir args total_pages (k :: later) w)
      as [res w'] eqn:E.
    cbn [fst snd]. cbn [try_counts] in E. unfold bind at 1 in E. cbn [emit] in E.
    set (w0 := mkWorld _ _ _ _ _) in E. unfold bind at 1 in E.
    destruct (only_try_split_and_compress attempt_event (fun e H => H)
                pdf output_dir args k total_pages w0) as (e1 & L1 & Q1).
    destruct (try_split_and_compress pdf output_dir args k total_pages w0) as [r w1].
    cbn [snd] in L1. apply tried_counts_quiet in Q1.
    assert (L0 : log w1 = log w ++ TryParts k :: e1)
      by (rewrite L1; subst w0; cbn [log]; now rewrite <- app_assoc).
    assert (Once : forall res' : Outcome bool,
               res' <> Return false ->
               exists evs n,
                 log w1 = log w ++ evs /\ tried_counts evs = firstn n (k :: later) /\
                 (res' = Return false -> n = List.length (k :: later)) /\
                 (n <= List.length (k :: later))%nat /\ (k :: later <> [] -> 1 <= n)%nat).
    { intros res' Hres. exists (TryParts k :: e1), 1%nat.
      split; [exact L0|]. split; [now rewrite tried_counts_cons, Q1|].
      split; [intro; contradiction|]. cbn [List.length]. split; [lia|auto]. }
    destruct r as [[|]|e]; unfold ret in E.
    + injection E as <- <-. apply Once. discriminate.
    + destruct (IH w1) as (e2 & n & L2 & Q2 & F2 & B2 & _).
      rewrite E in L2, F2. cbn [fst snd] in L2, F2.
      exists (TryParts k :: e1 ++ e2), (S n).
      split; [rewrite L2, L0, <- app_assoc; reflexivity|].
      split; [now rewrite tried_counts_cons, tried_counts_app, Q1, Q2|].
      cbn [List.length]. split; [intro F; f_equal; now apply F2|].
      split; [lia|intros _; lia].
    + injection E as <- <-. apply Once. discriminate.
Qed.

Lemma firstn_In {A} (n : nat) (l : list A) (x : A) : In x (firstn n l) -> In x l.
Proof.
  revert l. induction n as [|n IH]; intros [|a l]; cbn; try contradiction.
  intros [H|H]; [now left|right; now apply IH].
Qed.

(** X13. The part counts are tried in increasing order, each once, from the
    planner's count on; none is below 2 or above [max_splits]. When the
    protocol fails for a document whose page count is known, every count
    of that range was tried. *)
Theorem counts_are_tried_in_order (pdf : PdfFile) (output_dir : Dir) (args : Args)
    (w : World) :
  let initial_k :=
    calculate_split_strategy (fst (stat_size_mb (pdf_path pdf) w)) (max_splits args) in
  let r := run_splitting_protocol pdf output_dir args w in
  exists evs n,
    log (snd r) = log w ++ evs /\
    tried_counts evs = firstn n (range initial_k (max_splits args + 1)) /\
    (forall k, In k (tried_counts evs) -> (2 <= k <= max_splits args)%Z) /\
    (fst r = Return false -> pdfinfo (tool w) (pdf_path pdf) <> 0%Z ->
     n = List.length (range initial_k (max_splits args + 1))).
Proof.
  intros initial_k r.
  assert (Bounds : forall n k,
             In k (firstn n (range initial_k (max_splits args + 1))) ->
             (2 <= k <= max_splits args)%Z).
  { intros n k Hk. apply firstn_In, range_in in Hk.
    pose proof (calculate_split_strategy_at_least_2
                  (fst (stat_size_mb (pdf_path pdf) w)) (max_splits args)).
    fold initial_k in H. lia. }
  subst r.
  destruct (run_splitting_protocol pdf output_dir args w) as [res w'] eqn:E.
  cbn [fst snd].
  unfold run_splitting_protocol in E. unfold bind at 1 in E. cbn [emit] in E.
  set (w0 := mkWorld _ _ _ _ _) in E.
  unfold bind at 1 in E. unfold get_pdf_page_count at 1 in E.
  change (tool w0) with (tool w) in E.
  destruct (Z.eqb_spec (pdfinfo (tool w) (pdf_path pdf)) 0) as [Z|Z].
  - unfold ret in E. injection E as <- <-.
    exists [SplittingStarted (pdf_path pdf)], 0%nat.
    split; [reflexivity|]. split; [reflexivity|].
    split; [intros k []|]. intros _ Hp. contradiction.
  - unfold bind at 1 in E. rewrite get_file_size_mb_eq in E.
    change (fst (stat_size_mb (pdf_path pdf) w0))
      with (fst (stat_size_mb (pdf_path pdf) w)) in E.
    fold initial_k in E. set (w1 := mkWorld _ _ _ _ _) in E.
    destruct (try_counts_order pdf output_dir args (pdfinfo (tool w) (pdf_path pdf))
                (range initial_k (max_splits args + 1)) w1) as (evs & n & L & Q & F & _).
    rewrite E in L, F. cbn [fst snd] in L, F.
    exists (SplittingStarted (pdf_path pdf)
            :: Measured (pdf_path pdf) (fst (stat_size_mb (pdf_path pdf) w)) :: evs), n.
    split; [rewrite L; subst w1 w0; cbn [log]; now rewrite <- !app_assoc|].
    split; [exact Q|]. split; [|intros Hf _; now apply F].
    intros k Hk. change (In k (tried_counts evs)) in Hk.
    rewrite Q in Hk. now apply (Bounds n).
Qed.

Lemma calculate_split_strategy_at_most size the_max_splits :
  (2 <= the_max_splits)%Z ->
  (calculate_split_strategy size the_max_splits <= the_max_splits)%Z.
Proof.
  intro H. unfold calculate_split_strategy.
  destruct (Z.ltb_spec (Z.min the_max_splits (Qceiling (size / estimated_chunk_size))) 2);
    lia.
Qed.

Lemma range_length (a b : Z) : List.length (range a b) = Z.to_nat (b - a).
Proof. unfold range. now rewrite length_map, length_seq. Qed.

(** X18. With the numbers that [validate_arguments] accepts ([max_splits]
    from 2 to 10), the protocol makes at least one attempt for a document
    whose page count is known, and at most [max_splits - 1], so never more
    than nine. *)
Theorem validated_arguments_bound_attempts
    (pdf : PdfFile) (output_dir : Dir) (args : Args) (w : World) :
  valid_numbers args = true ->
  pdfinfo (tool w) (pdf_path pdf) <> 0%Z ->
  exists evs,
    log (snd (run_splitting_protocol pdf output_dir args w)) = log w ++ evs /\
    (1 <= List.length (tried_counts evs))%nat /\
    (Z.of_nat (List.length (tried_counts evs)) <= max_splits args - 1)%Z /\
    (List.length (tried_counts evs) <= 9)%nat.
Proof.
  intros Hvalid Hpages.
  assert (Hmax : (2 <= max_splits args <= 10)%Z).
  { unfold valid_numbers in Hvalid.
    apply andb_prop in Hvalid. destruct Hvalid as [Hvalid H10].
    apply andb_prop in Hvalid. destruct Hvalid as [_ H2]. lia. }
  destruct (run_splitting_protocol pdf output_dir args w) as [res w'] eqn:E.
  cbn [snd].
  unfold run_splitting_protocol in E. unfold bind at 1 in E. cbn [emit] in E.
  set (w0 := mkWorld _ _ _ _ _) in E.
  unfold bind at 1 in E. unfold get_pdf_page_count at 1 in E.
  change (tool w0) with (tool w) in E.
  destruct (Z.eqb_spec (pdfinfo (tool w) (pdf_path pdf)) 0) as [Z|_]; [contradiction|].
  unfold bind at 1 in E. rewrite get_file_size_mb_eq in E.
  set (initial_k := calculate_split_strategy _ (max_splits args)) in E.
  set (w1 := mkWorld _ _ _ _ _) in E.
  destruct (try_counts_order pdf output_dir args (pdfinfo (tool w) (pdf_path pdf))
              (range initial_k (max_splits args + 1)) w1)
    as (evs & n & L & Q & _ & Hn & H1).
  rewrite E in L. cbn [snd] in L.
  pose proof (calculate_split_strategy_at_least_2
                (fst (stat_size_mb (pdf_path pdf) w0)) (max_splits args)) as Lo.
  pose proof (calculate_split_strategy_at_most
                (fst (stat_size_mb (pdf_path pdf) w0)) (max_splits args)
                (proj1 Hmax)) as Hi.
  fold initial_k in Lo, Hi.
  rewrite range_length in Hn.
  assert (Hne : range initial_k (max_splits args + 1) <> []).
  { intro Eq. apply (f_equal (@List.length Z)) in Eq.
    rewrite range_length in Eq. cbn in Eq. lia. }
  specialize (H1 Hne).
  exists (SplittingStarted (pdf_path pdf)
          :: Measured (pdf_path pdf) (fst (stat_size_mb (pdf_path pdf) w0)) :: evs).
  split; [rewrite L; subst w1 w0; cbn [log]; now rewrite <- !app_assoc|].
  change (tried_counts (SplittingStarted (pdf_path pdf)
                        :: Measured (pdf_path pdf)
                             (fst (stat_size_mb (pdf_path pdf) w0)) :: evs))
    with (tried_counts evs).
  rewrite Q, length_firstn, range_length. lia.
Qed.

(** *** How often the tools run *)

Lemma runs_of_app (l m : list Event) :
  renderings (runs_of (l ++ m)) = (renderings (runs_of l) + renderings (runs_of m))%nat /\
  recognitions (runs_of (l ++ m))
  = (recognitions (runs_of l) + recognitions (runs_of m))%nat /\
  rebuilds (runs_of (l ++ m)) = (rebuilds (runs_of l) + rebuilds (runs_of m))%nat /\
  extractions (runs_of (l ++ m)) = (extractions (runs_of l) + extractions (runs_of m))%nat.
Proof.
  induction l as [|e l IH]; [cbn; auto|].
  cbn [app runs_of fold_right]. fold (runs_of (l ++ m)). fold (runs_of l).
  unfold runs_add. cbn [renderings recognitions rebuilds extractions]. lia.
Qed.

Lemma cost_bind_post (a b c : Runs) {A B} (post : A -> Prop) (m : M A) (k : A -> M B) :
  runs_le (runs_add a b) c ->
  (forall w, post (fst (m w))) ->
  costs_at_most a m -> (forall x, post x -> costs_at_most b (k x)) ->
  costs_at_most c (bind m k).
Proof.
  intros Hle Hpost. apply logs_bind_post; [|exact Hpost].
  intros e1 e2 H1 H2. pose proof (runs_of_app e1 e2) as E.
  unfold runs_le, runs_add in *.
  cbn [renderings recognitions rebuilds extractions] in *. lia.
Qed.

Lemma cost_bind (a b c : Runs) {A B} (m : M A) (k : A -> M B) :
  runs_le (runs_add a b) c ->
  costs_at_most a m -> (forall x, costs_at_most b (k x)) -> costs_at_most c (bind m k).
Proof.
  intros Hle Hm Hk.
  apply cost_bind_post with (a := a) (b := b) (post := fun _ => True); auto.
Qed.

Lemma cost_free (b : Runs) {A B} (m : M A) (k : A -> M B) :
  costs_at_most (mkRuns 0 0 0 0) m -> (forall x, costs_at_most b (k x)) ->
  costs_at_most b (bind m k).
Proof.
  apply cost_bind. unfold runs_le, runs_add. cbn. lia.
Qed.

Lemma cost_le (a b : Runs) {A} (m : M A) :
  runs_le a b -> costs_at_most a m -> costs_at_most b m.
Proof.
  intro Hle. apply logs_weaken. intros evs H. unfold runs_le in *. lia.
Qed.

(** [spend]: one primitive step within the budget; [budget]: a sum of
    budgets within another. *)
Ltac spend := step; intros; unfold runs_le; cbn; lia.
Ltac budget := unfold runs_le, runs_add; cbn; lia.

Lemma cost_backtrack first_params rest pdf target temp_dir images hocr n :
  forall chosen,
    costs_at_most (mkRuns 0 0 n 0)
      (backtrack first_params rest pdf target temp_dir images hocr n chosen).
Proof.
  induction n as [|idx IH]; intro chosen; cbn [backtrack]; cbv zeta; [spend|].
  apply (cost_bind (mkRuns 0 0 1 0) (mkRuns 0 0 idx 0)); [budget|spend|].
  intros [|]; cbn [negb]; [|spend].
  apply cost_free; [spend|]. intro s.
  destruct (Qle_bool s target); [apply IH|spend].
Qed.

Lemma cost_sequential pdf output_dir target temp_dir images hocr remaining :
  forall i,
    costs_at_most (mkRuns 0 0 (List.length remaining) 0)
      (sequential_attempts pdf output_dir target temp_dir images hocr i remaining).
Proof.
  induction remaining as [|p later IH]; intro i;
    cbn [sequential_attempts List.length]; cbv zeta; [spend|].
  apply (cost_bind (mkRuns 0 0 1 0) (mkRuns 0 0 (List.length later) 0)); [budget|spend|].
  intros [|]; cbn [negb]; [|apply IH].
  apply cost_free; [spend|]. intro s.
  destruct (Qle_bool s target); [|apply IH].
  apply cost_free; [spend|intro; spend].
Qed.

Lemma cost_aggressive pdf output_dir target temp_dir images hocr remaining :
  forall i,
    costs_at_most (mkRuns 0 0 (List.length remaining) 0)
      (aggressive_attempts pdf output_dir target temp_dir images hocr i remaining).
Proof.
  induction remaining as [|p later IH]; intro i;
    cbn [aggressive_attempts List.length]; cbv zeta; [spend|].
  apply (cost_bind (mkRuns 0 0 1 0) (mkRuns 0 0 (List.length later) 0)); [budget|spend|].
  intros [|]; cbn [negb]; [|apply IH].
  apply cost_free; [spend|]. intro s.
  destruct (Qle_bool s target); [|apply IH].
  apply cost_free; [spend|intro; spend].
Qed.

Lemma cost_try_presets first_params rest pdf output_dir target temp_dir images hocr :
  costs_at_most (mkRuns 0 0 (List.length (sequence first_params rest) + 1) 0)
    (try_presets first_params rest pdf output_dir target temp_dir images hocr).
Proof.
  unfold try_presets. cbv zeta.
  apply (cost_bind (mkRuns 0 0 1 0) (mkRuns 0 0 (List.length rest + 1) 0));
    [budget|spend|].
  assert (Sequential :
            costs_at_most (mkRuns 0 0 (List.length rest + 1) 0)
              (sequential_attempts pdf output_dir target temp_dir images hocr 1 rest))
    by (eapply cost_le; [|apply cost_sequential]; budget).
  intros [|]; [|exact Sequential].
  apply cost_free; [spend|]. intro s.
  destruct (Qle_bool s target); [apply cost_free; [spend|intro; spend]|].
  destruct (Qlt_bool (target * threshold_factor) s); [|exact Sequential].
  apply (cost_bind (mkRuns 0 0 1 0) (mkRuns 0 0 (List.length rest) 0)); [budget|spend|].
  intros [|]; cbn [negb]; [|spend].
  apply cost_free; [spend|]. intro last_size.
  destruct (Qlt_bool target last_size); [spend|].
  apply (cost_bind (mkRuns 0 0 (List.length rest) 0) (mkRuns 0 0 0 0)); [budget| |].
  - eapply cost_le; [|apply cost_backtrack]. budget.
  - intro chosen. apply cost_free; [spend|intro; spend].
Qed.

Lemma cost_iterative_body first_params rest pdf output_dir target temp_dir :
  costs_at_most (mkRuns 1 1 (List.length rest + 2) 0)
    (iterative_body first_params rest pdf output_dir target temp_dir).
Proof.
  unfold iterative_body. cbv zeta.
  apply (cost_bind (mkRuns 1 0 0 0) (mkRuns 0 1 (List.length rest + 2) 0));
    [budget|spend|].
  intros [images|]; [|spend].
  apply (cost_bind (mkRuns 0 1 0 0) (mkRuns 0 0 (List.length rest + 2) 0));
    [budget|spend|].
  intros [hocr|]; [|spend].
  eapply cost_le; [|apply cost_try_presets]. budget.
Qed.

Lemma cost_run_iterative_compression pdf output_dir target keep :
  costs_at_most (mkRuns 1 1 7 0) (run_iterative_compression pdf output_dir target keep).
Proof.
  unfold run_iterative_compression.
  apply cost_free; [spend|]. intro size. cbv zeta.
  assert (Tail : forall first_params rest,
             (List.length rest + 2 <= 7)%nat ->
             costs_at_most (mkRuns 1 1 7 0)
               (temp_dir <- create_temp_directory ;;
                r <- iterative_body first_params rest pdf output_dir target temp_dir ;;
                release_temp keep temp_dir ;;;
                ret (Return r))).
  { intros first_params rest Hlen.
    apply cost_free; [spend|]. intro temp_dir.
    apply (cost_bind (mkRuns 1 1 (List.length rest + 2) 0) (mkRuns 0 0 0 0));
      [budget|apply cost_iterative_body|].
    intro r. apply cost_free; [spend|intro; spend]. }
  destruct (determine_tier_cases size) as [E|[E|[E|E]]];
    rewrite E; cbn [Z.eqb STRATEGIES params_sequence].
  - apply cost_free; [spend|intro; spend].
  - apply cost_free; [spend|intro]. apply Tail. cbn. lia.
  - apply cost_free; [spend|intro]. apply Tail. cbn. lia.
  - apply cost_free; [spend|intro]. apply Tail. cbn. lia.
Qed.

Lemma cost_run_aggressive_compression pdf output_dir target keep :
  costs_at_most (mkRuns 1 1 4 0) (run_aggressive_compression pdf output_dir target keep).
Proof.
  unfold run_aggressive_compression.
  apply cost_free; [spend|]. intro temp_dir.
  apply (cost_bind (mkRuns 1 1 4 0) (mkRuns 0 0 0 0)); [budget| |].
  - unfold aggressive_body. cbv zeta.
    apply (cost_bind (mkRuns 1 0 0 0) (mkRuns 0 1 4 0)); [budget|spend|].
    intros [images|]; [|spend].
    apply (cost_bind (mkRuns 0 1 0 0) (mkRuns 0 0 4 0)); [budget|spend|].
    intros [hocr|]; [|spend].
    apply (cost_aggressive pdf output_dir target temp_dir images hocr aggressive_params).
  - intro r. apply cost_free; [spend|intro; spend].
Qed.

Lemma cost_unlink_all ps : costs_at_most (mkRuns 0 0 0 0) (unlink_all ps).
Proof.
  induction ps as [|p ps IH]; cbn [unlink_all]; [spend|].
  apply cost_free; [spend|intro; exact IH].
Qed.

Lemma cost_split_parts pdf total pps temp_dir indices :
  forall acc,
    costs_at_most (mkRuns 0 0 0 (List.length indices))
      (split_parts pdf total pps temp_dir indices acc).
Proof.
  induction indices as [|i later IH]; intro acc;
    cbn [split_parts List.length]; cbv zeta; [spend|].
  destruct (total <? start_page_of pps i)%Z; [spend|].
  apply (cost_bind (mkRuns 0 0 0 1) (mkRuns 0 0 0 (List.length later))); [budget|spend|].
  intros [|]; cbn [negb]; [apply IH|spend].
Qed.

Lemma split_parts_length pdf total pps temp_dir indices :
  forall acc (w : World),
    match fst (split_parts pdf total pps temp_dir indices acc w) with
    | Some parts => (List.length parts <= List.length acc + List.length indices)%nat
    | None => True
    end.
Proof.
  induction indices as [|i later IH]; intros acc w;
    cbn [split_parts List.length]; cbv zeta; [cbn; lia|].
  destruct (total <? start_page_of pps i)%Z; [cbn; lia|].
  unfold bind at 1.
  destruct (split_pdf _ _ _ _ w) as [[|] w1]; cbn [negb]; [|exact I].
  specialize (IH (acc ++ [temp_part pdf temp_dir i]) w1).
  destruct (fst (split_parts _ _ _ _ later _ w1)); [|exact I].
  rewrite length_app in IH. cbn [List.length] in IH. lia.
Qed.

Lemma cost_compress_parts pdf output_dir args parts :
  forall i split_files,
    costs_at_most (mkRuns (List.length parts) (List.length parts)
                          (4 * List.length parts) 0)
      (compress_parts pdf output_dir args i parts split_files).
Proof.
  induction parts as [|part later IH]; intros i split_files;
    cbn [compress_parts]; cbv zeta; [spend|].
  apply (cost_bind (mkRuns 1 1 4 0)
           (mkRuns (List.length later) (List.length later) (4 * List.length later) 0));
    [unfold runs_le, runs_add; cbn [List.length renderings recognitions rebuilds extractions];
     lia
    |apply cost_run_aggressive_compression|].
  assert (Undo : costs_at_most
                   (mkRuns (List.length later) (List.length later)
                           (4 * List.length later) 0)
                   (unlink_all split_files ;;; ret false)).
  { apply cost_free; [apply cost_unlink_all|intro; spend]. }
  intros [[|] compressed]; [|exact Undo].
  destruct compressed as [compressed_path|]; [|exact Undo].
  apply cost_free; [|intro; apply IH].
  destruct (negb _); [|spend].
  apply cost_free; [spend|intro; spend].
Qed.

(** X10. The cost of the functions in runs of the external tools, whatever
    the tools answer. A preset search rebuilds at most once more than the
    sequence has presets; [run_iterative_compression] renders the pages
    once, runs the OCR pass once and rebuilds at most 7 times;
    [run_aggressive_compression] at most 4 times; a split attempt into [k]
    parts extracts at most [k] page ranges and runs at most [k] aggressive
    searches. *)
Theorem tool_runs_are_bounded :
  (forall first_params rest pdf output_dir target temp_dir images hocr,
     costs_at_most (mkRuns 0 0 (List.length (sequence first_params rest) + 1) 0)
       (try_presets first_params rest pdf output_dir target temp_dir images hocr)) /\
  (forall pdf output_dir target keep,
     costs_at_most (mkRuns 1 1 7 0)
       (run_iterative_compression pdf output_dir target keep)) /\
  (forall pdf output_dir target keep,
     costs_at_most (mkRuns 1 1 4 0)
       (run_aggressive_compression pdf output_dir target keep)) /\
  (forall pdf output_dir args k total_pages,
     let n := Z.to_nat k in
     costs_at_most (mkRuns n n (4 * n) n)
       (try_split_and_compress pdf output_dir args k total_pages)).
Proof.
  split; [intros; apply cost_try_presets|].
  split; [intros; apply cost_run_iterative_compression|].
  split; [intros; apply cost_run_aggressive_compression|].
  intros pdf output_dir args k total_pages n.
  unfold try_split_and_compress.
  destruct (k =? 0)%Z; [spend|]. cbv zeta.
  apply cost_free; [spend|]. intro temp_dir.
  apply (cost_bind (mkRuns n n (4 * n) n) (mkRuns 0 0 0 0)); [budget| |].
  - apply (cost_bind_post (mkRuns 0 0 0 n) (mkRuns n n (4 * n) 0))
      with (post := fun parts => match parts with
                                 | Some l => (List.length l <= n)%nat
                                 | None => True
                                 end).
    + budget.
    + intro w.
      pose proof (split_parts_length pdf total_pages (pages_per_split_of total_pages k)
                    temp_dir (seq 0 n) [] w) as H.
      rewrite length_seq in H. exact H.
    + pose proof (cost_split_parts pdf total_pages (pages_per_split_of total_pages k)
                    temp_dir (seq 0 n) []) as H.
      rewrite length_seq in H. exact H.
    + intros [l|] Hl; [|spend].
      eapply cost_le; [|apply cost_compress_parts]. unfold runs_le. cbn. lia.
  - intro r. apply cost_free; [spend|intro; spend].
Qed.

(** *** The loops that stop at the first fit *)

Lemma Qle_bool_above {x y : Q} : Qle_bool x y = false -> (y < x)%Q.
Proof.
  intro H. apply Qlt_bool_iff. unfold Qlt_bool. now rewrite H.
Qed.

(** The winner of a loop: rebuilt into [out], measured and copied to
    [final]. *)
Lemma winner_copied images hocr td p out final (w w1 : World) :
  reconstruct_pdf images hocr td p out w = (true, w1) ->
  Path_eqb out final = false ->
  let s := fst (stat_size_mb out w1) in
  let c := copy_file out final
             (mkWorld (files w1) (temp_live w1) (next_temp w1) (tool w1)
                      (log w1 ++ [Measured out s])) in
  match files (snd c) out with
  | Some n => s = Z.of_N n # MB /\ fst c = true /\ files (snd c) final = Some n
  | None => s = 0%Q /\ fst c = false
  end /\
  (success_leaves_output tools -> files (snd c) out <> None).
Proof.
  intros R Hne s c.
  assert (Src : files (snd c) out = files w1 out).
  { subst c. unfold copy_file. cbn [files].
    destruct (files w1 out) as [n|] eqn:F; [|cbn; exact F].
    rewrite Hne. cbn. now rewrite Hne. }
  rewrite Src. split.
  - subst s c. unfold stat_size_mb, copy_file. cbn [fst files].
    destruct (files w1 out) as [n|]; [|cbn; auto].
    rewrite Hne. cbn. rewrite Path_eqb_refl. auto.
  - intro truthful. unfold reconstruct_pdf in R.
    destruct (recode_pdf (tool w) images hocr p out) as [[ok written] t] eqn:Rc.
    pose proof (truthful _ _ _ _ _ _ _ _ Rc) as Hw.
    destruct written as [n|]; unfold bind, set_tool, write_opt, write_file, emit, ret in R;
      cbn [fst snd] in R; injection R as -> <-.
    + cbn [files]. rewrite Path_eqb_refl. discriminate.
    + now destruct Hw.
Qed.

(** [scan unfold_loop not_final IH E]: the trace of one round of a loop
    over presets, given the tactic that unfolds the loop in [E], the
    equation of the round, and the lemma that tells the outputs of the
    loop from [final]. *)
Ltac scan_rest IH E i w0 pre p tried_event :=
  let evs := fresh "evs" in
  let Eq := fresh "Eq" in
  let tried := fresh "tried" in
  let rejected := fresh "rejected" in
  let R := fresh "R" in
  let H := fresh "H" in
  destruct (IH (S i) w0) as (evs & Eq & tried & rejected & R & H);
  rewrite E in Eq, H; cbn [fst snd] in Eq, H;
  exists (pre ++ evs);
  split;
    [ rewrite Eq;
      match goal with HL : log w0 = _ |- _ => rewrite HL end;
      rewrite <- app_assoc; reflexivity |];
  exists (p :: tried), (pre ++ rejected);
  split; [tried_event; exact R|];
  destruct H as [(E1 & E2 & E3)|(p' & later' & s' & c & E1 & E2 & E3 & E4 & E5)];
  [ left; subst; auto
  | right; exists p', later', s', c; cbv zeta; cbn [List.length];
    rewrite Nat.add_succ_r; subst; rewrite <- ?app_assoc; auto ].

Ltac scan unfold_loop not_final IH E :=
  unfold_loop; cbv zeta in E; unfold bind at 1 in E;
  match type of E with
  | context [reconstruct_pdf ?im ?ho ?td ?p ?out ?w] =>
      let L := fresh "L" in
      let ok := fresh "ok" in
      let w1 := fresh "w1" in
      let Rb := fresh "Rb" in
      pose proof (reconstruct_pdf_log im ho td p out w) as L;
      destruct (reconstruct_pdf im ho td p out w) as [ok w1] eqn:Rb; cbn [fst snd] in L;
      destruct ok; cbn [negb] in E;
      [ unfold bind at 1 in E; rewrite get_file_size_mb_eq in E;
        pose proof (fun final Hne => winner_copied im ho td p out final w w1 Rb Hne) as W;
        cbv zeta in W;
        set (s := fst (stat_size_mb out w1)) in E, W;
        set (w2 := mkWorld _ _ _ _ _) in E, W;
        assert (L2 : log w2 = log w ++ [Reconstruct p out true; Measured out s])
          by (subst w2; cbn [log]; rewrite L, <- app_assoc; reflexivity);
        destruct (Qle_bool s _) eqn:F;
        [ unfold bind, ret in E;
          match type of E with
          | context [copy_file out ?final w2] =>
              pose proof (copy_file_log out final w2) as C;
              specialize (W final not_final);
              destruct (copy_file out final w2) as [c w3]; cbn [fst snd] in C, W;
              injection E as <- <-;
              exists (Reconstruct p out true :: Measured out s :: [Copied out final c]);
              split; [rewrite C, L2, <- app_assoc; reflexivity|];
              exists [], []; split; [constructor|]; right;
              exists p; eexists; exists s, c; cbv zeta;
              cbn [List.length]; rewrite Nat.add_0_r;
              split; [reflexivity|]; split; [now apply Qle_bool_iff|];
              split; [reflexivity|]; split; [reflexivity|]; exact W
          end
        | clear W; apply Qle_bool_above in F;
          match type of E with
          | context [_ (S ?i) _ w2] =>
              scan_rest IH E i w2 [Reconstruct p out true; Measured out s] p
                        ltac:(apply rejections_too_big; [exact F|])
          end ]
      | match type of E with
        | context [_ (S ?i) _ w1] =>
            scan_rest IH E i w1 [Reconstruct p out false] p
                      ltac:(apply rejections_failed)
        end ]
  end.

Lemma sequential_attempts_trace pdf output_dir target temp_dir images hocr
    (remaining : list Params) :
  forall i (w : World),
    let r := sequential_attempts pdf output_dir target temp_dir images hocr i remaining w in
    exists evs,
      log (snd r) = log w ++ evs /\
      scan_outcome (success_leaves_output tools) target
                   (seq_output pdf temp_dir) (final_path pdf output_dir)
                   i remaining (files (snd r)) (fst r) evs.
Proof.
  induction remaining as [|p later IH]; intros i w; cbv zeta.
  - exists []. split; [cbn; now rewrite app_nil_r|].
    exists [], []. split; [constructor|]. left. auto.
  - destruct (sequential_attempts pdf output_dir target temp_dir images hocr i
                (p :: later) w) as [res w'] eqn:E.
    cbn [fst snd].
    scan ltac:(cbn [sequential_attempts] in E)
         (seq_output_not_final pdf temp_dir output_dir i) IH E.
Qed.

Lemma aggressive_attempts_trace pdf output_dir target temp_dir images hocr
    (remaining : list Params) :
  forall i (w : World),
    let r := aggressive_attempts pdf output_dir target temp_dir images hocr i remaining w in
    exists evs,
      log (snd r) = log w ++ evs /\
      scan_outcome (success_leaves_output tools) target
                   (compressed_output pdf temp_dir) (final_path pdf output_dir)
                   i remaining (files (snd r)) (fst r) evs.
Proof.
  induction remaining as [|p later IH]; intros i w; cbv zeta.
  - exists []. split; [cbn; now rewrite app_nil_r|].
    exists [], []. split; [constructor|]. left. auto.
  - destruct (aggressive_attempts pdf output_dir target temp_dir images hocr i
                (p :: later) w) as [res w'] eqn:E.
    cbn [fst snd].
    scan ltac:(cbn [aggressive_attempts] in E)
         (compressed_output_not_final pdf temp_dir output_dir i) IH E.
Qed.

(** X9. The two loops that try presets one after the other stop at the
    first preset, in the order of the list, whose rebuild succeeds with a
    result of at most the target: every preset before it was rebuilt once
    and rejected (the rebuild failed or was above the target), none after
    it was run, and its output is what is copied to
    [<stem>_compressed.pdf]: the copy succeeds exactly when that output is
    on the disk, and the file delivered then has its bytes and the size
    that was measured. With a recode_pdf that leaves a file whenever it
    reports success the output is there. Without a fitting preset every
    one was tried and the loop answers [(False, None)]. *)
Theorem first_fit_in_list_order pdf output_dir target temp_dir images hocr
    (remaining : list Params) (i : nat) (w : World) :
  (let r := sequential_attempts pdf output_dir target temp_dir images hocr i remaining w in
   exists evs,
     log (snd r) = log w ++ evs /\
     scan_outcome (success_leaves_output tools) target
                  (seq_output pdf temp_dir) (final_path pdf output_dir)
                  i remaining (files (snd r)) (fst r) evs) /\
  (let r := aggressive_attempts pdf output_dir target temp_dir images hocr i remaining w in
   exists evs,
     log (snd r) = log w ++ evs /\
     scan_outcome (success_leaves_output tools) target
                  (compressed_output pdf temp_dir) (final_path pdf output_dir)
                  i remaining (files (snd r)) (fst r) evs).
Proof.
  split; [apply sequential_attempts_trace|apply aggressive_attempts_trace].
Qed.

End Logs.

(** ** What a success leaves on the disk *)

Section Delivery.

Context {T : Type} {tools : Pipeline T}.

Abbreviation World := (@World T).

Local Abbreviation same_named := (@same_named T).
Local Abbreviation named_shrunk := (@named_shrunk T).
Local Abbreviation keeps_named m := (@keeps_named T _ m).
Local Abbreviation search_frame := (@search_frame T).

Lemma within_target_spec (disk : Path -> option N) (target : Q) (p : Path) :
  within_target disk target p = true <->
  exists n, disk p = Some n /\ (Z.of_N n # MB <= target)%Q.
Proof.
  unfold within_target. split.
  - destruct (disk p) as [n|]; [|discriminate].
    intro H. exists n. split; [reflexivity|now apply Qle_bool_iff].
  - intros (n & -> & H). now apply Qle_bool_iff.
Qed.

Lemma reconstruct_pdf_frame images hocr d p out (w : World) :
  forall q, q <> out ->
    files (snd (reconstruct_pdf images hocr d p out w)) q = files w q.
Proof.
  intros q Hq. unfold reconstruct_pdf.
  destruct (recode_pdf (tool w) images hocr p out) as [[ok [n|]] t];
    unfold bind, set_tool, write_opt, write_file, emit, ret; cbn [files snd];
    [|reflexivity].
  destruct (Path_eqb_spec q out); [contradiction|reflexivity].
Qed.

Lemma copy_file_source src dst (w : World) :
  files (snd (copy_file src dst w)) src = files w src.
Proof.
  unfold copy_file. destruct (files w src) as [n|] eqn:E; [|cbn; exact E].
  destruct (Path_eqb_spec src dst) as [Eq|Ne]; cbn; [exact E|].
  destruct (Path_eqb_spec src dst); [contradiction|exact E].
Qed.

Section Truthful.

Hypothesis truthful : success_leaves_output tools.

Variables (pdf : PdfFile) (output_dir : Dir) (target : Q).
Variables (temp_dir : Dir) (images : list Path) (hocr : Path).

Abbreviation final := (final_path pdf output_dir).
Abbreviation rebuild := (reconstruct_pdf images hocr temp_dir).

(** A rebuild that succeeded and was measured within the target. *)
Lemma rebuilt_fits p out (w w1 : World) :
  rebuild p out w = (true, w1) ->
  Qle_bool (fst (stat_size_mb out w1)) target = true ->
  within_target (files w1) target out = true.
Proof.
  unfold reconstruct_pdf.
  destruct (recode_pdf (tool w) images hocr p out) as [[ok written] t] eqn:R.
  unfold bind, set_tool, write_opt, emit, ret.
  pose proof (truthful _ _ _ _ _ _ _ _ R) as Hw.
  destruct written as [n|]; unfold write_file, ret; cbn [fst snd];
    intro E; injection E as -> <-.
  - unfold stat_size_mb, within_target. cbn [fst files].
    now rewrite Path_eqb_refl.
  - now destruct Hw.
Qed.

(** Copying a file that fits to another path delivers it there. *)
Lemma copy_delivers src dst (w : World) :
  within_target (files w) target src = true ->
  Path_eqb src dst = false ->
  within_target (files (snd (copy_file src dst w))) target dst = true.
Proof.
  intros Hs Hd. apply within_target_spec in Hs. destruct Hs as (n & Hn & Hle).
  destruct (copy_file_present Hn Hd) as (_ & Hf & _).
  apply within_target_spec. now exists n.
Qed.

Lemma measured_fits p out i (w w1 : World) :
  rebuild p out w = (true, w1) ->
  Qle_bool (fst (stat_size_mb out w1)) target = true ->
  Path_eqb out final = false ->
  within_target
    (files (snd (copy_file out final
                   (mkWorld (files w1) (temp_live w1) (next_temp w1) (tool w1)
                            (log w1 ++ [Measured out i])))))
    target final = true.
Proof.
  intros R F Hne. apply copy_delivers; [|exact Hne].
  cbn [files]. exact (rebuilt_fits _ _ _ _ R F).
Qed.

Lemma sequential_attempts_delivers (remaining : list Params) :
  forall i (w w' : World) x,
    sequential_attempts pdf output_dir target temp_dir images hocr i remaining w
    = ((true, x), w') ->
    within_target (files w') target final = true.
Proof.
  induction remaining as [|p later IH]; intros i w w' x E; [discriminate|].
  cbn [sequential_attempts] in E. cbv zeta in E. unfold bind at 1 in E.
  destruct (rebuild p (seq_output pdf temp_dir i) w) as [ok w1] eqn:R.
  destruct ok; cbn [negb] in E; [|exact (IH _ _ _ _ E)].
  unfold bind at 1 in E. rewrite get_file_size_mb_eq in E.
  destruct (Qle_bool (fst (stat_size_mb (seq_output pdf temp_dir i) w1)) target) eqn:F;
    [|exact (IH _ _ _ _ E)].
  pose proof (measured_fits _ _ (fst (stat_size_mb (seq_output pdf temp_dir i) w1))
                _ _ R F (seq_output_not_final pdf temp_dir output_dir i)) as D.
  unfold bind, ret in E. destruct (copy_file _ _ _) as [c w3].
  injection E as _ <-. exact D.
Qed.

Lemma aggressive_attempts_delivers (remaining : list Params) :
  forall i (w w' : World) x,
    aggressive_attempts pdf output_dir target temp_dir images hocr i remaining w
    = ((true, x), w') ->
    within_target (files w') target final = true.
Proof.
  induction remaining as [|p later IH]; intros i w w' x E; [discriminate|].
  cbn [aggressive_attempts] in E. cbv zeta in E. unfold bind at 1 in E.
  destruct (rebuild p (compressed_output pdf temp_dir i) w) as [ok w1] eqn:R.
  destruct ok; cbn [negb] in E; [|exact (IH _ _ _ _ E)].
  unfold bind at 1 in E. rewrite get_file_size_mb_eq in E.
  destruct (Qle_bool (fst (stat_size_mb (compressed_output pdf temp_dir i) w1)) target)
    eqn:F; [|exact (IH _ _ _ _ E)].
  pose proof (measured_fits _ _ (fst (stat_size_mb (compressed_output pdf temp_dir i) w1))
                _ _ R F (compressed_output_not_final pdf temp_dir output_dir i)) as D.
  unfold bind, ret in E. destruct (copy_file _ _ _) as [c w3].
  injection E as _ <-. exact D.
Qed.

Variables (first_params : Params) (rest : list Params).

Abbreviation backtracking :=
  (backtrack first_params rest pdf target temp_dir images hocr).

(** Backtracking keeps a candidate that is on the disk and fits. *)
Lemma backtrack_delivers (n : nat) :
  forall (chosen : Path) (w : World),
    within_target (files w) target chosen = true ->
    (forall i, (i < n)%nat -> back_output pdf temp_dir i <> chosen) ->
    within_target (files (snd (backtracking n chosen w))) target
                  (fst (backtracking n chosen w)) = true /\
    (fst (backtracking n chosen w) = chosen \/
     exists i, (i < n)%nat /\ fst (backtracking n chosen w) = back_output pdf temp_dir i).
Proof.
  induction n as [|idx IH]; intros chosen w Hc Hne; [cbn; auto|].
  destruct (backtracking (S idx) chosen w) as [res w'] eqn:E. cbn [fst snd].
  cbn [backtrack] in E. cbv zeta in E. unfold bind at 1 in E.
  pose proof (reconstruct_pdf_frame images hocr temp_dir
                (nth idx (sequence first_params rest) first_params)
                (back_output pdf temp_dir idx) w chosen) as Fr.
  destruct (rebuild _ (back_output pdf temp_dir idx) w) as [ok w1] eqn:R.
  cbn [snd] in Fr.
  assert (Hc1 : within_target (files w1) target chosen = true).
  { unfold within_target in *. rewrite Fr; [exact Hc|].
    intro Eq. apply (Hne idx); [lia|now symmetry]. }
  destruct ok; cbn [negb] in E.
  - unfold bind at 1 in E. rewrite get_file_size_mb_eq in E.
    destruct (Qle_bool (fst (stat_size_mb (back_output pdf temp_dir idx) w1)) target)
      eqn:F.
    + pose proof (rebuilt_fits _ _ _ _ R F) as Hfit.
      set (w2 := mkWorld _ _ _ _ _) in E.
      destruct (IH (back_output pdf temp_dir idx) w2) as [D1 D2].
      * exact Hfit.
      * intros i Hi Eq. apply back_output_inj in Eq. lia.
      * rewrite E in D1, D2. cbn [fst snd] in D1, D2. split; [exact D1|].
        right. destruct D2 as [->|(i & Hi & ->)]; [exists idx|exists i]; split; auto; lia.
    + unfold ret in E. injection E as <- <-. cbn [files]. auto.
  - unfold ret in E. injection E as <- <-. auto.
Qed.

Lemma try_presets_delivers (w w' : World) x :
  try_presets first_params rest pdf output_dir target temp_dir images hocr w
  = ((true, x), w') ->
  within_target (files w') target final = true.
Proof.
  unfold try_presets. cbv zeta. unfold bind at 1.
  destruct (rebuild first_params (first_output pdf temp_dir) w) as [ok w1] eqn:R.
  destruct ok; [|apply sequential_attempts_delivers].
  unfold bind at 1. rewrite get_file_size_mb_eq.
  set (s1 := fst (stat_size_mb (first_output pdf temp_dir) w1)).
  destruct (Qle_bool s1 target) eqn:F.
  { pose proof (measured_fits _ _ s1 _ _ R F
                  (first_output_not_final pdf temp_dir output_dir)) as D.
    unfold bind, ret. destruct (copy_file _ _ _) as [c w3].
    intro E. injection E as _ <-. exact D. }
  destruct (Qlt_bool (target * threshold_factor) s1);
    [|apply sequential_attempts_delivers].
  set (w2 := mkWorld _ _ _ _ _).
  unfold bind at 1.
  destruct (rebuild _ (last_output pdf temp_dir) w2) as [ok_last w3] eqn:RL.
  destruct ok_last; cbn [negb]; [|discriminate].
  unfold bind at 1. rewrite get_file_size_mb_eq.
  set (sL := fst (stat_size_mb (last_output pdf temp_dir) w3)).
  unfold Qlt_bool.
  destruct (Qle_bool sL target) eqn:FL; cbn [negb]; [|discriminate].
  set (w4 := mkWorld _ _ _ _ _).
  unfold bind at 1.
  destruct (backtrack_delivers (List.length (sequence first_params rest) - 1)
              (last_output pdf temp_dir) w4) as [D1 D2].
  { exact (rebuilt_fits _ _ _ _ RL FL). }
  { intros i _. apply back_output_not_last. }
  destruct (backtracking _ (last_output pdf temp_dir) w4) as [chosen w5].
  cbn [fst snd] in D1, D2.
  assert (Hne : Path_eqb chosen final = false).
  { destruct D2 as [->|(i & _ & ->)];
      [apply last_output_not_final|apply back_output_not_final]. }
  pose proof (copy_delivers chosen final w5 D1 Hne) as D.
  unfold bind, ret. destruct (copy_file chosen final w5) as [c w6].
  intro E. injection E as _ <-. exact D.
Qed.

End Truthful.

(** *** The result of the backtracking *)

Section BestSoFar.

Variables (first_params : Params) (rest : list Params).
Variables (pdf : PdfFile) (output_dir : Dir) (target_size_mb : Q).
Variables (temp_dir : Dir) (image_files : list Path) (hocr_file : Path).

Abbreviation rebuild := (reconstruct_pdf image_files hocr_file temp_dir).
Abbreviation search :=
  (try_presets first_params rest pdf output_dir target_size_mb
               temp_dir image_files hocr_file).
Abbreviation first_out := (first_output pdf temp_dir).
Abbreviation last_out := (last_output pdf temp_dir).
Abbreviation final := (final_path pdf output_dir).
Abbreviation last_index := (List.length (sequence first_params rest) - 1)%nat.
Abbreviation last_params :=
  (nth last_index (sequence first_params rest) first_params).
Abbreviation back_out := (back_output pdf temp_dir).
Abbreviation preset_at := (fun i => nth i (sequence first_params rest) first_params).
Abbreviation kept := (kept_step preset_at back_out).
Abbreviation stopped := (stop_step target_size_mb preset_at back_out).
Abbreviation backtracking :=
  (backtrack first_params rest pdf target_size_mb temp_dir image_files hocr_file).

(** The copy of line 141 succeeds as soon as the candidate is on the
    disk: no candidate is the output path itself. *)
Lemma copy_of_candidate (j : nat) (w : World) :
  let chosen := if (j =? last_index)%nat then last_out else back_out j in
  files (snd (copy_file chosen final w)) chosen = files w chosen /\
  (forall n, files w chosen = Some n ->
     fst (copy_file chosen final w) = true /\
     files (snd (copy_file chosen final w)) final = Some n).
Proof.
  cbv zeta. split; [apply copy_file_source|].
  intros n Hn.
  assert (Hne : Path_eqb (if (j =? last_index)%nat then last_out else back_out j) final
                = false).
  { destruct (j =? last_index)%nat;
      [apply last_output_not_final|apply back_output_not_final]. }
  destruct (copy_file_present Hn Hne) as (C1 & C2 & _). auto.
Qed.

(** C1. When the first result is beyond 1.5 times the target and the
    last preset fits, the search rebuilds the presets [last - 1],
    [last - 2], ... in that order, keeps every one that is rebuilt into
    at most the target, stops at the first that is not, and copies to the
    output the result of the last index kept, [j]: every index from [j] to
    [last - 1] fitted, and index [j - 1], if any, ended the walk. The log
    lists every rebuild of the search: the first preset, the last, the
    kept ones and the one that stopped the walk. The copy succeeds exactly
    when the kept result is on the disk, and then
    [<stem>_compressed.pdf] holds its bytes; with a recode_pdf that leaves
    a file whenever it reports success this is always so, and the output
    measures at most the target. *)
Theorem backtracking_keeps_best_contiguous
    (w w1 w2 w3 w4 : World) (s1 sL : Q) :
  rebuild first_params first_out w = (true, w1) ->
  get_file_size_mb first_out w1 = (s1, w2) ->
  (target_size_mb * threshold_factor < s1)%Q ->
  rebuild last_params last_out w2 = (true, w3) ->
  get_file_size_mb last_out w3 = (sL, w4) ->
  (sL <= target_size_mb)%Q ->
  log w4 = log w ++ [Reconstruct first_params first_out true;
                     Measured first_out s1;
                     Reconstruct last_params last_out true;
                     Measured last_out sL] /\
  exists (j : nat) (size_at : nat -> Q) (stop : list Event) (copied : bool),
    let chosen := if (j =? last_index)%nat then last_out else back_out j in
    (j <= last_index)%nat /\
    (forall i, (j <= i < last_index)%nat -> (size_at i <= target_size_mb)%Q) /\
    stopped j stop /\
    log (snd (search w))
      = log w4
        ++ flat_map (kept size_at) (rev (seq j (last_index - j)))
        ++ stop
        ++ [Copied chosen final copied] /\
    fst (search w) = (true, Some final) /\
    (copied = true ->
     files (snd (search w)) final = files (snd (search w)) chosen /\
     files (snd (search w)) chosen <> None) /\
    (files (snd (search w)) chosen <> None -> copied = true) /\
    (success_leaves_output tools ->
     copied = true /\
     exists n,
       files (snd (search w)) chosen = Some n /\
       files (snd (search w)) final = Some n /\
       (Z.of_N n # MB <= target_size_mb)%Q).
Proof.
  intros H1 H2 Hfar H3 H4 HL.
  split.
  { rewrite (get_file_size_mb_log H4),
      (rebuild_log _ _ _ H3),
      (get_file_size_mb_log H2),
      (rebuild_log _ _ _ H1), <- !app_assoc. reflexivity. }
  rewrite (fit_at_last_backtracks first_params rest pdf output_dir target_size_mb
             temp_dir image_files hocr_file H1 H2 Hfar H3 H4 HL).
  cbn [fst snd].
  destruct (backtrack_trace first_params rest pdf target_size_mb temp_dir image_files
              hocr_file last_index last_out w4)
    as (j & size_at & stop & Hj & L & Hs & Hstop & Hv).
  set (b := backtracking last_index last_out w4) in *.
  destruct (copy_of_candidate j (snd b)) as [Src Cp]. cbv zeta in Src, Cp.
  rewrite <- Hv in Src, Cp.
  exists j, size_at, stop, (fst (copy_file (fst b) final (snd b))).
  cbv zeta. rewrite <- Hv.
  split; [exact Hj|]. split; [exact Hs|]. split; [exact Hstop|].
  split; [rewrite copy_file_log, L, <- !app_assoc; reflexivity|].
  split; [reflexivity|].
  split; [|split].
  - intro C. destruct (copy_file_content _ _ _ C) as (E1 & E2 & E3).
    split; [exact E1|]. rewrite E2. exact E3.
  - rewrite Src. intro Hc.
    destruct (files (snd b) (fst b)) as [n|] eqn:F; [|contradiction].
    exact (proj1 (Cp n eq_refl)).
  - intro truthful.
    assert (Fit : within_target (files w4) target_size_mb last_out = true).
    { rewrite get_file_size_mb_eq in H4.
      assert (Es : fst (stat_size_mb last_out w3) = sL) by (now injection H4).
      assert (Ew : files w4 = files w3) by (injection H4 as _ <-; reflexivity).
      rewrite Ew.
      apply (rebuilt_fits truthful target_size_mb temp_dir image_files hocr_file
               _ _ _ _ H3).
      rewrite Es. now apply Qle_bool_iff. }
    destruct (backtrack_delivers truthful pdf target_size_mb temp_dir image_files
                hocr_file first_params rest last_index last_out w4 Fit) as [D _].
    { intros i _. apply back_output_not_last. }
    fold b in D. apply within_target_spec in D. destruct D as (n & Hn & Hle).
    destruct (Cp n Hn) as [C1 C2].
    split; [exact C1|]. exists n. rewrite Src. auto.
Qed.

End BestSoFar.

(** *** What a search may touch *)

Lemma backtrack_keeps first_params rest pdf target i images hocr (n : nat) :
  forall chosen,
    keeps_named (backtrack first_params rest pdf target (Temp i) images hocr n chosen).
Proof.
  induction n as [|idx IH]; intro chosen; cbn [backtrack]; cbv zeta; [apply keeps_ret|].
  apply keeps_bind; [apply keeps_reconstruct|].
  intros [|]; cbn [negb]; [|apply keeps_ret].
  apply keeps_bind; [apply keeps_get_file_size_mb|]. intro s.
  destruct (Qle_bool s target); [apply IH|apply keeps_ret].
Qed.

Lemma sequential_attempts_frame pdf output_dir target i images hocr
    (remaining : list Params) :
  forall n,
    search_frame (final_path pdf output_dir)
      (sequential_attempts pdf output_dir target (Temp i) images hocr n remaining).
Proof.
  induction remaining as [|p later IH]; intros n.
  - apply frame_fail.
  - cbn [sequential_attempts]. cbv zeta.
    apply frame_bind; [apply keeps_reconstruct|]. intros [|]; cbn [negb]; [|apply IH].
    apply frame_bind; [apply keeps_get_file_size_mb|]. intro s.
    destruct (Qle_bool s target); [apply frame_copy|apply IH].
Qed.

Lemma try_presets_frame first_params rest pdf output_dir target i images hocr :
  search_frame (final_path pdf output_dir)
    (try_presets first_params rest pdf output_dir target (Temp i) images hocr).
Proof.
  unfold try_presets. cbv zeta.
  apply frame_bind; [apply keeps_reconstruct|].
  intros [|]; [|apply sequential_attempts_frame].
  apply frame_bind; [apply keeps_get_file_size_mb|]. intro s.
  destruct (Qle_bool s target); [apply frame_copy|].
  destruct (Qlt_bool (target * threshold_factor) s); [|apply sequential_attempts_frame].
  apply frame_bind; [apply keeps_reconstruct|].
  intros [|]; cbn [negb]; [|apply frame_fail].
  apply frame_bind; [apply keeps_get_file_size_mb|]. intro last_size.
  destruct (Qlt_bool target last_size); [apply frame_fail|].
  apply frame_bind; [apply backtrack_keeps|]. intro chosen. apply frame_copy.
Qed.

Lemma iterative_body_frame first_params rest pdf output_dir target i :
  search_frame (final_path pdf output_dir)
    (iterative_body first_params rest pdf output_dir target (Temp i)).
Proof.
  unfold iterative_body. cbv zeta.
  apply frame_bind; [apply keeps_deconstruct|]. intros [images|]; [|apply frame_fail].
  apply frame_bind; [apply keeps_analyze|]. intros [hocr|]; [|apply frame_fail].
  apply try_presets_frame.
Qed.

(** How [run_iterative_compression] ends, for a document that has a
    tier: the body of the [try] in a fresh temporary directory, then the
    [finally] clause. *)
Lemma run_iterative_compression_cases pdf output_dir target keep (w : World) :
  let size := fst (stat_size_mb (pdf_path pdf) w) in
  let w0 := mkWorld (files w) (temp_live w) (next_temp w) (tool w)
                    (log w ++ [Measured (pdf_path pdf) size]) in
  run_iterative_compression pdf output_dir target keep w
  = (emit (TierSkipped (pdf_path pdf)) ;;; ret (Return (false, None))) w0 \/
  exists tier strategy first_params rest,
    STRATEGIES tier = Some strategy /\
    params_sequence strategy = first_params :: rest /\
    run_iterative_compression pdf output_dir target keep w
    = (emit (StrategyApplied (pdf_path pdf) tier) ;;;
       temp_dir <- create_temp_directory ;;
       r <- iterative_body first_params rest pdf output_dir target temp_dir ;;
       release_temp keep temp_dir ;;;
       ret (Return r)) w0.
Proof.
  intros size w0.
  assert (Unfolded : forall tier,
             determine_tier size = tier ->
             run_iterative_compression pdf output_dir target keep w
             = (if (tier =? 0)%Z
                then emit (TierSkipped (pdf_path pdf)) ;;; ret (Return (false, None))
                else
                  match STRATEGIES tier with
                  | None => ret (Raise KeyError)
                  | Some strategy =>
                      emit (StrategyApplied (pdf_path pdf) tier) ;;;
                      match params_sequence strategy with
                      | [] => ret (Raise ValueError)
                      | first_params :: rest =>
                          temp_dir <- create_temp_directory ;;
                          r <- iterative_body first_params rest pdf output_dir target
                                              temp_dir ;;
                          release_temp keep temp_dir ;;;
                          ret (Return r)
                      end
                  end) w0).
  { intros tier <-. reflexivity. }
  destruct (determine_tier_cases size) as [E|[E|[E|E]]];
    rewrite (Unfolded _ E); [now left|..]; right.
  - exists 1%Z. do 3 eexists. split; [reflexivity|]. split; reflexivity.
  - exists 2%Z. do 3 eexists. split; [reflexivity|]. split; reflexivity.
  - exists 3%Z. do 3 eexists. split; [reflexivity|]. split; reflexivity.
Qed.

(** A body that owns a fresh temporary directory, followed by the
    [finally] clause. *)
Lemma owned_run {A} (body : Dir -> M A) (e : Event) keep (w0 : World) :
  let temp_dir := Temp (next_temp w0) in
  let v1 := mkWorld (files w0) (next_temp w0 :: temp_live w0) (S (next_temp w0))
                    (tool w0) (log w0 ++ [e]) in
  (emit e ;;;
   temp_dir <- create_temp_directory ;;
   r <- body temp_dir ;;
   release_temp keep temp_dir ;;;
   ret (Return r)) w0
  = (Return (fst (body temp_dir v1)),
     snd (release_temp keep temp_dir (snd (body temp_dir v1)))).
Proof.
  cbv zeta. unfold bind at 1. cbn [emit]. unfold bind at 1.
  cbn [create_temp_directory files temp_live next_temp tool log].
  unfold bind, ret. destruct (body _ _) as [r v2]. cbn [fst snd].
  now destruct (release_temp keep _ v2).
Qed.

Lemma run_aggressive_compression_eq pdf output_dir target keep (w : World) :
  let temp_dir := Temp (next_temp w) in
  let v1 := mkWorld (files w) (next_temp w :: temp_live w) (S (next_temp w))
                    (tool w) (log w) in
  run_aggressive_compression pdf output_dir target keep w
  = (fst (aggressive_body pdf output_dir target temp_dir v1),
     snd (release_temp keep temp_dir
            (snd (aggressive_body pdf output_dir target temp_dir v1)))).
Proof.
  cbv zeta. unfold run_aggressive_compression. unfold bind at 1.
  cbn [create_temp_directory]. unfold bind, ret.
  destruct (aggressive_body _ _ _ _ _) as [r v2]. cbn [fst snd].
  now destruct (release_temp keep _ v2).
Qed.

Lemma run_iterative_compression_frame pdf output_dir target keep (w : World) :
  let r := run_iterative_compression pdf output_dir target keep w in
  let final := final_path pdf output_dir in
  (fst r = Return (false, None) /\ same_named w (snd r)) \/
  (fst r = Return (true, Some final) /\
   forall q, is_named q = true -> q <> final -> files (snd r) q = files w q).
Proof.
  cbv zeta.
  destruct (run_iterative_compression_cases pdf output_dir target keep w)
    as [E|(tier & strategy & first_params & rest & _ & _ & E)];
    cbv zeta in E; rewrite E; clear E.
  - left. split; [reflexivity|]. intros q _. reflexivity.
  - rewrite owned_run. cbn [fst snd files temp_live next_temp tool log].
    set (i := next_temp w). set (v1 := mkWorld _ _ _ _ _).
    pose proof (iterative_body_frame first_params rest pdf output_dir target i v1) as F.
    destruct (iterative_body first_params rest pdf output_dir target (Temp i) v1)
      as [r v2]. cbn [fst snd] in *.
    pose proof (keeps_release_temp keep i v2) as KR.
    destruct (release_temp keep (Temp i) v2) as [[] v3]. cbn [fst snd] in *.
    destruct F as [[-> S]|[-> S]]; [left|right]; (split; [reflexivity|]).
    + intros q Hq. now rewrite (KR q Hq), (S q Hq).
    + intros q Hq Hne. now rewrite (KR q Hq), (S q Hq Hne).
Qed.

(** X3. Among the files of the named directories
    [run_iterative_compression] can only write [<stem>_compressed.pdf] in
    the output directory: every other file is as it was, whatever the
    outcome. When the function returns, its result is [(False, None)] or
    [(True, <stem>_compressed.pdf)]; and unless it returns success,
    [<stem>_compressed.pdf] is as it was too. *)
Theorem search_touches_only_its_output pdf output_dir target keep (w : World) :
  let r := run_iterative_compression pdf output_dir target keep w in
  let final := final_path pdf output_dir in
  (forall q, is_named q = true -> q <> final -> files (snd r) q = files w q) /\
  (forall res, fst r = Return res -> res = (false, None) \/ res = (true, Some final)) /\
  (fst r <> Return (true, Some final) -> same_named w (snd r)).
Proof.
  cbv zeta.
  destruct (run_iterative_compression_frame pdf output_dir target keep w)
    as [[E S]|[E S]]; cbv zeta in E, S; rewrite E.
  - split; [intros q Hq _; exact (S q Hq)|].
    split; [intros res H; injection H as <-; now left|].
    intros _. exact S.
  - split; [exact S|].
    split; [intros res H; injection H as <-; now right|].
    intro H. now contradiction H.
Qed.

(** *** What a successful search delivers *)

Section Delivered.

Hypothesis truthful : success_leaves_output tools.

Variables (pdf : PdfFile) (o : string) (target : Q).

Abbreviation final := (final_path pdf (Named o)).

Lemma iterative_body_delivers first_params rest temp_dir (w w' : World) x :
  iterative_body first_params rest pdf (Named o) target temp_dir w = ((true, x), w') ->
  within_target (files w') target final = true.
Proof.
  unfold iterative_body. cbv zeta. unfold bind at 1.
  destruct (deconstruct_pdf_to_images _ _ _ w) as [[images|] w1]; [|discriminate].
  unfold bind at 1.
  destruct (analyze_images_to_hocr images temp_dir w1) as [[hocr|] w2]; [|discriminate].
  apply (try_presets_delivers truthful).
Qed.

Lemma aggressive_body_delivers temp_dir (w w' : World) x :
  aggressive_body pdf (Named o) target temp_dir w = ((true, x), w') ->
  within_target (files w') target final = true.
Proof.
  unfold aggressive_body. cbv zeta. unfold bind at 1.
  destruct (deconstruct_pdf_to_images _ _ _ w) as [[images|] w1]; [|discriminate].
  unfold bind at 1.
  destruct (analyze_images_to_hocr images temp_dir w1) as [[hocr|] w2]; [|discriminate].
  apply (aggressive_attempts_delivers truthful).
Qed.

Lemma released_keeps_final keep (w : World) :
  forall d, (exists i, d = Temp i) ->
    within_target (files w) target final = true ->
    within_target (files (snd (release_temp keep d w))) target final = true.
Proof.
  intros d [i ->] H. unfold within_target in *.
  now rewrite (keeps_release_temp keep i w final eq_refl).
Qed.

Lemma run_aggressive_compression_delivers keep (w : World) x :
  fst (run_aggressive_compression pdf (Named o) target keep w) = (true, x) ->
  within_target (files (snd (run_aggressive_compression pdf (Named o) target keep w)))
                target final = true.
Proof.
  rewrite run_aggressive_compression_eq. cbn [fst snd].
  set (i := next_temp w). set (v1 := mkWorld _ _ _ _ _).
  destruct (aggressive_body pdf (Named o) target (Temp i) v1) as [r v2] eqn:B.
  cbn [fst snd]. intros ->.
  apply released_keeps_final; [now exists i|].
  exact (aggressive_body_delivers _ _ _ _ B).
Qed.

Lemma run_iterative_compression_delivers keep (w : World) x :
  fst (run_iterative_compression pdf (Named o) target keep w) = Return (true, x) ->
  within_target (files (snd (run_iterative_compression pdf (Named o) target keep w)))
                target final = true.
Proof.
  destruct (run_iterative_compression_cases pdf (Named o) target keep w)
    as [E|(tier & strategy & first_params & rest & _ & _ & E)];
    cbv zeta in E; rewrite E; clear E; [discriminate|].
  rewrite owned_run. cbn [fst snd files temp_live next_temp tool log].
  set (i := next_temp w). set (v1 := mkWorld _ _ _ _ _).
  destruct (iterative_body first_params rest pdf (Named o) target (Temp i) v1)
    as [r v2] eqn:B.
  cbn [fst snd]. intro Hx. injection Hx as ->.
  apply released_keeps_final; [now exists i|].
  exact (iterative_body_delivers _ _ _ _ _ _ B).
Qed.

(** X1. When recode_pdf leaves a file whenever it reports success, a search
    that answers [True] has delivered: [<stem>_compressed.pdf] is in the
    output directory and measures at most the target. This holds for
    [run_iterative_compression] and for [run_aggressive_compression],
    whether the temporary directory is kept or not. *)
Theorem successful_search_delivers (keep : bool) (w : World) :
  (forall x,
     fst (run_iterative_compression pdf (Named o) target keep w) = Return (true, x) ->
     exists n,
       files (snd (run_iterative_compression pdf (Named o) target keep w)) final = Some n /\
       (Z.of_N n # MB <= target)%Q) /\
  (forall x,
     fst (run_aggressive_compression pdf (Named o) target keep w) = (true, x) ->
     exists n,
       files (snd (run_aggressive_compression pdf (Named o) target keep w)) final = Some n /\
       (Z.of_N n # MB <= target)%Q).
Proof.
  split; intros x Hx; apply within_target_spec.
  - exact (run_iterative_compression_delivers keep w x Hx).
  - exact (run_aggressive_compression_delivers keep w x Hx).
Qed.

End Delivered.

(** *** The files of a split *)

Lemma part_scratch_not_part pdf output_dir (i j : nat) :
  part_scratch_path pdf output_dir i <> final_part_path_of pdf output_dir j.
Proof.
  unfold part_scratch_path, final_path, final_part_path_of, temp_part. cbn [pdf_stem].
  intro H. injection H as H. rewrite append_assoc in H.
  apply append_inv_head in H. discriminate H.
Qed.

Lemma final_part_path_inj pdf output_dir (i j : nat) :
  final_part_path_of pdf output_dir i = final_part_path_of pdf output_dir j -> i = j.
Proof.
  unfold final_part_path_of. intro H. injection H as H.
  apply append_inv_head in H. injection H as H.
  apply append_inv_tail in H. apply str_nat_inj in H. lia.
Qed.

Lemma ranges_from_le pps total (indices : list nat) :
  (List.length (ranges_from pps total indices) <= List.length indices)%nat.
Proof.
  induction indices as [|i later IH]; cbn [ranges_from List.length]; [lia|].
  destruct (total <? start_page_of pps i)%Z; cbn [List.length]; lia.
Qed.

(** Phase 1 returns one temporary part for each range that it
    extracted. *)
Lemma split_parts_shape pdf total pps temp_dir (indices : list nat) :
  forall acc (w w' : World) parts,
    split_parts pdf total pps temp_dir indices acc w = (Some parts, w') ->
    parts = acc ++ map (temp_part pdf temp_dir)
                       (firstn (List.length (ranges_from pps total indices)) indices).
Proof.
  induction indices as [|i later IH]; intros acc w w' parts.
  - intro H. injection H as <- _. cbn. now rewrite app_nil_r.
  - cbn [split_parts ranges_from]. cbv zeta.
    destruct (total <? start_page_of pps i)%Z.
    + intro H. injection H as <- _. cbn. now rewrite app_nil_r.
    + unfold bind at 1. destruct (split_pdf _ _ _ _ w) as [[|] w1]; cbn [negb];
        [|discriminate].
      intro H. rewrite (IH _ _ _ _ H). cbn [List.length firstn map].
      now rewrite <- app_assoc.
Qed.

Lemma unlink_all_frame (ps : list Path) :
  forall (w : World) q, ~ In q ps -> files (snd (unlink_all ps w)) q = files w q.
Proof.
  induction ps as [|p ps IH]; intros w q Hq; [reflexivity|].
  cbn [unlink_all]. unfold bind.
  destruct (unlink_if_exists_gone p w) as [_ Ho].
  destruct (unlink_if_exists p w) as [[] w1]. cbn [snd] in Ho.
  rewrite IH by (intro; apply Hq; now right).
  apply Ho. intros ->. apply Hq. now left.
Qed.

(** Lines 122 to 126: the result of the search is copied to the final
    part and unlinked. *)
Abbreviation rename_part compressed_path final_part_path :=
  (if negb (Path_eqb compressed_path final_part_path)
   then copy_file compressed_path final_part_path ;;; unlink_if_exists compressed_path
   else ret tt).

Lemma rename_part_frame (cmp fin : Path) (w : World) :
  forall q, q <> cmp -> q <> fin -> files (snd (rename_part cmp fin w)) q = files w q.
Proof.
  intros q Hc Hf. destruct (Path_eqb cmp fin); cbn [negb]; [reflexivity|].
  unfold bind.
  pose proof (copy_file_frame cmp fin w q Hf) as C.
  destruct (copy_file cmp fin w) as [c w2]. cbn [snd] in C.
  destruct (unlink_if_exists_gone cmp w2) as [_ O].
  destruct (unlink_if_exists cmp w2) as [[] w3]. cbn [snd] in *.
  now rewrite (O q Hc).
Qed.

Lemma rename_part_delivers (cmp fin : Path) (target : Q) (w : World) :
  cmp <> fin ->
  within_target (files w) target cmp = true ->
  within_target (files (snd (rename_part cmp fin w))) target fin = true.
Proof.
  intros Hne Hc. destruct (Path_eqb_spec cmp fin) as [Eq|_]; [contradiction|].
  cbn [negb]. unfold bind.
  assert (Hb : Path_eqb cmp fin = false)
    by (destruct (Path_eqb_spec cmp fin); [contradiction|reflexivity]).
  pose proof (copy_delivers target cmp fin w Hc Hb) as D.
  destruct (copy_file cmp fin w) as [c w2]. cbn [snd] in D.
  destruct (unlink_if_exists_gone cmp w2) as [_ O].
  destruct (unlink_if_exists cmp w2) as [[] w3]. cbn [snd] in *.
  unfold within_target in *. rewrite O; [exact D|].
  intro Eq. apply Hne. now symmetry.
Qed.

Section SplitFrames.

Variables (pdf : PdfFile) (output_dir : Dir) (args : Args).

Abbreviation part_path := (final_part_path_of pdf output_dir).
Abbreviation untouched q := (is_named q = true /\ ~ split_output pdf output_dir q).

Lemma untouched_not_part q i : untouched q -> q <> part_path i.
Proof. intros [_ H] ->. apply H. left. now exists i. Qed.

Lemma untouched_not_scratch q d i :
  untouched q -> q <> final_path (temp_part pdf d i) output_dir.
Proof. intros [_ H] ->. apply H. right. now exists i. Qed.

Lemma compress_parts_frame temp_dir (js : list nat) :
  forall i split_files (w : World) q,
    (forall p, In p split_files -> exists j, p = part_path j) ->
    untouched q ->
    files (snd (compress_parts pdf output_dir args i (map (temp_part pdf temp_dir) js)
                               split_files w)) q
    = files w q.
Proof.
  induction js as [|j later IH]; intros i split_files w q Hsf Hq; [reflexivity|].
  cbn [map compress_parts]. cbv zeta. unfold bind at 1.
  pose proof (run_aggressive_compression_frame (temp_part pdf temp_dir j) output_dir
                (target_size args) (args_keep_temp_on_failure args) w) as F.
  destruct (run_aggressive_compression (temp_part pdf temp_dir j) output_dir
              (target_size args) (args_keep_temp_on_failure args) w)
    as [[success compressed] w1].
  cbn [fst snd] in F.
  assert (Undo : forall v : World,
             files (snd ((unlink_all split_files ;;; ret false) v)) q = files v q).
  { intro v. unfold bind, ret.
    pose proof (unlink_all_frame split_files v q) as U.
    destruct (unlink_all split_files v) as [[] v']. cbn [snd] in *.
    apply U. intro Hin. destruct (Hsf _ Hin) as [j' ->].
    exact (untouched_not_part _ j' Hq eq_refl). }
  destruct F as [[Er K]|[Er K]]; injection Er as -> ->.
  - rewrite Undo. apply K, Hq.
  - unfold bind at 1.
    pose proof (rename_part_frame (final_path (temp_part pdf temp_dir j) output_dir)
                  (part_path i) w1 q
                  (untouched_not_scratch _ _ _ Hq) (untouched_not_part _ _ Hq)) as R.
    destruct (rename_part _ _ w1) as [[] w2]. cbn [snd] in R.
    rewrite IH; [|intros p Hp; apply in_app_or in Hp; destruct Hp as [Hp|[<-|[]]];
                  [now apply Hsf|now exists i]|exact Hq].
    rewrite R. apply K; [apply Hq|apply (untouched_not_scratch _ _ _ Hq)].
Qed.

(** The body of the [try] of [try_split_and_compress]. *)
Abbreviation attempt_body k total_pages temp_dir :=
  (parts <- split_parts pdf total_pages (pages_per_split_of total_pages k) temp_dir
                        (seq 0 (Z.to_nat k)) [] ;;
   match parts with
   | None => ret false
   | Some temp_split_files => compress_parts pdf output_dir args 0 temp_split_files []
   end).

Lemma try_split_and_compress_eq k total_pages (w : World) :
  (k =? 0)%Z = false ->
  let temp_dir := Temp (next_temp w) in
  let v1 := mkWorld (files w) (next_temp w :: temp_live w) (S (next_temp w))
                    (tool w) (log w) in
  try_split_and_compress pdf output_dir args k total_pages w
  = (Return (fst (attempt_body k total_pages temp_dir v1)),
     snd (release_temp (args_keep_temp_on_failure args) temp_dir
            (snd (attempt_body k total_pages temp_dir v1)))).
Proof.
  intro Hk. cbv zeta. unfold try_split_and_compress. rewrite Hk. cbv zeta.
  unfold bind at 1. cbn [create_temp_directory].
  unfold bind at 1. destruct (attempt_body k total_pages _ _) as [r v2].
  unfold bind, ret. cbn [fst snd].
  now destruct (release_temp _ _ v2).
Qed.

Lemma attempt_body_frame k total_pages i (w : World) q :
  untouched q ->
  files (snd (attempt_body k total_pages (Temp i) w)) q = files w q.
Proof.
  intro Hq. unfold bind.
  pose proof (split_parts_keeps pdf total_pages (pages_per_split_of total_pages k) i
                (seq 0 (Z.to_nat k)) [] w q (proj1 Hq)) as K.
  destruct (split_parts _ _ _ _ _ _ w) as [[parts|] w1] eqn:Sp; cbn [snd] in K;
    [|exact K].
  apply split_parts_shape in Sp. cbn [app] in Sp. subst parts.
  rewrite compress_parts_frame; [exact K|intros p []|exact Hq].
Qed.

Lemma try_split_and_compress_frame k total_pages (w : World) q :
  untouched q ->
  files (snd (try_split_and_compress pdf output_dir args k total_pages w)) q = files w q.
Proof.
  intro Hq. destruct (k =? 0)%Z eqn:Hk.
  - unfold try_split_and_compress. now rewrite Hk.
  - rewrite (try_split_and_compress_eq k total_pages w Hk). cbn [snd].
    rewrite (keeps_release_temp _ _ _ q (proj1 Hq)).
    now rewrite attempt_body_frame.
Qed.

Lemma try_counts_frame total_pages (ks : list Z) :
  forall (w : World) q,
    untouched q ->
    files (snd (try_counts pdf output_dir args total_pages ks w)) q = files w q.
Proof.
  induction ks as [|k later IH]; intros w q Hq; [reflexivity|].
  cbn [try_counts]. unfold bind at 1. cbn [emit].
  set (w0 := mkWorld _ _ _ _ _). unfold bind at 1.
  pose proof (try_split_and_compress_frame k total_pages w0 q Hq) as F.
  destruct (try_split_and_compress pdf output_dir args k total_pages w0) as [r w1].
  cbn [snd] in F.
  destruct r as [[|]|e]; [exact F| |exact F].
  now rewrite IH.
Qed.

Lemma run_splitting_protocol_frame (w : World) q :
  untouched q ->
  files (snd (run_splitting_protocol pdf output_dir args w)) q = files w q.
Proof.
  intro Hq. unfold run_splitting_protocol. unfold bind at 1. cbn [emit].
  unfold bind at 1. unfold get_pdf_page_count at 1.
  destruct (_ =? 0)%Z; [reflexivity|].
  unfold bind at 1. rewrite get_file_size_mb_eq.
  now rewrite try_counts_frame.
Qed.

End SplitFrames.

(** *** What [process_file] may touch *)

Lemma input_is_no_output (file_path : PdfFile) (output_dir : Dir) :
  pdf_suffix file_path = ".pdf" ->
  pdf_path file_path <> final_path file_path output_dir /\
  ~ split_output file_path output_dir (pdf_path file_path).
Proof.
  intro Hs. unfold pdf_path, pdf_name. rewrite Hs. split.
  - unfold final_path. intro H. injection H as _ H.
    apply append_inv_head in H. discriminate H.
  - intros [[i H]|[i H]].
    + unfold final_part_path_of in H. injection H as _ H.
      apply append_inv_head in H. discriminate H.
    + unfold part_scratch_path, final_path, temp_part in H. cbn [pdf_stem] in H.
      injection H as _ H. rewrite append_assoc in H.
      apply append_inv_head in H. discriminate H.
Qed.

Lemma process_file_frame (file_path : PdfFile) (args : Args) (w : World) q :
  is_named q = true ->
  q <> final_path file_path (args_output_dir args) ->
  ~ split_output file_path (args_output_dir args) q ->
  q <> (args_output_dir args, pdf_name file_path) \/ q = pdf_path file_path ->
  files (snd (process_file file_path args w)) q = files w q.
Proof.
  intros Hq Hfinal Hsplit Hcopy.
  unfold process_file. unfold bind at 1. rewrite get_file_size_mb_eq.
  set (w0 := mkWorld _ _ _ _ _).
  destruct (Qlt_bool _ (target_size args)).
  - unfold bind at 1. destruct (copy_small_files args); [|reflexivity].
    unfold bind, ret.
    pose proof (copy_file_frame (pdf_path file_path)
                  (args_output_dir args, pdf_name file_path) w0 q) as C.
    pose proof (copy_file_source (pdf_path file_path)
                  (args_output_dir args, pdf_name file_path) w0) as Cs.
    destruct (copy_file _ _ w0) as [c w1]. cbn [snd] in *.
    destruct Hcopy as [Hne| ->]; [now apply C|exact Cs].
  - unfold bind at 1. cbn [emit]. set (w1 := mkWorld _ _ _ _ _).
    unfold bind at 1.
    pose proof (run_iterative_compression_frame file_path (args_output_dir args)
                  (target_size args) (args_keep_temp_on_failure args) w1) as F.
    cbv zeta in F.
    destruct (run_iterative_compression _ _ _ _ w1) as [r w2]. cbn [fst snd] in F.
    assert (K : files w2 q = files w q).
    { destruct F as [[_ K]|[_ K]]; [now apply K|now apply K]. }
    destruct F as [[-> _]|[-> _]]; [|exact K].
    destruct (allow_splitting args); [|exact K].
    unfold bind, ret.
    pose proof (run_splitting_protocol_frame file_path (args_output_dir args) args
                  w2 q (conj Hq Hsplit)) as P.
    destruct (run_splitting_protocol _ _ _ w2) as [[b|e] w3]; cbn [snd] in *;
      now rewrite P.
Qed.

(** X4. [process_file] changes, among the files of the named directories,
    nothing but its own outputs in the output directory:
    [<stem>_compressed.pdf], the parts [<stem>_part<i>.pdf] with their
    [<stem>_temp_part<i>_compressed.pdf], and the copy of a small file
    under its own name. In particular it never modifies or removes its
    input, whose name ends in [.pdf], whatever happens. *)
Theorem process_file_touches_only_outputs
    (file_path : PdfFile) (args : Args) (w : World) :
  let output_dir := args_output_dir args in
  let w' := snd (process_file file_path args w) in
  (forall q,
     is_named q = true ->
     q <> final_path file_path output_dir ->
     ~ split_output file_path output_dir q ->
     q <> (output_dir, pdf_name file_path) ->
     files w' q = files w q) /\
  (is_named (pdf_path file_path) = true ->
   pdf_suffix file_path = ".pdf" ->
   files w' (pdf_path file_path) = files w (pdf_path file_path)).
Proof.
  cbv zeta. split.
  - intros q Hq Hf Hs Hc. apply process_file_frame; auto.
  - intros Hq Hs.
    destruct (input_is_no_output file_path (args_output_dir args) Hs) as [Hf Hp].
    apply process_file_frame; auto.
Qed.

(** *** What a successful split delivers *)

Section SplitDelivered.

Hypothesis truthful : success_leaves_output tools.

Variables (pdf : PdfFile) (o : string) (args : Args).

Abbreviation part_path := (final_part_path_of pdf (Named o)).
Abbreviation delivered w j :=
  (within_target (files w) (target_size args) (part_path j) = true).

Lemma compress_parts_delivers temp_dir (js : list nat) :
  forall i split_files (w w' : World),
    compress_parts pdf (Named o) args i (map (temp_part pdf temp_dir) js) split_files w
    = (true, w') ->
    (forall j, (j < i)%nat -> delivered w j) ->
    forall j, (j < i + List.length js)%nat -> delivered w' j.
Proof.
  induction js as [|j0 later IH]; intros i split_files w w' E Hi j Hj.
  - cbn in E. injection E as <-. apply Hi. cbn in Hj. lia.
  - cbn [map compress_parts] in E. cbv zeta in E. unfold bind at 1 in E.
    pose proof (run_aggressive_compression_frame (temp_part pdf temp_dir j0) (Named o)
                  (target_size args) (args_keep_temp_on_failure args) w) as F.
    pose proof (run_aggressive_compression_delivers truthful (temp_part pdf temp_dir j0) o
                  (target_size args) (args_keep_temp_on_failure args) w) as D.
    destruct (run_aggressive_compression (temp_part pdf temp_dir j0) (Named o)
                (target_size args) (args_keep_temp_on_failure args) w)
      as [[success compressed] w1].
    cbn [fst snd] in F, D.
    destruct F as [[Er K]|[Er K]]; injection Er as -> ->.
    + unfold bind, ret in E. destruct (unlink_all split_files w1). discriminate E.
    + specialize (D _ eq_refl). unfold bind at 1 in E.
      set (cmp := final_path (temp_part pdf temp_dir j0) (Named o)) in *.
      pose proof (rename_part_frame cmp (part_path i) w1) as RF.
      pose proof (rename_part_delivers cmp (part_path i) (target_size args) w1
                    (part_scratch_not_part pdf (Named o) j0 i) D) as RD.
      destruct (rename_part cmp (part_path i) w1) as [[] w2]. cbn [snd] in RF, RD.
      apply (IH (S i) _ w2 w' E); [|cbn [List.length] in Hj; lia].
      intros j' Hj'. destruct (Nat.eq_dec j' i) as [->|Hne]; [exact RD|].
      assert (Hcmp : part_path j' <> cmp).
      { intro Eq. symmetry in Eq. exact (part_scratch_not_part pdf (Named o) j0 j' Eq). }
      unfold within_target. rewrite RF; [|exact Hcmp|].
      * rewrite K; [apply Hi; lia|reflexivity|exact Hcmp].
      * intro Eq. apply final_part_path_inj in Eq. contradiction.
Qed.

Lemma try_split_and_compress_delivers k total_pages (w : World) :
  fst (try_split_and_compress pdf (Named o) args k total_pages w) = Return true ->
  forall j, (j < List.length (page_ranges total_pages k))%nat ->
    delivered (snd (try_split_and_compress pdf (Named o) args k total_pages w)) j.
Proof.
  destruct (k =? 0)%Z eqn:Hk.
  { unfold try_split_and_compress. rewrite Hk. discriminate. }
  rewrite (try_split_and_compress_eq pdf (Named o) args k total_pages w Hk).
  cbn [fst snd]. set (i := next_temp w). set (v1 := mkWorld _ _ _ _ _).
  match goal with
  | |- context [release_temp _ _ (snd ?body)] => destruct body as [b v2] eqn:B
  end.
  cbn [fst snd]. intros Hb j Hj. injection Hb as ->.
  unfold bind at 1 in B.
  destruct (split_parts _ _ _ _ _ _ v1) as [[parts|] w1] eqn:Sp; [|discriminate B].
  apply split_parts_shape in Sp. cbn [app] in Sp. subst parts.
  unfold within_target. rewrite (keeps_release_temp _ _ _ (part_path j) eq_refl).
  apply (compress_parts_delivers _ _ 0%nat [] w1 v2 B); [intros j' Hj'; lia|].
  cbn [Nat.add]. rewrite length_firstn, length_seq.
  unfold page_ranges in Hj.
  pose proof (ranges_from_le (pages_per_split_of total_pages k) total_pages
                (seq 0 (Z.to_nat k))) as Hle.
  rewrite length_seq in Hle. lia.
Qed.

Lemma try_counts_delivers total_pages (ks : list Z) :
  forall w : World,
    fst (try_counts pdf (Named o) args total_pages ks w) = Return true ->
    exists k, In k ks /\
      forall j, (j < List.length (page_ranges total_pages k))%nat ->
        delivered (snd (try_counts pdf (Named o) args total_pages ks w)) j.
Proof.
  induction ks as [|k later IH]; intro w; [discriminate|].
  destruct (try_counts pdf (Named o) args total_pages (k :: later) w) as [res w'] eqn:E.
  cbn [fst snd]. intros ->.
  cbn [try_counts] in E. unfold bind at 1 in E. cbn [emit] in E.
  set (w0 := mkWorld _ _ _ _ _) in E. unfold bind at 1 in E.
  pose proof (try_split_and_compress_delivers k total_pages w0) as D.
  destruct (try_split_and_compress pdf (Named o) args k total_pages w0) as [r w1].
  cbn [fst snd] in D.
  destruct r as [[|]|e]; unfold ret in E.
  - injection E as <-. exists k. split; [now left|]. exact (D eq_refl).
  - destruct (IH w1) as (k' & Hin & Hk'); [now rewrite E|].
    rewrite E in Hk'. cbn [snd] in Hk'. exists k'. split; [now right|exact Hk'].
  - discriminate E.
Qed.

Lemma run_splitting_protocol_delivers (w : World) :
  fst (run_splitting_protocol pdf (Named o) args w) = Return true ->
  exists k,
    (2 <= k <= max_splits args)%Z /\
    forall j,
      (j < List.length (page_ranges (pdfinfo (tool w) (pdf_path pdf)) k))%nat ->
      delivered (snd (run_splitting_protocol pdf (Named o) args w)) j.
Proof.
  destruct (run_splitting_protocol pdf (Named o) args w) as [res w'] eqn:E.
  cbn [fst snd]. intros ->.
  unfold run_splitting_protocol in E. unfold bind at 1 in E. cbn [emit] in E.
  set (w0 := mkWorld _ _ _ _ _) in E.
  unfold bind at 1 in E. unfold get_pdf_page_count at 1 in E.
  change (tool w0) with (tool w) in E.
  destruct (pdfinfo (tool w) (pdf_path pdf) =? 0)%Z; [discriminate E|].
  unfold bind at 1 in E. rewrite get_file_size_mb_eq in E.
  set (w1 := mkWorld _ _ _ _ _) in E.
  destruct (try_counts_delivers (pdfinfo (tool w) (pdf_path pdf))
              (range (calculate_split_strategy
                        (fst (stat_size_mb (pdf_path pdf) w0)) (max_splits args))
                     (max_splits args + 1)) w1) as (k & Hin & Hk);
    [now rewrite E|].
  rewrite E in Hk. cbn [snd] in Hk.
  exists k. split; [|exact Hk].
  apply range_in in Hin.
  pose proof (calculate_split_strategy_at_least_2
                (fst (stat_size_mb (pdf_path pdf) w0)) (max_splits args)). lia.
Qed.

(** X2. When recode_pdf leaves a file whenever it reports success, a split
    that answers [True] has delivered every part: for each page range of
    the split into [k] there is a [<stem>_part<i>.pdf] in the output
    directory that measures at most the target. For the protocol, [k] is
    one of the counts between 2 and [max_splits]. *)
Theorem successful_split_delivers :
  (forall k total_pages (w : World),
     fst (try_split_and_compress pdf (Named o) args k total_pages w) = Return true ->
     forall j, (j < List.length (page_ranges total_pages k))%nat ->
       exists n,
         files (snd (try_split_and_compress pdf (Named o) args k total_pages w))
               (part_path j) = Some n /\
         (Z.of_N n # MB <= target_size args)%Q) /\
  (forall w : World,
     fst (run_splitting_protocol pdf (Named o) args w) = Return true ->
     exists k,
       (2 <= k <= max_splits args)%Z /\
       forall j,
         (j < List.length (page_ranges (pdfinfo (tool w) (pdf_path pdf)) k))%nat ->
         exists n,
           files (snd (run_splitting_protocol pdf (Named o) args w)) (part_path j)
           = Some n /\
           (Z.of_N n # MB <= target_size args)%Q).
Proof.
  split.
  - intros k total_pages w H j Hj. apply within_target_spec.
    now apply try_split_and_compress_delivers.
  - intros w H. destruct (run_splitting_protocol_delivers w H) as (k & Hk & D).
    exists k. split; [exact Hk|].
    intros j Hj. apply within_target_spec. now apply D.
Qed.

End SplitDelivered.

(** *** What the answer of [process_file] means *)

Lemma run_splitting_protocol_returns pdf output_dir args (w : World) :
  exists b, fst (run_splitting_protocol pdf output_dir args w) = Return b.
Proof.
  unfold run_splitting_protocol. unfold bind at 1. cbn [emit].
  set (w0 := mkWorld _ _ _ _ _).
  unfold bind at 1. unfold get_pdf_page_count at 1.
  destruct (pdfinfo (tool w0) (pdf_path pdf) =? 0)%Z; [now exists false|].
  unfold bind at 1. rewrite get_file_size_mb_eq.
  apply try_counts_returns. intros k Hk. apply range_in in Hk.
  pose proof (calculate_split_strategy_at_least_2
                (fst (stat_size_mb (pdf_path pdf) w0)) (max_splits args)). lia.
Qed.

(** X5. When [process_file] answers [False], the named directories hold
    nothing that was not there before: every file is as it was or is
    gone, so no compressed document and no part of a split is left. *)
Theorem failed_processing_leaves_nothing
    (file_path : PdfFile) (args : Args) (w : World) :
  fst (process_file file_path args w) = false ->
  named_shrunk w (snd (process_file file_path args w)).
Proof.
  destruct (process_file file_path args w) as [res w'] eqn:E.
  cbn [fst snd]. intros ->.
  unfold process_file in E. unfold bind at 1 in E. rewrite get_file_size_mb_eq in E.
  set (w0 := mkWorld _ _ _ _ _) in E.
  destruct (Qlt_bool _ (target_size args)).
  { unfold bind, ret in E.
    destruct (copy_small_files args); [destruct (copy_file _ _ w0)|]; discriminate E. }
  unfold bind at 1 in E. cbn [emit] in E. set (w1 := mkWorld _ _ _ _ _) in E.
  unfold bind at 1 in E.
  pose proof (run_iterative_compression_frame file_path (args_output_dir args)
                (target_size args) (args_keep_temp_on_failure args) w1) as F.
  cbv zeta in F.
  destruct (run_iterative_compression _ _ _ _ w1) as [r w2]. cbn [fst snd] in F.
  destruct F as [[-> K]|[-> _]]; [|discriminate E].
  assert (K0 : named_shrunk w w2).
  { apply same_named_shrunk. intros q Hq. now rewrite (K q Hq). }
  destruct (allow_splitting args).
  - unfold bind, ret in E.
    destruct (run_splitting_protocol_returns file_path (args_output_dir args) args w2)
      as [b Hb].
    destruct (run_splitting_protocol file_path (args_output_dir args) args w2)
      as [s w3] eqn:P.
    cbn [fst] in Hb. subst s. injection E as -> <-.
    apply named_shrunk_trans with (b := w2); [exact K0|].
    exact (run_splitting_protocol_fail _ _ _ _ _ P).
  - unfold ret in E. injection E as <-. exact K0.
Qed.

Section Contract.

Hypothesis truthful : success_leaves_output tools.

Lemma run_splitting_protocol_pages pdf output_dir args (w : World) :
  fst (run_splitting_protocol pdf output_dir args w) = Return true ->
  pdfinfo (tool w) (pdf_path pdf) <> 0%Z.
Proof.
  unfold run_splitting_protocol. unfold bind at 1. cbn [emit].
  set (w0 := mkWorld _ _ _ _ _).
  unfold bind at 1. unfold get_pdf_page_count at 1. change (tool w0) with (tool w).
  destruct (Z.eqb_spec (pdfinfo (tool w) (pdf_path pdf)) 0); [discriminate|auto].
Qed.

(** X6. When recode_pdf leaves a file whenever it reports success and
    [process_file] answers [True], the document was below the target from
    the start, or [<stem>_compressed.pdf] is in the output directory and
    measures at most the target, or splitting was allowed, the page count
    that pdfinfo gave after the search is not [0], and for some count [k]
    between 2 and [max_splits] every part of the split of these pages
    into [k] is there and measures at most the target; with at least one
    page there is at least one part. *)
Theorem processed_means_delivered
    (file_path : PdfFile) (args : Args) (o : string) (w : World) :
  args_output_dir args = Named o ->
  fst (process_file file_path args w) = true ->
  let w' := snd (process_file file_path args w) in
  let searched :=
    snd (run_iterative_compression file_path (Named o) (target_size args)
           (args_keep_temp_on_failure args)
           (snd (emit (IterativeStarted (pdf_path file_path))
                   (snd (get_file_size_mb (pdf_path file_path) w))))) in
  let total_pages := pdfinfo (tool searched) (pdf_path file_path) in
  (fst (stat_size_mb (pdf_path file_path) w) < target_size args)%Q \/
  (exists n,
     files w' (final_path file_path (Named o)) = Some n /\
     (Z.of_N n # MB <= target_size args)%Q) \/
  (allow_splitting args = true /\
   total_pages <> 0%Z /\
   exists k,
     (2 <= k <= max_splits args)%Z /\
     ((1 <= total_pages)%Z -> (1 <= List.length (page_ranges total_pages k))%nat) /\
     forall j, (j < List.length (page_ranges total_pages k))%nat ->
       exists n,
         files w' (final_part_path_of file_path (Named o) j) = Some n /\
         (Z.of_N n # MB <= target_size args)%Q).
Proof.
  intros Hout. cbv zeta.
  destruct (process_file file_path args w) as [res w'] eqn:E.
  cbn [fst snd]. intros ->.
  pose (w0 := mkWorld (files w) (temp_live w) (next_temp w) (tool w)
                (log w ++ [Measured (pdf_path file_path)
                                    (fst (stat_size_mb (pdf_path file_path) w))])).
  pose (w1 := mkWorld (files w0) (temp_live w0) (next_temp w0) (tool w0)
                (log w0 ++ [IterativeStarted (pdf_path file_path)])).
  change (snd (emit (IterativeStarted (pdf_path file_path))
                 (snd (get_file_size_mb (pdf_path file_path) w)))) with w1.
  unfold process_file in E. unfold bind at 1 in E. rewrite get_file_size_mb_eq in E.
  fold w0 in E.
  destruct (Qlt_bool _ (target_size args)) eqn:Small.
  { left. now apply Qlt_bool_iff. }
  right.
  unfold bind at 1 in E. cbn [emit] in E. fold w1 in E.
  unfold bind at 1 in E. rewrite Hout in E.
  pose proof (run_iterative_compression_frame file_path (Named o)
                (target_size args) (args_keep_temp_on_failure args) w1) as F.
  pose proof (run_iterative_compression_delivers truthful file_path o
                (target_size args) (args_keep_temp_on_failure args) w1) as D.
  cbv zeta in F.
  destruct (run_iterative_compression _ _ _ _ w1) as [r w2]. cbn [fst snd] in *.
  destruct F as [[-> _]|[-> _]].
  - right. destruct (allow_splitting args); [|discriminate E].
    split; [reflexivity|]. unfold bind, ret in E.
    pose proof (run_splitting_protocol_delivers truthful file_path o args w2) as P.
    pose proof (run_splitting_protocol_pages file_path (Named o) args w2) as Pg.
    destruct (run_splitting_protocol file_path (Named o) args w2) as [[b|e] w3];
      cbn [fst snd] in P, Pg; [injection E as -> <-|discriminate E].
    split; [exact (Pg eq_refl)|].
    destruct (P eq_refl) as (k & Hk & Hparts).
    exists k. split; [exact Hk|]. split.
    + intro Hpages.
      destruct (page_ranges_length (pdfinfo (tool w2) (pdf_path file_path)) k Hpages)
        as (_ & Hlen & _); [lia|]. lia.
    + intros j Hj. apply within_target_spec. now apply Hparts.
  - left. unfold ret in E. injection E as <-.
    apply within_target_spec. exact (D _ eq_refl).
Qed.

End Contract.

End Delivery.

(** ** The split attempt, step by step *)

Section Attempt.

Context {T : Type} {tools : Pipeline T}.

Abbreviation World := (@World T).

Local Abbreviation named_shrunk := (@named_shrunk T).

Variables (pdf : PdfFile) (output_dir : Dir) (args : Args).

Abbreviation range_of pps total := (fun i => (start_page_of pps i, end_page_of pps total i)).

Lemma ranges_from_map pps total (indices : list nat) :
  ranges_from pps total indices
  = map (range_of pps total)
        (firstn (List.length (ranges_from pps total indices)) indices).
Proof.
  induction indices as [|i later IH]; cbn [ranges_from]; [reflexivity|].
  destruct (total <? start_page_of pps i)%Z; [reflexivity|].
  cbn [List.length firstn map]. f_equal. exact IH.
Qed.

Lemma logged_ranges_extractions temp_dir pps total ok (js : list nat) :
  logged_ranges (map (extraction pdf temp_dir pps total ok) js)
  = map (range_of pps total) js.
Proof. induction js as [|j js IH]; [reflexivity|]. cbn. f_equal. exact IH. Qed.

Lemma extractions_succeeded temp_dir pps total (js : list nat) :
  extraction_failed (map (extraction pdf temp_dir pps total true) js) = false.
Proof. induction js as [|j js IH]; [reflexivity|exact IH]. Qed.

Lemma extraction_failed_app (l m : list Event) :
  extraction_failed (l ++ m) = extraction_failed l || extraction_failed m.
Proof. apply existsb_app. Qed.

Lemma firstn_seq (m n a : nat) : (m <= n)%nat -> firstn m (seq a n) = seq a m.
Proof.
  revert n a. induction m as [|m IH]; intros n a H; [reflexivity|].
  destruct n as [|n]; [lia|]. cbn. f_equal. apply IH. lia.
Qed.

(** Phase 1 as seen in the log: one qpdf run for each range of the
    plan, in order, up to the first run that fails. *)
Lemma split_parts_trace total pps temp_dir (indices : list nat) :
  forall acc (w : World),
    let r := split_parts pdf total pps temp_dir indices acc w in
    let m := List.length (ranges_from pps total indices) in
    (fst r = Some (acc ++ map (temp_part pdf temp_dir) (firstn m indices)) /\
     log (snd r)
     = log w ++ map (extraction pdf temp_dir pps total true) (firstn m indices)) \/
    (fst r = None /\
     exists n i,
       (n < m)%nat /\ nth_error indices n = Some i /\
       log (snd r)
       = log w ++ map (extraction pdf temp_dir pps total true) (firstn n indices)
               ++ [extraction pdf temp_dir pps total false i]).
Proof.
  induction indices as [|i later IH]; intros acc w; cbv zeta.
  - left. cbn. rewrite !app_nil_r. auto.
  - destruct (split_parts pdf total pps temp_dir (i :: later) acc w) as [res w'] eqn:E.
    cbn [fst snd]. cbn [split_parts ranges_from] in *. cbv zeta in E.
    destruct (total <? start_page_of pps i)%Z.
    + unfold ret in E. injection E as <- <-. left. cbn. rewrite !app_nil_r. auto.
    + unfold bind at 1 in E.
      pose proof (split_pdf_log pdf (pdf_path (temp_part pdf temp_dir i))
                    (start_page_of pps i) (end_page_of pps total i) w) as L.
      destruct (split_pdf pdf _ _ _ w) as [ok w1]. cbn [fst snd] in L.
      destruct ok; cbn [negb] in E.
      * specialize (IH (acc ++ [temp_part pdf temp_dir i]) w1). cbv zeta in IH.
        rewrite E in IH. cbn [fst snd] in IH.
        destruct IH as [[-> Lg]|[-> (n & i' & Hn & Hi & Lg)]].
        -- left. cbn [List.length firstn map]. split; [now rewrite <- app_assoc|].
           rewrite Lg, L, <- app_assoc. reflexivity.
        -- right. split; [reflexivity|]. exists (S n), i'.
           cbn [List.length firstn map nth_error]. split; [lia|]. split; [exact Hi|].
           rewrite Lg, L, <- !app_assoc. reflexivity.
      * unfold ret in E. injection E as <- <-. right. split; [reflexivity|].
        exists 0%nat, i. cbn. split; [lia|]. split; [reflexivity|]. exact L.
Qed.

Lemma firstn_nth_error {A} (l : list A) :
  forall n x, nth_error l n = Some x -> firstn (S n) l = firstn n l ++ [x].
Proof.
  induction l as [|a l IH]; intros [|n] x H; try discriminate.
  - injection H as ->. reflexivity.
  - cbn. f_equal. now apply IH.
Qed.

(** What phase 1 wrote to the log, against the plan. *)
Lemma split_parts_ranges_prefix total pps temp_dir (indices : list nat) acc (w : World) :
  let r := split_parts pdf total pps temp_dir indices acc w in
  let m := List.length (ranges_from pps total indices) in
  exists evs,
    log (snd r) = log w ++ evs /\
    Forall (fun e => exists ok j, In j (firstn m indices) /\
                       e = extraction pdf temp_dir pps total ok j) evs /\
    (exists rest, logged_ranges evs ++ rest = ranges_from pps total indices) /\
    (List.length evs <= m)%nat /\
    match fst r with
    | Some parts =>
        parts = acc ++ map (temp_part pdf temp_dir) (firstn m indices) /\
        evs = map (extraction pdf temp_dir pps total true) (firstn m indices) /\
        logged_ranges evs = ranges_from pps total indices /\
        extraction_failed evs = false
    | None => extraction_failed evs = true
    end.
Proof.
  cbv zeta.
  destruct (split_parts_trace total pps temp_dir indices acc w)
    as [[Hr Lg]|[Hr (n & i & Hn & Hi & Lg)]]; cbv zeta in *; rewrite Hr.
  - set (m := List.length (ranges_from pps total indices)) in *.
    exists (map (extraction pdf temp_dir pps total true) (firstn m indices)).
    split; [exact Lg|].
    assert (Hlr : logged_ranges (map (extraction pdf temp_dir pps total true)
                                     (firstn m indices))
                  = ranges_from pps total indices).
    { rewrite logged_ranges_extractions. symmetry. apply ranges_from_map. }
    split; [apply Forall_forall; intros e He; apply in_map_iff in He;
            destruct He as (j & <- & Hj); now exists true, j|].
    split; [exists []; now rewrite app_nil_r|].
    split.
    { rewrite length_map, length_firstn. lia. }
    split; [reflexivity|]. split; [reflexivity|]. split; [exact Hlr|].
    apply extractions_succeeded.
  - set (m := List.length (ranges_from pps total indices)) in *.
    exists (map (extraction pdf temp_dir pps total true) (firstn n indices)
            ++ [extraction pdf temp_dir pps total false i]).
    split; [exact Lg|].
    assert (Hsplit : firstn m indices
                     = firstn n indices ++ [i] ++ skipn (S n) (firstn m indices)).
    { rewrite <- (firstn_skipn (S n) (firstn m indices)) at 1.
      rewrite firstn_firstn. replace (Nat.min (S n) m) with (S n) by lia.
      rewrite (firstn_nth_error indices n i Hi), <- app_assoc. reflexivity. }
    split.
    { apply Forall_app. split.
      - apply Forall_forall. intros e He. apply in_map_iff in He.
        destruct He as (j & <- & Hj). exists true, j. split; [|reflexivity].
        rewrite Hsplit. apply in_or_app. now left.
      - constructor; [|constructor]. exists false, i. split; [|reflexivity].
        rewrite Hsplit. apply in_or_app. right. now left. }
    split.
    { exists (map (range_of pps total) (skipn (S n) (firstn m indices))).
      rewrite logged_ranges_app, logged_ranges_extractions.
      rewrite (ranges_from_map pps total indices). fold m.
      rewrite Hsplit at 2. rewrite !map_app, <- !app_assoc. reflexivity. }
    split.
    { rewrite length_app, length_map, length_firstn. cbn [List.length]. lia. }
    rewrite extraction_failed_app. cbn. now rewrite orb_true_r.
Qed.

Lemma search_event_no_extraction (e : Event) :
  search_event e = true -> negb (is_extraction e) = true.
Proof. destruct e; cbn; auto; discriminate. Qed.

Lemma no_extraction_ranges (evs : list Event) :
  forallb (fun e => negb (is_extraction e)) evs = true ->
  logged_ranges evs = [] /\ extraction_failed evs = false /\
  filter is_extraction evs = [].
Proof.
  induction evs as [|e evs IH]; [auto|]. cbn [forallb]. intro H.
  apply andb_prop in H. destruct H as [He H]. destruct (IH H) as (I1 & I2 & I3).
  destruct e; try discriminate He; cbn; auto.
Qed.

(** The log of a split attempt: the qpdf runs of phase 1, then entries
    that are no qpdf run. *)
Lemma attempt_ranges k total_pages (w : World) :
  (k =? 0)%Z = false ->
  let r := try_split_and_compress pdf output_dir args k total_pages w in
  let temp_dir := Temp (next_temp w) in
  let pps := pages_per_split_of total_pages k in
  let m := List.length (page_ranges total_pages k) in
  exists evs1 evs2,
    log (snd r) = log w ++ evs1 ++ evs2 /\
    Forall (fun e => exists ok j, (j < m)%nat /\
                       e = extraction pdf temp_dir pps total_pages ok j) evs1 /\
    forallb (fun e => negb (is_extraction e)) evs2 = true /\
    (exists rest, logged_ranges evs1 ++ rest = page_ranges total_pages k) /\
    (extraction_failed evs1 = false ->
     evs1 = map (extraction pdf temp_dir pps total_pages true) (seq 0 m)) /\
    (extraction_failed evs1 = true -> fst r = Return false).
Proof.
  intro Hk. cbv zeta.
  rewrite (try_split_and_compress_eq pdf output_dir args k total_pages w Hk).
  cbn [fst snd].
  set (v1 := mkWorld _ _ _ _ _). set (d := Temp (next_temp w)).
  set (pps := pages_per_split_of total_pages k).
  destruct (split_parts_ranges_prefix total_pages pps d (seq 0 (Z.to_nat k)) [] v1)
    as (evs1 & L1 & X1 & Pre & Len & M). cbv zeta in L1, X1, Pre, Len, M.
  change (ranges_from pps total_pages (seq 0 (Z.to_nat k)))
    with (page_ranges total_pages k) in X1, Pre, Len, M.
  set (m := List.length (page_ranges total_pages k)) in *.
  assert (Hm : firstn m (seq 0 (Z.to_nat k)) = seq 0 m).
  { apply firstn_seq. subst m. unfold page_ranges.
    pose proof (ranges_from_le pps total_pages (seq 0 (Z.to_nat k))) as Hle.
    now rewrite length_seq in Hle. }
  rewrite Hm in X1, M.
  assert (X1' : Forall (fun e => exists ok j, (j < m)%nat /\
                          e = extraction pdf d pps total_pages ok j) evs1).
  { eapply Forall_impl; [|exact X1]. intros e (ok & j & Hj & ->).
    exists ok, j. split; [|reflexivity]. apply in_seq in Hj. lia. }
  unfold bind.
  destruct (split_parts pdf total_pages pps d (seq 0 (Z.to_nat k)) [] v1)
    as [[parts|] w1]; cbn [fst snd] in *.
  - destruct M as (_ & Ev & _ & Ok).
    destruct (only_phase2 (fun e => negb (is_extraction e)) search_event_no_extraction
                (fun _ => eq_refl) pdf output_dir args parts 0%nat [] w1)
      as (evs2 & L2 & X2).
    destruct (compress_parts pdf output_dir args 0 parts [] w1) as [b w2].
    cbn [fst snd] in *.
    exists evs1, (evs2 ++ [if args_keep_temp_on_failure args
                           then TempKept d else TempCleaned d]).
    split.
    { rewrite release_temp_log, L2, L1. subst v1. cbn [log].
      now rewrite <- !app_assoc. }
    split; [exact X1'|].
    split.
    { rewrite forallb_app, X2. now destruct (args_keep_temp_on_failure args). }
    split; [exact Pre|].
    split; [intros _; exact Ev|]. intro F. congruence.
  - exists evs1, [if args_keep_temp_on_failure args then TempKept d else TempCleaned d].
    split.
    { rewrite release_temp_log. unfold ret. cbn [snd]. rewrite L1. subst v1. cbn [log].
      now rewrite <- !app_assoc. }
    split; [exact X1'|].
    split; [now destruct (args_keep_temp_on_failure args)|].
    split; [exact Pre|].
    split; [intro F; congruence|reflexivity].
Qed.

(** C6. For [total_pages >= 1] and [k >= 1] the page ranges of a split
    into [k] are non-empty, follow one another from page 1 to the last
    page without gap or overlap, and together list every page of
    [[1, total_pages]] exactly once; and they are the ranges that
    [try_split_and_compress] hands to qpdf, in that order, each for its own
    [<stem>_temp_part<i>.pdf] in the temporary directory of the attempt:
    all of them when no extraction fails, and otherwise those up to the
    one that failed, which ends the attempt. *)
Theorem page_ranges_partition (total_pages k : Z) (w : World) :
  (1 <= total_pages)%Z -> (1 <= k)%Z ->
  let ranges := page_ranges total_pages k in
  let attempt := try_split_and_compress pdf output_dir args k total_pages w in
  (Forall (fun r => (fst r <= snd r)%Z) ranges /\
   chain 1 ranges total_pages /\
   flat_map pages_of ranges = range 1 (total_pages + 1)) /\
  exists evs,
    log (snd attempt) = log w ++ evs /\
    (exists rest, logged_ranges evs ++ rest = ranges) /\
    (extraction_failed evs = false ->
     logged_ranges evs = ranges /\
     filter is_extraction evs
     = map (extraction pdf (Temp (next_temp w)) (pages_per_split_of total_pages k)
                       total_pages true)
           (seq 0 (List.length ranges))) /\
    (extraction_failed evs = true -> fst attempt = Return false).
Proof.
  intros Ht Hk ranges attempt. split; [now apply page_ranges_chain|].
  assert (Hk0 : (k =? 0)%Z = false) by (apply Z.eqb_neq; lia).
  destruct (attempt_ranges k total_pages w Hk0)
    as (evs1 & evs2 & L & X1 & X2 & Pre & Ok & Ko). cbv zeta in *.
  destruct (no_extraction_ranges evs2 X2) as (N1 & N2 & N3).
  assert (F1 : filter is_extraction evs1 = evs1).
  { clear - X1. induction X1 as [|e evs (ok & j & _ & ->) _ IH]; [reflexivity|].
    cbn. now rewrite IH. }
  exists (evs1 ++ evs2). split; [exact L|].
  rewrite logged_ranges_app, extraction_failed_app, filter_app, N1, N2, N3, F1.
  rewrite !app_nil_r, orb_false_r.
  split; [exact Pre|]. split; [|exact Ko].
  intro F. specialize (Ok F). split; [|exact Ok].
  rewrite Ok, logged_ranges_extractions.
  subst ranges. unfold page_ranges.
  rewrite (ranges_from_map (pages_per_split_of total_pages k) total_pages
             (seq 0 (Z.to_nat k))) at 2.
  f_equal. symmetry. apply firstn_seq.
  pose proof (ranges_from_le (pages_per_split_of total_pages k) total_pages
                (seq 0 (Z.to_nat k))) as Hle.
  now rewrite length_seq in Hle.
Qed.

(** X14. Phase 1 of a split into [k] of a document of at least one page
    produces [n = ceil(total_pages / pages_per_split)] parts, which is at
    least one and at most [k], and can be fewer than [k]: when no
    extraction fails [split_parts] ran qpdf [n] times and returns the
    temporary parts 1 to [n]; when one fails it ran qpdf at most [n] times.
    Every run was for a part of the plan, of at least one page and at most
    [pages_per_split = ceil(total_pages / k)] pages. *)
Theorem page_ranges_count temp_dir (total_pages k : Z) (w : World) :
  (1 <= total_pages)%Z -> (1 <= k)%Z ->
  let pages_per_split := pages_per_split_of total_pages k in
  let n := Z.to_nat (pages_per_split_of total_pages pages_per_split) in
  let r := split_parts pdf total_pages pages_per_split temp_dir (seq 0 (Z.to_nat k)) [] w in
  (1 <= n <= Z.to_nat k)%nat /\
  exists evs,
    log (snd r) = log w ++ evs /\
    Forall (fun e => exists ok j,
              (j < n)%nat /\
              e = extraction pdf temp_dir pages_per_split total_pages ok j /\
              (1 <= end_page_of pages_per_split total_pages j
                    - start_page_of pages_per_split j + 1 <= pages_per_split)%Z) evs /\
    match fst r with
    | Some parts =>
        parts = map (temp_part pdf temp_dir) (seq 0 n) /\
        evs = map (extraction pdf temp_dir pages_per_split total_pages true) (seq 0 n)
    | None => (List.length evs <= n)%nat /\ extraction_failed evs = true
    end.
Proof.
  intros Ht Hk pps n r.
  destruct (page_ranges_length total_pages k Ht Hk) as (Hn & Hb & Hs).
  fold pps in Hn, Hs. fold n in Hn. rewrite Hn in Hb.
  split; [exact Hb|].
  destruct (split_parts_ranges_prefix total_pages pps temp_dir (seq 0 (Z.to_nat k)) [] w)
    as (evs & L & X & _ & Len & M). cbv zeta in L, X, Len, M.
  change (ranges_from pps total_pages (seq 0 (Z.to_nat k)))
    with (page_ranges total_pages k) in X, Len, M.
  rewrite Hn in X, Len, M.
  rewrite (firstn_seq n (Z.to_nat k) 0) in X, M by lia.
  fold r in L, M.
  exists evs. split; [exact L|]. split.
  - eapply Forall_impl; [|exact X]. intros e (ok & j & Hj & ->).
    exists ok, j. apply in_seq in Hj. split; [lia|]. split; [reflexivity|].
    assert (Hin : In (start_page_of pps j, end_page_of pps total_pages j)
                     (page_ranges total_pages k)).
    { unfold page_ranges. fold pps.
      rewrite (ranges_from_map pps total_pages (seq 0 (Z.to_nat k))).
      change (ranges_from pps total_pages (seq 0 (Z.to_nat k)))
        with (page_ranges total_pages k).
      rewrite Hn.
      rewrite (firstn_seq n (Z.to_nat k) 0) by lia.
      apply in_map_iff. exists j. split; [reflexivity|]. apply in_seq. lia. }
    rewrite Forall_forall in Hs. exact (Hs _ Hin).
  - destruct (fst r) as [parts|].
    + destruct M as (Hp & He & _). split; [exact Hp|exact He].
    + split; [exact Len|exact M].
Qed.

(** *** A part that fails *)

(** Lines 127 to 133: a part whose search fails ends phase 2 with
    [False], after every final part written so far was unlinked. *)
Lemma compress_parts_stops i part later split_files (w : World) :
  fst (fst (run_aggressive_compression part output_dir (target_size args)
              (args_keep_temp_on_failure args) w)) = false ->
  let r := compress_parts pdf output_dir args i (part :: later) split_files w in
  fst r = false /\
  (forall p, In p split_files -> files (snd r) p = None) /\
  snd r
  = snd (unlink_all split_files
           (snd (run_aggressive_compression part output_dir (target_size args)
                   (args_keep_temp_on_failure args) w))).
Proof.
  intros Hf. cbv zeta.
  destruct (compress_parts pdf output_dir args i (part :: later) split_files w)
    as [b w'] eqn:E.
  cbn [fst snd]. cbn [compress_parts] in E. cbv zeta in E. unfold bind at 1 in E.
  destruct (run_aggressive_compression part output_dir (target_size args)
              (args_keep_temp_on_failure args) w) as [[success compressed] w1].
  cbn [fst snd] in *. subst success. unfold bind, ret in E.
  destruct (unlink_all_gone split_files w1) as [Gone _].
  destruct (unlink_all split_files w1) as [[] w2]. cbn [snd] in *.
  injection E as <- <-. auto.
Qed.

(** Lines 97 to 99: an extraction that fails ends phase 1. *)
Lemma split_parts_stops total pps temp_dir i later acc (w : World) :
  (total <? start_page_of pps i)%Z = false ->
  fst (split_pdf pdf (pdf_path (temp_part pdf temp_dir i)) (start_page_of pps i)
                 (end_page_of pps total i) w) = false ->
  split_parts pdf total pps temp_dir (i :: later) acc w
  = (None, snd (split_pdf pdf (pdf_path (temp_part pdf temp_dir i)) (start_page_of pps i)
                          (end_page_of pps total i) w)).
Proof.
  intros Hlt Hf. cbn [split_parts]. cbv zeta. rewrite Hlt. unfold bind.
  destruct (split_pdf pdf _ _ _ w) as [ok w1]. cbn [fst snd] in *. now subst ok.
Qed.

Lemma aggressive_attempts_never part target temp_dir images hocr
    (remaining : list Params) :
  (forall t params i,
     fst (fst (recode_pdf t images hocr params (compressed_output part temp_dir i)))
     = false) ->
  forall i (w : World),
    fst (aggressive_attempts part output_dir target temp_dir images hocr i remaining w)
    = (false, None).
Proof.
  intro Never. induction remaining as [|p later IH]; intros i w; [reflexivity|].
  cbn [aggressive_attempts]. cbv zeta. unfold bind at 1.
  assert (Hok : fst (reconstruct_pdf images hocr temp_dir p
                       (compressed_output part temp_dir i) w) = false).
  { unfold reconstruct_pdf. specialize (Never (tool w) p i).
    destruct (recode_pdf (tool w) images hocr p (compressed_output part temp_dir i))
      as [[ok written] t]. cbn [fst] in Never. subst ok.
    destruct written; reflexivity. }
  destruct (reconstruct_pdf images hocr temp_dir p (compressed_output part temp_dir i) w)
    as [ok w1]. cbn [fst] in Hok. subst ok. cbn [negb]. apply IH.
Qed.

(** The search on a part that can never be compressed fails. *)
Lemma run_aggressive_compression_never j d (w : World) :
  part_never_compresses tools pdf j ->
  fst (run_aggressive_compression (temp_part pdf d j) output_dir (target_size args)
         (args_keep_temp_on_failure args) w) = (false, None).
Proof.
  intro Never. rewrite run_aggressive_compression_eq. cbn [fst].
  unfold aggressive_body. cbv zeta. unfold bind at 1.
  destruct (deconstruct_pdf_to_images _ _ _ _) as [[images|] w1]; [|reflexivity].
  unfold bind at 1.
  destruct (analyze_images_to_hocr images _ w1) as [[hocr|] w2]; [|reflexivity].
  apply aggressive_attempts_never. intros t params i. apply Never.
Qed.

Lemma compress_parts_never j d :
  part_never_compresses tools pdf j ->
  forall (js : list nat) i split_files (w : World),
    In j js ->
    fst (compress_parts pdf output_dir args i (map (temp_part pdf d) js) split_files w)
    = false.
Proof.
  intro Never. induction js as [|a js IH]; intros i split_files w Hin; [contradiction|].
  cbn [map compress_parts]. cbv zeta. unfold bind at 1.
  pose proof (run_aggressive_compression_never a d w) as Fail.
  destruct (run_aggressive_compression (temp_part pdf d a) output_dir (target_size args)
              (args_keep_temp_on_failure args) w) as [[success compressed] w1].
  cbn [fst] in Fail.
  assert (Undo : fst ((unlink_all split_files ;;; ret false) w1) = false).
  { unfold bind, ret. now destruct (unlink_all split_files w1). }
  destruct success; [|exact Undo].
  destruct Hin as [->|Hin]; [specialize (Fail Never); discriminate Fail|].
  destruct compressed as [compressed_path|]; [|exact Undo].
  unfold bind at 1. destruct (_ w1) as [[] w2]. now apply IH.
Qed.

Lemma split_parts_never j total pps temp_dir :
  part_never_extracts tools pdf j ->
  forall (indices : list nat) acc (w : World),
    In j (firstn (List.length (ranges_from pps total indices)) indices) ->
    fst (split_parts pdf total pps temp_dir indices acc w) = None.
Proof.
  intro Never. induction indices as [|i later IH]; intros acc w Hin; [contradiction|].
  cbn [split_parts ranges_from] in *. cbv zeta.
  destruct (total <? start_page_of pps i)%Z; [contradiction|].
  cbn [List.length firstn] in Hin. unfold bind at 1.
  assert (Hok : i = j ->
                fst (split_pdf pdf (pdf_path (temp_part pdf temp_dir i))
                       (start_page_of pps i) (end_page_of pps total i) w) = false).
  { intros ->. unfold split_pdf.
    specialize (Never (tool w) (start_page_of pps j) (end_page_of pps total j) temp_dir).
    destruct (qpdf (tool w) (pdf_path pdf) _ _ _) as [[ok written] t].
    cbn [fst] in Never. subst ok. destruct written; reflexivity. }
  destruct (split_pdf pdf _ _ _ w) as [ok w1]. cbn [fst] in Hok.
  destruct ok; cbn [negb]; [|reflexivity].
  destruct Hin as [E|Hin]; [specialize (Hok E); discriminate Hok|].
  now apply IH.
Qed.

(** A split attempt one of whose parts can never be extracted or never
    be compressed returns [False]. *)
Lemma try_split_and_compress_never j k total_pages (w : World) :
  part_never_extracts tools pdf j \/ part_never_compresses tools pdf j ->
  k <> 0%Z ->
  (j < List.length (page_ranges total_pages k))%nat ->
  fst (try_split_and_compress pdf output_dir args k total_pages w) = Return false.
Proof.
  intros Never Hk Hj.
  assert (Hk0 : (k =? 0)%Z = false) by now apply Z.eqb_neq.
  rewrite (try_split_and_compress_eq pdf output_dir args k total_pages w Hk0).
  cbn [fst]. f_equal.
  set (v1 := mkWorld _ _ _ _ _). set (d := Temp (next_temp w)).
  set (pps := pages_per_split_of total_pages k).
  assert (Hin : In j (firstn (List.length (ranges_from pps total_pages
                                             (seq 0 (Z.to_nat k))))
                             (seq 0 (Z.to_nat k)))).
  { change (ranges_from pps total_pages (seq 0 (Z.to_nat k)))
      with (page_ranges total_pages k).
    rewrite firstn_seq; [apply in_seq; lia|].
    pose proof (ranges_from_le pps total_pages (seq 0 (Z.to_nat k))) as Hle.
    now rewrite length_seq in Hle. }
  unfold bind.
  destruct (split_parts pdf total_pages pps d (seq 0 (Z.to_nat k)) [] v1)
    as [[parts|] w1] eqn:Sp; [|reflexivity].
  destruct Never as [Never|Never].
  - pose proof (split_parts_never j total_pages pps d Never _ [] v1 Hin) as N.
    rewrite Sp in N. discriminate N.
  - apply split_parts_shape in Sp. cbn [app] in Sp. subst parts.
    now apply (compress_parts_never j).
Qed.

Lemma try_counts_never j total_pages (ks : list Z) :
  part_never_extracts tools pdf j \/ part_never_compresses tools pdf j ->
  (forall k, In k ks -> k <> 0%Z /\ (j < List.length (page_ranges total_pages k))%nat) ->
  forall w : World,
    fst (try_counts pdf output_dir args total_pages ks w) = Return false.
Proof.
  intro Never. induction ks as [|k later IH]; intros Hks w; [reflexivity|].
  cbn [try_counts]. unfold bind at 1. cbn [emit]. set (w0 := mkWorld _ _ _ _ _).
  unfold bind at 1.
  destruct (Hks k (or_introl eq_refl)) as [Hk Hj].
  pose proof (try_split_and_compress_never j k total_pages w0 Never Hk Hj) as F.
  destruct (try_split_and_compress pdf output_dir args k total_pages w0) as [r w1].
  cbn [fst] in F. subst r. apply IH. intros k' Hk'. apply Hks. now right.
Qed.

Lemma run_splitting_protocol_never j (w : World) :
  part_never_extracts tools pdf j \/ part_never_compresses tools pdf j ->
  (forall k,
     (calculate_split_strategy (fst (stat_size_mb (pdf_path pdf) w)) (max_splits args)
      <= k <= max_splits args)%Z ->
     (j < List.length (page_ranges (pdfinfo (tool w) (pdf_path pdf)) k))%nat) ->
  fst (run_splitting_protocol pdf output_dir args w) = Return false.
Proof.
  intros Never Hj. unfold run_splitting_protocol. unfold bind at 1. cbn [emit].
  set (w0 := mkWorld _ _ _ _ _).
  unfold bind at 1. unfold get_pdf_page_count at 1.
  change (tool w0) with (tool w).
  destruct (pdfinfo (tool w) (pdf_path pdf) =? 0)%Z; [reflexivity|].
  unfold bind at 1. rewrite get_file_size_mb_eq.
  apply (try_counts_never j _ _ Never).
  intros k Hk. apply range_in in Hk.
  change (fst (stat_size_mb (pdf_path pdf) w0))
    with (fst (stat_size_mb (pdf_path pdf) w)) in Hk.
  pose proof (calculate_split_strategy_at_least_2
                (fst (stat_size_mb (pdf_path pdf) w)) (max_splits args)).
  split; [lia|]. apply Hj. lia.
Qed.

(** C5. A split attempt is all or nothing.
    - A part whose search fails ends phase 2 with [False], whatever was
      done before, and every final part written so far is unlinked; an
      extraction that fails ends phase 1.
    - An attempt that returns [False] leaves no file behind in a named
      directory: every file there is one that was there before, unchanged,
      so the final parts it had produced are gone before the next count is
      tried.
    - When one part can never be extracted, or never be compressed, every
      attempt that has this part returns [False], and so does the protocol
      once every count up to [max_splits] has such a part.
    - When the protocol ends in failure, every count from the planner's to
      [max_splits] was tried, and starting from an output directory
      without [<stem>_part<i>.pdf] files none remains. *)
Theorem failed_split_leaves_no_parts :
  (forall i part later split_files (w : World),
     fst (fst (run_aggressive_compression part output_dir (target_size args)
                 (args_keep_temp_on_failure args) w)) = false ->
     let r := compress_parts pdf output_dir args i (part :: later) split_files w in
     fst r = false /\ forall p, In p split_files -> files (snd r) p = None) /\
  (forall total_pages pages_per_split temp_dir i later acc (w : World),
     (total_pages <? start_page_of pages_per_split i)%Z = false ->
     fst (split_pdf pdf (pdf_path (temp_part pdf temp_dir i))
                    (start_page_of pages_per_split i)
                    (end_page_of pages_per_split total_pages i) w) = false ->
     fst (split_parts pdf total_pages pages_per_split temp_dir (i :: later) acc w) = None) /\
  (forall k total_pages (w : World),
     fst (try_split_and_compress pdf output_dir args k total_pages w) = Return false ->
     named_shrunk w (snd (try_split_and_compress pdf output_dir args k total_pages w))) /\
  (forall j k total_pages (w : World),
     part_never_extracts tools pdf j \/ part_never_compresses tools pdf j ->
     k <> 0%Z ->
     (j < List.length (page_ranges total_pages k))%nat ->
     fst (try_split_and_compress pdf output_dir args k total_pages w) = Return false) /\
  (forall j (w : World),
     part_never_extracts tools pdf j \/ part_never_compresses tools pdf j ->
     (forall k,
        (calculate_split_strategy (fst (stat_size_mb (pdf_path pdf) w)) (max_splits args)
         <= k <= max_splits args)%Z ->
        (j < List.length (page_ranges (pdfinfo (tool w) (pdf_path pdf)) k))%nat) ->
     fst (run_splitting_protocol pdf output_dir args w) = Return false) /\
  (forall w : World,
     fst (run_splitting_protocol pdf output_dir args w) = Return false ->
     named_shrunk w (snd (run_splitting_protocol pdf output_dir args w)) /\
     (pdfinfo (tool w) (pdf_path pdf) <> 0%Z ->
      forall k,
        (calculate_split_strategy (fst (stat_size_mb (pdf_path pdf) w)) (max_splits args)
         <= k <= max_splits args)%Z ->
        In (TryParts k) (log (snd (run_splitting_protocol pdf output_dir args w)))) /\
     (forall o, output_dir = Named o ->
        (forall i, files w (final_part_path_of pdf output_dir i) = None) ->
        forall i, files (snd (run_splitting_protocol pdf output_dir args w))
                        (final_part_path_of pdf output_dir i) = None)).
Proof.
  split.
  { intros i part later split_files w Hf.
    destruct (compress_parts_stops i part later split_files w Hf) as (H1 & H2 & _).
    auto. }
  split.
  { intros total_pages pps temp_dir i later acc w Hlt Hf.
    now rewrite (split_parts_stops total_pages pps temp_dir i later acc w Hlt Hf). }
  split.
  { intros k total_pages w.
    destruct (try_split_and_compress pdf output_dir args k total_pages w) as [r w'] eqn:E.
    cbn [fst snd]. intros ->. exact (try_split_and_compress_fail _ _ _ _ _ _ _ E). }
  split; [intros j k total_pages w; apply try_split_and_compress_never|].
  split; [intros j w; apply run_splitting_protocol_never|].
  intros w.
  destruct (run_splitting_protocol pdf output_dir args w) as [r w'] eqn:E.
  cbn [fst snd]. intros ->. pose proof (run_splitting_protocol_fail _ _ _ _ _ E) as S.
  split; [exact S|]. split.
  - intros Hpages k Hk.
    unfold run_splitting_protocol in E. unfold bind at 1 in E. cbn [emit] in E.
    set (w0 := mkWorld _ _ _ _ _) in E.
    unfold bind at 1 in E. unfold get_pdf_page_count at 1 in E.
    change (tool w0) with (tool w) in E.
    destruct (Z.eqb_spec (pdfinfo (tool w) (pdf_path pdf)) 0); [contradiction|].
    unfold bind at 1 in E. rewrite get_file_size_mb_eq in E.
    apply (try_counts_all_tried _ _ _ _ _ _ _ E). apply range_in.
    change (fst (stat_size_mb (pdf_path pdf) w0))
      with (fst (stat_size_mb (pdf_path pdf) w)). lia.
  - intros o -> Hnone i.
    destruct (S (final_part_path_of pdf (Named o) i) eq_refl) as [G|G]; [exact G|].
    rewrite G. apply Hnone.
Qed.

End Attempt.

(** ** Temporary directories *)

Section Tidy.

Context {T : Type} {tools : Pipeline T}.

Abbreviation World := (@World T).

Local Abbreviation stays_tidy own m := (@preserves T (@tidy T own) _ m).
Local Abbreviation temps_in_order := (@temps_in_order T).
Local Abbreviation tidy := (@tidy T).

Lemma tidy_refl own (w : World) : tidy own w w.
Proof. intros W _. auto. Qed.

Lemma tidy_trans own (a b c : World) : tidy own a b -> tidy own b c -> tidy own a c.
Proof.
  intros H1 H2 Wa Oa. destruct (H1 Wa Oa) as (Wb & Lb & Nb).
  destruct (H2 Wb) as (Wc & Lc & Nc).
  { intros i Hi. rewrite Lb. now apply Oa. }
  split; [exact Wc|]. split; [congruence|lia].
Qed.

Lemma tidy_ret own {A} (a : A) : stays_tidy own (ret a).
Proof. apply preserves_ret, tidy_refl. Qed.

Lemma tidy_bind own {A B} (m : M A) (k : A -> M B) :
  stays_tidy own m -> (forall a, stays_tidy own (k a)) -> stays_tidy own (bind m k).
Proof. apply preserves_bind, tidy_trans. Qed.

Lemma tidy_unchanged own (w w' : World) :
  files w' = files w -> temp_live w' = temp_live w -> next_temp w' = next_temp w ->
  tidy own w w'.
Proof.
  intros F L N [W1 W2] _. split; [split|split; [exact L|lia]].
  - intros i Hi. rewrite L in Hi. rewrite N. now apply W1.
  - intros i name. rewrite F, L. apply W2.
Qed.

Lemma tidy_emit own e : stays_tidy own (emit e).
Proof. intro w. now apply tidy_unchanged. Qed.

Lemma tidy_set_tool own t : stays_tidy own (set_tool t).
Proof. intro w. now apply tidy_unchanged. Qed.

Lemma tidy_get_file_size_mb own p : stays_tidy own (get_file_size_mb p).
Proof. intro w. now apply tidy_unchanged. Qed.

Lemma tidy_get_pdf_page_count own pdf : stays_tidy own (get_pdf_page_count pdf).
Proof. intro w. now apply tidy_unchanged. Qed.

Lemma tidy_write_file own d name n :
  allowed own d -> stays_tidy own (write_file (d, name) n).
Proof.
  intros Hd w [W1 W2] Hown. split; [split|split; [reflexivity|cbn; lia]].
  - exact W1.
  - intros i nm. cbn [write_file snd files temp_live].
    destruct (Path_eqb_spec (Temp i, nm) (d, name)) as [Eq|Ne]; [|apply W2].
    intros _. injection Eq as <- _. now apply Hown.
Qed.

Lemma tidy_write_opt own d name o :
  allowed own d -> stays_tidy own (write_opt (d, name) o).
Proof. intro Hd. destruct o; [now apply tidy_write_file|apply tidy_ret]. Qed.

Lemma tidy_write_all own d fs : allowed own d -> stays_tidy own (write_all d fs).
Proof.
  intro Hd. induction fs as [|[name n] fs IH]; [apply tidy_ret|].
  cbn [write_all]. apply tidy_bind; [now apply tidy_write_file|intros _; exact IH].
Qed.

Lemma tidy_remove_file own p : stays_tidy own (remove_file p).
Proof.
  intros w [W1 W2] _. split; [split|split; [reflexivity|cbn; lia]].
  - exact W1.
  - intros i nm. cbn [remove_file snd files temp_live].
    destruct (Path_eqb (Temp i, nm) p); [congruence|apply W2].
Qed.

Lemma tidy_unlink_if_exists own p : stays_tidy own (unlink_if_exists p).
Proof.
  unfold unlink_if_exists. apply tidy_bind.
  - intro w. now apply tidy_unchanged.
  - intros [|]; [|apply tidy_ret].
    apply tidy_bind; [apply tidy_remove_file|intro; apply tidy_emit].
Qed.

Lemma tidy_unlink_all own ps : stays_tidy own (unlink_all ps).
Proof.
  induction ps as [|p ps IH]; [apply tidy_ret|].
  cbn [unlink_all]. apply tidy_bind; [apply tidy_unlink_if_exists|intro; exact IH].
Qed.

Lemma tidy_copy_file own src d name :
  allowed own d -> stays_tidy own (copy_file src (d, name)).
Proof.
  intros Hd w. unfold copy_file.
  assert (Fail : tidy own w (snd ((emit (Copied src (d, name) false) ;;; ret false) w)))
    by (now apply tidy_unchanged).
  destruct (files w src) as [n|]; [|exact Fail].
  destruct (Path_eqb src (d, name)); [exact Fail|].
  revert w Fail. intros w _.
  apply (tidy_bind own (write_file (d, name) n)); [now apply tidy_write_file|].
  intros _. apply tidy_bind; [apply tidy_emit|intro; apply tidy_ret].
Qed.

Lemma tidy_reconstruct own images hocr td p d name :
  allowed own d -> stays_tidy own (reconstruct_pdf images hocr td p (d, name)).
Proof.
  intros Hd w. unfold reconstruct_pdf.
  destruct (recode_pdf (tool w) images hocr p (d, name)) as [[ok written] t].
  apply (tidy_bind own (set_tool t)); [apply tidy_set_tool|intros _].
  apply tidy_bind; [now apply tidy_write_opt|intros _].
  apply tidy_bind; [apply tidy_emit|intros _; apply tidy_ret].
Qed.

Lemma tidy_split_pdf own pdf d name a b :
  allowed own d -> stays_tidy own (split_pdf pdf (d, name) a b).
Proof.
  intros Hd w. unfold split_pdf.
  destruct (qpdf (tool w) (pdf_path pdf) a b (d, name)) as [[ok written] t].
  apply (tidy_bind own (set_tool t)); [apply tidy_set_tool|intros _].
  apply tidy_bind; [now apply tidy_write_opt|intros _].
  apply tidy_bind; [apply tidy_emit|intros _; apply tidy_ret].
Qed.

Lemma tidy_deconstruct own pdf d at_dpi :
  allowed own d -> stays_tidy own (deconstruct_pdf_to_images pdf d at_dpi).
Proof.
  intros Hd w. unfold deconstruct_pdf_to_images.
  destruct (pdftoppm (tool w) (pdf_path pdf) at_dpi) as [[ok pages] t].
  apply (tidy_bind own (set_tool t)); [apply tidy_set_tool|intros _].
  apply tidy_bind; [now apply tidy_write_all|intros _].
  apply tidy_bind; [apply tidy_emit|intros _].
  destruct ok; [destruct pages|]; apply tidy_ret.
Qed.

Lemma tidy_analyze own images d :
  allowed own d -> stays_tidy own (analyze_images_to_hocr images d).
Proof.
  intros Hd w. unfold analyze_images_to_hocr.
  destruct (tesseract (tool w) images) as [merged t].
  apply (tidy_bind own (set_tool t)); [apply tidy_set_tool|intros _].
  destruct merged.
  - apply tidy_bind; [now apply tidy_write_file|intros _].
    apply tidy_bind; [apply tidy_emit|intros _; apply tidy_ret].
  - apply tidy_bind; [apply tidy_emit|intros _; apply tidy_ret].
Qed.

(** *** The searches in their temporary directory *)

Section InTemp.

Variables (pdf : PdfFile) (o : string) (target : Q) (i : nat).

Lemma own_temp : allowed (Some i) (Temp i).
Proof. reflexivity. Qed.

Lemma any_named own : allowed own (Named o).
Proof. exact I. Qed.

Lemma tidy_backtrack first_params rest images hocr (n : nat) :
  forall chosen,
    stays_tidy (Some i)
      (backtrack first_params rest pdf target (Temp i) images hocr n chosen).
Proof.
  induction n as [|idx IH]; intro chosen; cbn [backtrack]; cbv zeta; [apply tidy_ret|].
  apply tidy_bind; [apply tidy_reconstruct, own_temp|].
  intros [|]; cbn [negb]; [|apply tidy_ret].
  apply tidy_bind; [apply tidy_get_file_size_mb|]. intro s.
  destruct (Qle_bool s target); [apply IH|apply tidy_ret].
Qed.

Lemma tidy_copy_to_final src {A} (a : A) :
  stays_tidy (Some i) (copy_file src (final_path pdf (Named o)) ;;; ret a).
Proof.
  apply tidy_bind; [apply tidy_copy_file, any_named|intro; apply tidy_ret].
Qed.

Lemma tidy_sequential images hocr (remaining : list Params) :
  forall n,
    stays_tidy (Some i)
      (sequential_attempts pdf (Named o) target (Temp i) images hocr n remaining).
Proof.
  induction remaining as [|p later IH]; intro n; [apply tidy_ret|].
  cbn [sequential_attempts]. cbv zeta.
  apply tidy_bind; [apply tidy_reconstruct, own_temp|].
  intros [|]; cbn [negb]; [|apply IH].
  apply tidy_bind; [apply tidy_get_file_size_mb|]. intro s.
  destruct (Qle_bool s target); [apply tidy_copy_to_final|apply IH].
Qed.

Lemma tidy_aggressive images hocr (remaining : list Params) :
  forall n,
    stays_tidy (Some i)
      (aggressive_attempts pdf (Named o) target (Temp i) images hocr n remaining).
Proof.
  induction remaining as [|p later IH]; intro n; [apply tidy_ret|].
  cbn [aggressive_attempts]. cbv zeta.
  apply tidy_bind; [apply tidy_reconstruct, own_temp|].
  intros [|]; cbn [negb]; [|apply IH].
  apply tidy_bind; [apply tidy_get_file_size_mb|]. intro s.
  destruct (Qle_bool s target); [apply tidy_copy_to_final|apply IH].
Qed.

Lemma tidy_try_presets first_params rest images hocr :
  stays_tidy (Some i)
    (try_presets first_params rest pdf (Named o) target (Temp i) images hocr).
Proof.
  unfold try_presets. cbv zeta.
  apply tidy_bind; [apply tidy_reconstruct, own_temp|].
  intros [|]; [|apply tidy_sequential].
  apply tidy_bind; [apply tidy_get_file_size_mb|]. intro s.
  destruct (Qle_bool s target); [apply tidy_copy_to_final|].
  destruct (Qlt_bool (target * threshold_factor) s); [|apply tidy_sequential].
  apply tidy_bind; [apply tidy_reconstruct, own_temp|].
  intros [|]; cbn [negb]; [|apply tidy_ret].
  apply tidy_bind; [apply tidy_get_file_size_mb|]. intro last_size.
  destruct (Qlt_bool target last_size); [apply tidy_ret|].
  apply tidy_bind; [apply tidy_backtrack|]. intro chosen. apply tidy_copy_to_final.
Qed.

Lemma tidy_iterative_body first_params rest :
  stays_tidy (Some i) (iterative_body first_params rest pdf (Named o) target (Temp i)).
Proof.
  unfold iterative_body. cbv zeta.
  apply tidy_bind; [apply tidy_deconstruct, own_temp|]. intros [images|]; [|apply tidy_ret].
  apply tidy_bind; [apply tidy_analyze, own_temp|]. intros [hocr|]; [|apply tidy_ret].
  apply tidy_try_presets.
Qed.

Lemma tidy_aggressive_body :
  stays_tidy (Some i) (aggressive_body pdf (Named o) target (Temp i)).
Proof.
  unfold aggressive_body. cbv zeta.
  apply tidy_bind; [apply tidy_deconstruct, own_temp|]. intros [images|]; [|apply tidy_ret].
  apply tidy_bind; [apply tidy_analyze, own_temp|]. intros [hocr|]; [|apply tidy_ret].
  apply tidy_aggressive.
Qed.

End InTemp.

(** *** A directory that is made, used and removed *)

Lemma filter_fresh (n : nat) (l : list nat) :
  (forall j, In j l -> (j < n)%nat) ->
  filter (fun j => negb (Nat.eqb n j)) (n :: l) = l.
Proof.
  intro H. cbn [filter]. rewrite Nat.eqb_refl. cbn [negb].
  induction l as [|a l IH]; [reflexivity|].
  cbn [filter]. destruct (Nat.eqb_spec n a) as [->|_]; cbn [negb].
  - pose proof (H a (or_introl eq_refl)). lia.
  - f_equal. apply IH. intros j Hj. apply H. now right.
Qed.

(** The world with a fresh temporary directory. *)
Lemma fresh_in_order (w : World) :
  temps_in_order w ->
  temps_in_order (mkWorld (files w) (next_temp w :: temp_live w) (S (next_temp w))
                          (tool w) (log w)).
Proof.
  intros [W1 W2]. split.
  - cbn [temp_live next_temp]. intros j [<-|Hj]; [lia|]. pose proof (W1 j Hj). lia.
  - cbn [temp_live files]. intros j name Hf. right. exact (W2 j name Hf).
Qed.

(** Removing the directory that was made last. *)
Lemma removed_in_order (w v : World) :
  temps_in_order w ->
  temps_in_order v ->
  temp_live v = next_temp w :: temp_live w ->
  (S (next_temp w) <= next_temp v)%nat ->
  let v' := snd (cleanup_directory (Temp (next_temp w)) v) in
  temps_in_order v' /\ temp_live v' = temp_live w /\ (next_temp w <= next_temp v')%nat.
Proof.
  intros [W1 W2] [V1 V2] L N. cbn [cleanup_directory snd temp_live next_temp files].
  rewrite L, (filter_fresh _ _ W1).
  split; [split|split; [reflexivity|lia]].
  - cbn [temp_live next_temp]. intros j Hj. pose proof (W1 j Hj). lia.
  - cbn [temp_live files]. intros j name. cbn [fst Dir_eqb].
    destruct (Nat.eqb_spec j (next_temp w)) as [->|Hne]; [congruence|].
    intro Hf. pose proof (V2 j name Hf) as Hin. rewrite L in Hin.
    destruct Hin as [Eq|Hin]; [congruence|exact Hin].
Qed.

Lemma tidy_scoped own {A B} (body : Dir -> M A) (f : A -> B) :
  (forall i, stays_tidy (Some i) (body (Temp i))) ->
  stays_tidy own
    (temp_dir <- create_temp_directory ;;
     r <- body temp_dir ;;
     release_temp false temp_dir ;;;
     ret (f r)).
Proof.
  intros Hb w.
  match goal with
  | |- context [snd (?m w)] => destruct (m w) as [res w'] eqn:E
  end.
  cbn [snd]. intros W Hown.
  unfold bind at 1 in E. cbn [create_temp_directory] in E.
  pose proof (fresh_in_order w W) as W1.
  set (v1 := mkWorld _ _ _ _ _) in *.
  unfold bind at 1 in E.
  destruct (Hb (next_temp w) v1 W1) as (W2 & L2 & N2).
  { intros j Hj. injection Hj as <-. now left. }
  destruct (body (Temp (next_temp w)) v1) as [r v2]. cbn [snd] in *.
  unfold bind, ret in E. cbn [release_temp] in E.
  pose proof (removed_in_order w v2 W W2) as R. cbv zeta in R.
  destruct (cleanup_directory (Temp (next_temp w)) v2) as [[] v3]. cbn [snd] in *.
  injection E as _ <-. apply R; [exact L2|exact N2].
Qed.

Lemma tidy_run_aggressive_compression own pdf o target :
  stays_tidy own (run_aggressive_compression pdf (Named o) target false).
Proof.
  unfold run_aggressive_compression.
  apply (tidy_scoped own (aggressive_body pdf (Named o) target) (fun r => r)).
  intro i. apply tidy_aggressive_body.
Qed.

Lemma tidy_run_iterative_compression own pdf o target :
  stays_tidy own (run_iterative_compression pdf (Named o) target false).
Proof.
  unfold run_iterative_compression.
  apply tidy_bind; [apply tidy_get_file_size_mb|]. intro size. cbv zeta.
  destruct (determine_tier size =? 0)%Z.
  - apply tidy_bind; [apply tidy_emit|intro; apply tidy_ret].
  - destruct (STRATEGIES (determine_tier size)) as [strategy|]; [|apply tidy_ret].
    apply tidy_bind; [apply tidy_emit|intros _].
    destruct (params_sequence strategy) as [|first_params rest]; [apply tidy_ret|].
    apply (tidy_scoped own (iterative_body first_params rest pdf (Named o) target)
             (fun r => Return r)).
    intro i. apply tidy_iterative_body.
Qed.

(** *** The split *)

Section SplitInTemp.

Variables (pdf : PdfFile) (o : string) (args : Args).

Hypothesis no_retention : args_keep_temp_on_failure args = false.

Lemma tidy_split_parts total pps i (indices : list nat) :
  forall acc,
    stays_tidy (Some i) (split_parts pdf total pps (Temp i) indices acc).
Proof.
  induction indices as [|n later IH]; intro acc; [apply tidy_ret|].
  cbn [split_parts]. cbv zeta.
  destruct (total <? start_page_of pps n)%Z; [apply tidy_ret|].
  apply tidy_bind; [apply tidy_split_pdf, own_temp|].
  intros [|]; cbn [negb]; [apply IH|apply tidy_ret].
Qed.

Lemma tidy_compress_parts own (parts : list PdfFile) :
  forall i split_files,
    stays_tidy own (compress_parts pdf (Named o) args i parts split_files).
Proof.
  induction parts as [|part later IH]; intros i split_files; [apply tidy_ret|].
  cbn [compress_parts]. cbv zeta. rewrite no_retention.
  apply tidy_bind; [apply tidy_run_aggressive_compression|].
  assert (Undo : stays_tidy own (unlink_all split_files ;;; ret false))
    by (apply tidy_bind; [apply tidy_unlink_all|intro; apply tidy_ret]).
  intros [[|] [compressed_path|]]; try exact Undo.
  apply tidy_bind; [|intro; apply IH].
  destruct (negb _); [|apply tidy_ret].
  apply tidy_bind; [apply tidy_copy_file, (any_named o)|intro].
  apply tidy_unlink_if_exists.
Qed.

Lemma tidy_try_split_and_compress own k total_pages :
  stays_tidy own (try_split_and_compress pdf (Named o) args k total_pages).
Proof.
  unfold try_split_and_compress.
  destruct (k =? 0)%Z; [apply tidy_ret|]. cbv zeta. rewrite no_retention.
  apply (tidy_scoped own
           (fun temp_dir =>
              parts <- split_parts pdf total_pages (pages_per_split_of total_pages k)
                                   temp_dir (seq 0 (Z.to_nat k)) [] ;;
              match parts with
              | None => ret false
              | Some temp_split_files =>
                  compress_parts pdf (Named o) args 0 temp_split_files []
              end)
           (fun r => Return r)).
  intro i. apply tidy_bind; [apply tidy_split_parts|].
  intros [parts|]; [apply tidy_compress_parts|apply tidy_ret].
Qed.

Lemma tidy_try_counts own total_pages (ks : list Z) :
  stays_tidy own (try_counts pdf (Named o) args total_pages ks).
Proof.
  induction ks as [|k later IH]; [apply tidy_ret|].
  cbn [try_counts]. apply tidy_bind; [apply tidy_emit|intros _].
  apply tidy_bind; [apply tidy_try_split_and_compress|].
  intros [[|]|e]; [apply tidy_ret|exact IH|apply tidy_ret].
Qed.

Lemma tidy_run_splitting_protocol own :
  stays_tidy own (run_splitting_protocol pdf (Named o) args).
Proof.
  unfold run_splitting_protocol.
  apply tidy_bind; [apply tidy_emit|intros _].
  apply tidy_bind; [apply tidy_get_pdf_page_count|]. intro total_pages.
  destruct (total_pages =? 0)%Z; [apply tidy_ret|].
  apply tidy_bind; [apply tidy_get_file_size_mb|]. intro size.
  apply tidy_try_counts.
Qed.

End SplitInTemp.

Lemma tidy_process_file (file_path : PdfFile) (args : Args) (o : string) :
  args_keep_temp_on_failure args = false ->
  args_output_dir args = Named o ->
  stays_tidy None (process_file file_path args).
Proof.
  intros Hkeep Hout. unfold process_file. rewrite Hkeep, Hout.
  apply tidy_bind; [apply tidy_get_file_size_mb|]. intro size.
  destruct (Qlt_bool size (target_size args)).
  - apply tidy_bind; [|intro; apply tidy_ret].
    destruct (copy_small_files args); [|apply tidy_ret].
    apply tidy_bind; [apply tidy_copy_file, (any_named o)|intro; apply tidy_ret].
  - apply tidy_bind; [apply tidy_emit|intros _].
    apply tidy_bind; [apply tidy_run_iterative_compression|].
    intros [[[|] x]|e]; try apply tidy_ret.
    destruct (allow_splitting args); [|apply tidy_ret].
    apply tidy_bind; [now apply tidy_run_splitting_protocol|].
    intros [b|e]; apply tidy_ret.
Qed.

(** X7. Without retention, every temporary directory that is made is
    removed with all it holds, whatever the outcome: after
    [run_iterative_compression], after [run_splitting_protocol] and after
    [process_file] as a whole, the live temporary directories are those of
    before and no file lies outside them. *)
Theorem temporary_directories_are_removed
    (file_path : PdfFile) (args : Args) (o : string) (w : World) :
  args_keep_temp_on_failure args = false ->
  args_output_dir args = Named o ->
  temps_in_order w ->
  (let w' := snd (run_iterative_compression file_path (Named o) (target_size args)
                                            false w) in
   temps_in_order w' /\ temp_live w' = temp_live w) /\
  (let w' := snd (run_splitting_protocol file_path (Named o) args w) in
   temps_in_order w' /\ temp_live w' = temp_live w) /\
  (let w' := snd (process_file file_path args w) in
   temps_in_order w' /\ temp_live w' = temp_live w).
Proof.
  intros Hkeep Hout W.
  assert (None_live : forall i, @None nat = Some i -> In i (temp_live w))
    by discriminate.
  split; [|split]; cbv zeta.
  - destruct (tidy_run_iterative_compression None file_path o (target_size args) w
                W None_live) as (H1 & H2 & _). auto.
  - destruct (tidy_run_splitting_protocol file_path o args Hkeep None w W None_live)
      as (H1 & H2 & _). auto.
  - destruct (tidy_process_file file_path args o Hkeep Hout w W None_live)
      as (H1 & H2 & _). auto.
Qed.

(** *** Manual mode *)

(** X8. [run_single_manual] keeps its temporary directory exactly when
    retention was asked for and the reconstruction failed; in every other
    case, success included, the directory is removed with all it holds. *)
Theorem manual_mode_cleans_unless_failed
    (pdf : PdfFile) (o name : string) (the_dpi the_bg_downsample : Z)
    (jpeg2000 : Encoder) (keep : bool) (w : World) :
  temps_in_order w ->
  let r := run_single_manual pdf (Named o, name) the_dpi the_bg_downsample jpeg2000
                             keep w in
  temps_in_order (snd r) /\
  temp_live (snd r)
  = (if keep && negb (fst r) then next_temp w :: temp_live w else temp_live w).
Proof.
  intros W. cbv zeta.
  destruct (run_single_manual pdf (Named o, name) the_dpi the_bg_downsample jpeg2000
                              keep w) as [res w'] eqn:E.
  cbn [fst snd]. unfold run_single_manual in E. unfold bind at 1 in E.
  cbn [create_temp_directory] in E.
  pose proof (fresh_in_order w W) as W1.
  set (i := next_temp w) in *. set (v1 := mkWorld _ _ _ _ _) in *.
  unfold bind at 1 in E.
  assert (Body : stays_tidy (Some i)
            (images <- deconstruct_pdf_to_images pdf (Temp i) the_dpi ;;
             match images with
             | None => ret false
             | Some image_files =>
                 hocr <- analyze_images_to_hocr image_files (Temp i) ;;
                 match hocr with
                 | None => ret false
                 | Some hocr_file =>
                     ok <- reconstruct_pdf image_files hocr_file (Temp i)
                             (mkParams the_dpi the_bg_downsample (Some jpeg2000))
                             (Named o, name) ;;
                     if ok then ret true
                     else
                       (if keep then emit (TempKept (Temp i)) else ret tt) ;;;
                       ret false
                 end
             end)).
  { apply tidy_bind; [apply tidy_deconstruct, own_temp|].
    intros [images|]; [|apply tidy_ret].
    apply tidy_bind; [apply tidy_analyze, own_temp|].
    intros [hocr|]; [|apply tidy_ret].
    apply tidy_bind; [apply tidy_reconstruct, (any_named o)|].
    intros [|]; [apply tidy_ret|].
    apply tidy_bind; [|intro; apply tidy_ret].
    destruct keep; [apply tidy_emit|apply tidy_ret]. }
  destruct (Body v1 W1) as (W2 & L2 & N2).
  { intros j Hj. injection Hj as <-. now left. }
  cbv zeta in E.
  match type of E with
  | context [bind (deconstruct_pdf_to_images pdf (Temp i) the_dpi) ?k v1] =>
      destruct (bind (deconstruct_pdf_to_images pdf (Temp i) the_dpi) k v1)
        as [success v2]
  end.
  cbn [snd] in *. unfold bind, ret in E.
  destruct (keep && negb success) eqn:K; cbn [negb] in E.
  - injection E as <- <-. rewrite K. split; [exact W2|exact L2].
  - pose proof (removed_in_order w v2 W W2) as R. cbv zeta in R. fold i in R.
    destruct (cleanup_directory (Temp i) v2) as [[] v3]. cbn [snd] in *.
    injection E as <- <-. rewrite K.
    destruct R as (R1 & R2 & _); [exact L2|exact N2|]. auto.
Qed.

End Tidy.

(** ** The batch *)

Section Batch.

Context {T : Type} {tools : Pipeline T}.

Abbreviation World := (@World T).

Local Abbreviation stays_tidy own m := (@preserves T (@tidy T own) _ m).
Local Abbreviation temps_in_order := (@temps_in_order T).

(** [process_file] writes to its output directory only. *)
Lemma process_file_outside (file_path : PdfFile) (args : Args) (w : World) q :
  is_named q = true -> fst q <> args_output_dir args ->
  files (snd (process_file file_path args w)) q = files w q.
Proof.
  intros Hq Hd. apply process_file_frame; [exact Hq| | |left].
  - intros ->. now apply Hd.
  - intros [[i ->]|[i ->]]; now apply Hd.
  - intros ->. now apply Hd.
Qed.

Lemma process_each_results (pdf_files : list PdfFile) (args : Args) :
  forall results successful_count failed_count (w : World),
    let r := fst (process_each pdf_files args results successful_count failed_count w) in
    exists processed,
      fst (fst r) = results ++ processed /\
      map fst processed = pdf_files /\
      snd (fst r) = (successful_count + List.length (filter snd processed))%nat /\
      snd r = (failed_count
               + List.length (filter (fun x => negb (snd x)) processed))%nat.
Proof.
  induction pdf_files as [|pdf_file later IH];
    intros results successful_count failed_count w; cbv zeta.
  - exists []. cbn. now rewrite app_nil_r, !Nat.add_0_r.
  - destruct (process_each (pdf_file :: later) args results successful_count
                failed_count w) as [r w'] eqn:E.
    cbn [fst]. cbn [process_each] in E. unfold bind at 1 in E.
    destruct (process_file pdf_file args w) as [success w1]. cbv zeta in E.
    destruct success.
    + pose proof (IH (results ++ [(pdf_file, true)]) (S successful_count)
                     failed_count w1) as H.
      cbv zeta in H. rewrite E in H. cbn [fst] in H.
      destruct H as (processed & H1 & H2 & H3 & H4).
      exists ((pdf_file, true) :: processed). cbn [map fst filter snd negb List.length].
      rewrite H1, H3, H4, <- app_assoc. repeat split; [now rewrite H2|lia].
    + pose proof (IH (results ++ [(pdf_file, false)]) successful_count
                     (S failed_count) w1) as H.
      cbv zeta in H. rewrite E in H. cbn [fst] in H.
      destruct H as (processed & H1 & H2 & H3 & H4).
      exists ((pdf_file, false) :: processed). cbn [map fst filter snd negb List.length].
      rewrite H1, H3, H4, <- app_assoc. repeat split; [now rewrite H2|lia].
Qed.

Lemma process_each_outside (pdf_files : list PdfFile) (args : Args) q :
  is_named q = true -> fst q <> args_output_dir args ->
  forall results successful_count failed_count (w : World),
    files (snd (process_each pdf_files args results successful_count failed_count w)) q
    = files w q.
Proof.
  intros Hq Hd.
  induction pdf_files as [|pdf_file later IH];
    intros results successful_count failed_count w; [reflexivity|].
  cbn [process_each]. unfold bind at 1.
  pose proof (process_file_outside pdf_file args w q Hq Hd) as F.
  destruct (process_file pdf_file args w) as [success w1]. cbn [snd] in F. cbv zeta.
  destruct success; cbv iota; now rewrite IH.
Qed.

Lemma tidy_process_each (pdf_files : list PdfFile) (args : Args) (o : string) :
  args_keep_temp_on_failure args = false ->
  args_output_dir args = Named o ->
  forall results successful_count failed_count,
    stays_tidy None (process_each pdf_files args results successful_count failed_count).
Proof.
  intros Hkeep Hout.
  induction pdf_files as [|pdf_file later IH];
    intros results successful_count failed_count; [apply tidy_ret|].
  cbn [process_each]. apply tidy_bind; [now apply (tidy_process_file _ _ o)|].
  intros [|]; cbv zeta; apply IH.
Qed.

(** X17. A batch composes. [process_directory] returns one result for each
    file, in the order of the files, and its two counters are the numbers
    of successes and of failures among them; in the directories named by
    the caller it changes nothing outside the output directory; and
    without retention it leaves no temporary directory behind. *)
Theorem batch_processing_composes
    (unique_files : list PdfFile) (args : Args) (w : World) :
  let r := process_directory unique_files args w in
  let counted := fst (process_each unique_files args [] 0 0 w) in
  map fst (fst r) = unique_files /\
  (snd (fst counted) = List.length (filter snd (fst r)) /\
   (snd (fst counted) + snd counted = List.length unique_files)%nat) /\
  (forall q, is_named q = true -> fst q <> args_output_dir args ->
     files (snd r) q = files w q) /\
  (args_keep_temp_on_failure args = false ->
   forall o, args_output_dir args = Named o ->
     temps_in_order w ->
     temps_in_order (snd r) /\ temp_live (snd r) = temp_live w).
Proof.
  cbv zeta.
  assert (Same : forall f later,
             unique_files = f :: later ->
             process_directory unique_files args w
             = (fst (fst (fst (process_each unique_files args [] 0 0 w))),
                snd (process_each unique_files args [] 0 0 w))).
  { intros f later ->. unfold process_directory, bind, ret.
    now destruct (process_each (f :: later) args [] 0 0 w). }
  destruct (process_each_results unique_files args [] 0 0 w)
    as (processed & H1 & H2 & H3 & H4). cbn [app] in H1.
  destruct unique_files as [|f later] eqn:Shape.
  - cbn. split; [reflexivity|]. split; [split; reflexivity|].
    split; [reflexivity|]. intros _ o _ W. split; [exact W|reflexivity].
  - rewrite (Same f later eq_refl). cbn [fst snd]. rewrite H1, H3, H4.
    split; [exact H2|]. split.
    + split; [reflexivity|]. rewrite <- H2, length_map.
      clear. induction processed as [|[x [|]] l IH]; cbn; lia.
    + split; [intros q Hq Hd; now apply process_each_outside|].
      intros Hkeep o Hout W.
      destruct (tidy_process_each (f :: later) args o Hkeep Hout [] 0%nat 0%nat w W)
        as (W' & L' & _); [discriminate|]. auto.
Qed.

End Batch.

(** ** Evaluations on the simulated pipeline *)

Module Evaluations.

Import Simulation.


(** C8 fails on the code. With retention requested the [finally] clause
    deletes nothing, whatever the outcome; so at this input (an 8 MB
    document, target 8 MB, [keep_temp_on_failure = True]) the first preset
    fits with 6 MB, the search succeeds, and the temporary directory is
    still there with the scratch files in it. The same happens to the
    three directories of a split attempt that succeeds. *)
Lemma retained_after_success :
  (forall (w : @World unit) d,
     files (snd (release_temp true d w)) = files w /\
     temp_live (snd (release_temp true d w)) = temp_live w) /\
  (let r := @run_iterative_compression unit sim_A doc out 8 true world_8mb in
   fst r = Return (true, Some final_doc) /\
   Dir_live (Temp 0) (snd r) = true /\
   files (snd r) (Temp 0, "output_doc_first.pdf") = Some 6291456%N /\
   files (snd r) (Temp 0, "page-01.tif") = Some 1000%N /\
   last (log (snd r)) (Analyze false) = TempKept (Temp 0)) /\
  (let r := @try_split_and_compress unit sim_A doc out
              (mkArgs out 2 true 4 false true) 2 10 world_8mb in
   fst r = Return true /\
   temp_live (snd r) = [2; 1; 0]%nat).
Proof.
  split; [intros w d; split; reflexivity|].
  split; vm_compute; repeat split.
Qed.

(** *** Instances of the properties *)

Ltac by_computation :=
  first [ reflexivity
        | apply Qle_bool_iff; vm_compute; reflexivity
        | apply Qlt_bool_iff; vm_compute; reflexivity ].

(** C4 on scenario A with a target of 8 MB: the first preset (6 MB)
    fits. *)
Lemma conservative_fit_witness :
  fst (search_tier1 scenario_A 8 world_8mb) = (true, Some final_doc) /\
  files (snd (search_tier1 scenario_A 8 world_8mb)) final_doc = Some 6291456%N /\
  reconstructions (log (snd (search_tier1 scenario_A 8 world_8mb))) = [tier1_first].
Proof.
  destruct (@conservative_fit_returns_at_once unit sim_A tier1_first tier1_rest
              doc out 8 scratch images hocr
              world_8mb after_first after_first_size six_mb 6291456%N)
    as (H1 & H2 & _ & H4); [by_computation..|].
  split; [exact H1|]. split; [exact H2|exact H4].
Defined.

(** C2 on scenario A with a target of 1 MB: 6 MB is far, the last
    preset gives 1.5 MB, the search fails after two rebuilds. *)
Lemma far_then_fail_witness :
  fst (search_tier1 scenario_A 1 world_8mb) = (false, None) /\
  reconstructions (log (snd (search_tier1 scenario_A 1 world_8mb)))
  = [tier1_first; tier1_last].
Proof.
  destruct (@far_jumps_to_last_and_may_fail unit sim_A tier1_first tier1_rest
              doc out 1 scratch images hocr
              world_8mb after_first after_first_size after_last after_last_size
              six_mb one_and_a_half_mb true)
    as (_ & H); [by_computation..|].
  destruct H as (H1 & _ & H3); [right; by_computation|].
  split; [exact H1|exact H3].
Defined.

(** The recode_pdf of scenario A writes what it reports. *)
Lemma scenario_A_leaves_output : success_leaves_output sim_A.
Proof.
  intros t images hocr p out ok written t' H _.
  cbn in H. injection H as _ <- _. discriminate.
Qed.

(** C1 on scenario A with a target of 2 MB: the search succeeds and the
    output holds a file of at most 2 MB. *)
Lemma backtracking_witness :
  fst (search_tier1 scenario_A 2 world_8mb) = (true, Some final_doc) /\
  exists n,
    files (snd (search_tier1 scenario_A 2 world_8mb)) final_doc = Some n /\
    (Z.of_N n # MB <= 2)%Q.
Proof.
  destruct (@backtracking_keeps_best_contiguous unit sim_A tier1_first tier1_rest
              doc out 2 scratch images hocr
              world_8mb after_first after_first_size after_last after_last_size
              six_mb one_and_a_half_mb)
    as (_ & j & size_at & stop & copied & _ & _ & _ & _ & H & _ & _ & D);
    [by_computation..|].
  destruct (D scenario_A_leaves_output) as (_ & n & _ & Hn & Hle).
  split; [exact H|]. exists n. split; [exact Hn|exact Hle].
Defined.

Lemma size_A_monotone (i j : nat) :
  (i <= j < 5)%nat ->
  (size_A (nth j (sequence tier1_first tier1_rest) tier1_first)
   <= size_A (nth i (sequence tier1_first tier1_rest) tier1_first))%N.
Proof.
  intro H.
  do 5 (destruct i as [|i];
        [do 5 (destruct j as [|j]; [vm_compute; first [discriminate|lia]|]); lia|]).
  lia.
Qed.

(** C3 on scenario A with a target of 2 MB: the search and the naive
    scan both pick the preset (250, 3). *)
Lemma naive_scan_witness :
  naive_search size_A 2 (sequence tier1_first tier1_rest)
    = Some (mkParams 250 3 (Some openjpeg)) /\
  exists evs,
    log (snd (search_tier1 scenario_A 2 world_8mb)) = log world_8mb ++ evs /\
    winning_preset final_doc evs = Some (mkParams 250 3 (Some openjpeg)).
Proof.
  split; [reflexivity|].
  destruct (@search_agrees_with_naive_scan unit sim_A tier1_first tier1_rest
              doc out 2 scratch images hocr size_A) with (w := world_8mb)
    as (evs & H1 & H2 & _).
  - intros t p o. exists tt. destruct t. reflexivity.
  - exact size_A_monotone.
  - exists evs. split; [exact H1|exact H2].
Defined.

(** C10 with a recode_pdf that reports success and writes nothing: the
    search succeeds at the first preset and has nothing to copy. *)
Lemma missing_output_witness :
  fst (search_tier1 silent 2 world_8mb) = (true, Some final_doc) /\
  log (snd (search_tier1 silent 2 world_8mb))
  = [Reconstruct tier1_first first_doc true;
     Measured first_doc 0;
     Copied first_doc final_doc false].
Proof.
  destruct (@missing_output_passes_size_test unit (sim_pipeline silent 10)
              tier1_first tier1_rest doc out 2 scratch images hocr)
    as (_ & _ & H & _); [by_computation|].
  apply (H world_8mb
           (snd (@reconstruct_pdf unit (sim_pipeline silent 10) images hocr scratch
                   tier1_first first_doc world_8mb))); reflexivity.
Defined.


(** *** The scenarios of the specification *)

(** Scenario A: 6 MB is far from 2 MB, the last preset gives 1.5 MB,
    backtracking keeps (250, 3) at 1.8 MB and stops at (300, 3) with
    2.3 MB. *)
Example scenario_A_run :
  let r := search_tier1 scenario_A 2 world_8mb in
  fst r = (true, Some final_doc) /\
  files (snd r) final_doc = Some 1887437%N /\
  reconstructions (log (snd r))
  = [ tier1_first; tier1_last;
      mkParams 250 3 (Some openjpeg); mkParams 300 3 (Some grok) ] /\
  last (log (snd r)) (Analyze false)
  = Copied (back_output doc scratch 3) final_doc true.
Proof. vm_compute. repeat split. Qed.

(** Scenario B: 2.4 MB is not far from 2 MB, the sequential attempts
    stop at the second preset with 1.9 MB. *)
Example scenario_B_run :
  let r := search_tier1 scenario_B 2 (start (pdf_path doc) 4194304) in
  fst r = (true, Some final_doc) /\
  files (snd r) final_doc = Some 1992294%N /\
  reconstructions (log (snd r)) = [tier1_first; mkParams 300 2 (Some openjpeg)].
Proof. vm_compute. repeat split. Qed.

(** Scenario C: a document of 60 MB and 10 pages, nothing gets below the
    target, [max_splits = 4]: the counts 3 and 4 are tried (the planner
    starts at [ceil(60 / 25) = 3]), the protocol fails and the output
    directory holds no part. *)
Example scenario_C_run :
  fst protocol_C = Return false /\
  filter (fun e => match e with TryParts _ => true | _ => false end)
         (log (snd protocol_C))
  = [TryParts 3; TryParts 4] /\
  temp_live (snd protocol_C) = [].
Proof. vm_compute. repeat split. Qed.

(** C10, as stated, fails: the size probe is not total. When
    [os.path.getsize] raises [NotADirectoryError] (a component of the path
    is a file, as for [out/doc.pdf/part.pdf] next to a file [out/doc.pdf])
    or [PermissionError], the error is not caught and leaves
    [get_file_size_mb]. *)
Lemma size_probe_raises :
  get_file_size_mb_on (inr NotADirectoryError) = inr NotADirectoryError /\
  get_file_size_mb_on (inr PermissionError) = inr PermissionError.
Proof. split; reflexivity. Qed.

(** C5 with one part that always fails: the protocol fails, the first
    part, which had been compressed and written, was unlinked, and no part
    is left. *)
Lemma failed_split_witness :
  fst Scenarios.protocol_second_part_fails = Return false /\
  In (Unlinked (final_part_path_of doc out 0)) (log (snd Scenarios.protocol_second_part_fails)) /\
  files (snd Scenarios.protocol_second_part_fails) (final_part_path_of doc out 0) = None /\
  files (snd Scenarios.protocol_second_part_fails) (final_part_path_of doc out 1) = None /\
  In (TryParts 4) (log (snd Scenarios.protocol_second_part_fails)).
Proof.
  destruct (@failed_split_leaves_no_parts unit Scenarios.second_part_fails doc out args_C)
    as (_ & _ & _ & _ & Never & H).
  assert (F : fst Scenarios.protocol_second_part_fails = Return false).
  { apply (Never 1%nat world_60mb).
    - right. intros t images hocr params d d' i. cbn.
      now destruct (str_nat i ++ ".pdf")%string.
    - assert (E : calculate_split_strategy (fst (stat_size_mb (pdf_path doc) world_60mb))
                                           (max_splits args_C) = 3%Z)
        by (vm_compute; reflexivity).
      rewrite E. cbn [max_splits args_C]. intros k Hk.
      assert (Hk' : k = 3%Z \/ k = 4%Z) by lia.
      destruct Hk' as [-> | ->]; vm_compute; lia. }
  destruct (H world_60mb F) as (_ & Tried & Parts).
  split; [exact F|].
  split; [vm_compute; auto 40|].
  split; [apply (Parts "out"%string eq_refl); intro i; reflexivity|].
  split; [apply (Parts "out"%string eq_refl); intro i; reflexivity|].
  apply Tried; [vm_compute; discriminate|].
  split; [vm_compute; discriminate|vm_compute; discriminate].
Defined.

(** C6 on a document of 10 pages split into 3: qpdf is handed the pages
    1 to 4, 5 to 8 and 9 to 10. *)
Lemma page_ranges_partition_witness :
  page_ranges 10 3 = [(1, 4); (5, 8); (9, 10)]%Z /\
  flat_map pages_of (page_ranges 10 3) = range 1 11 /\
  logged_ranges (log (snd (@try_split_and_compress unit sim_A doc out args_C 3 10
                             world_60mb)))
  = [(1, 4); (5, 8); (9, 10)]%Z.
Proof.
  destruct (@page_ranges_partition unit sim_A doc out args_C 10 3 world_60mb)
    as ((_ & _ & Cover) & evs & L & _ & All & _); [lia|lia|].
  split; [reflexivity|]. split; [exact Cover|].
  change (log world_60mb ++ evs) with evs in L. rewrite L.
  apply All. rewrite <- L. vm_compute. reflexivity.
Defined.

End Evaluations.

(** ** Instances of the further properties *)

Module Instances.

Import Simulation.
Import Scenarios.

Ltac by_computation :=
  first [ reflexivity
        | apply Qle_bool_iff; vm_compute; reflexivity
        | apply Qlt_bool_iff; vm_compute; reflexivity ].

(** The simulated recode_pdf writes what it reports. *)
Lemma sim_leaves_output (size_of : Params -> N) (pages : Z) :
  success_leaves_output (sim_pipeline (fun p => Some (size_of p)) pages).
Proof.
  intros t images hocr p out ok written t' H _.
  cbn in H. injection H as _ <- _. discriminate.
Qed.

(** A world without temporary directories is in order. *)
Lemma start_in_order (input : Path) (bytes : N) :
  is_named input = true -> temps_in_order (start input bytes).
Proof.
  intro Hn. split; [intros i []|].
  intros i name H. exfalso. apply H. cbn. unfold disk.
  destruct (Path_eqb_spec (Temp i, name) input) as [<-|]; [discriminate Hn|reflexivity].
Qed.

(** Scenario A against 8 MB: the search succeeds and has delivered. *)
Lemma successful_search_witness :
  exists n,
    files (snd (@run_iterative_compression unit sim_A doc (Named "out") 8 false world_8mb))
          (final_path doc (Named "out")) = Some n /\
    (Z.of_N n # MB <= 8)%Q.
Proof.
  destruct (@successful_search_delivers unit sim_A (sim_leaves_output size_A 10)
              doc "out" 8 false world_8mb) as [H _].
  apply (H (Some final_doc)). vm_compute. reflexivity.
Defined.

(** A split into 2 of a document whose parts all compress to 1 MB. *)
Lemma successful_split_witness :
  exists n,
    files (snd (@try_split_and_compress unit (sim_pipeline one_mb_each 10)
                  doc (Named "out") args_C 2 10 world_60mb))
          (final_part_path_of doc (Named "out") 1) = Some n /\
    (Z.of_N n # MB <= target_size args_C)%Q.
Proof.
  destruct (@successful_split_delivers unit (sim_pipeline one_mb_each 10)
              (sim_leaves_output (fun _ => 1048576%N) 10) doc "out" args_C) as [H _].
  apply (H 2%Z 10%Z world_60mb); [vm_compute; reflexivity|vm_compute; lia].
Defined.

(** Scenario A against 8 MB: the input is as it was. *)
Lemma search_frame_witness :
  files (snd (@run_iterative_compression unit sim_A doc (Named "out") 8 false world_8mb))
        (pdf_path doc)
  = files world_8mb (pdf_path doc).
Proof.
  destruct (@search_touches_only_its_output unit sim_A doc (Named "out") 8 false world_8mb)
    as [S _].
  apply S; [reflexivity|]. intro H. discriminate H.
Defined.

(** Scenario C, where the search fails and the protocol runs: the
    input is as it was. *)
Lemma input_untouched_witness :
  files (snd (@process_file unit (sim_pipeline scenario_C 10) doc args_C world_60mb))
        (pdf_path doc)
  = files world_60mb (pdf_path doc).
Proof.
  apply (@process_file_touches_only_outputs unit (sim_pipeline scenario_C 10)
           doc args_C world_60mb); reflexivity.
Defined.

(** Scenario C without retention: no temporary directory is left. *)
Lemma temporary_directories_witness :
  temp_live (snd (@process_file unit (sim_pipeline scenario_C 10) doc args_C world_60mb))
  = [].
Proof.
  destruct (@temporary_directories_are_removed unit (sim_pipeline scenario_C 10)
              doc args_C "out" world_60mb) as (_ & _ & _ & H);
    [reflexivity|reflexivity|apply start_in_order; reflexivity|exact H].
Defined.

(** Manual mode with retention asked for: the directory stays when the
    reconstruction fails and is removed when it succeeds. *)
Lemma manual_mode_witness :
  temp_live (snd (@run_single_manual unit failing_pipeline doc manual_doc 300 2
                    openjpeg true world_8mb)) = [0%nat] /\
  temp_live (snd (@run_single_manual unit sim_A doc manual_doc 300 2
                    openjpeg true world_8mb)) = [].
Proof.
  split.
  - destruct (@manual_mode_cleans_unless_failed unit failing_pipeline doc "out"
                "doc_manual.pdf" 300 2 openjpeg true world_8mb) as [_ H];
      [apply start_in_order; reflexivity|exact H].
  - destruct (@manual_mode_cleans_unless_failed unit sim_A doc "out"
                "doc_manual.pdf" 300 2 openjpeg true world_8mb) as [_ H];
      [apply start_in_order; reflexivity|exact H].
Defined.

(** A document of 1 MB against a target of half a megabyte. *)
Lemma below_two_mb_witness :
  fst (@run_iterative_compression unit sim_A doc out (1 # 2) false world_1mb)
  = Return (false, None) /\
  fst (@process_file unit sim_A doc args_half world_1mb) = false.
Proof.
  destruct (@below_two_mb_is_not_searched unit sim_A doc out (1 # 2) false args_half
              world_1mb) as [H1 H2]; [by_computation|].
  split; [now rewrite H1|].
  rewrite H2; [reflexivity|by_computation|reflexivity].
Defined.

(** The document of 8 MB passes a check against 8 MB; a list with a
    missing file does not. *)
Lemma validate_split_results_witness :
  fst (@validate_split_results unit [pdf_path doc] 8 world_8mb) = true.
Proof.
  destruct (@validate_split_results_checks unit [pdf_path doc] 8 world_8mb)
    as [[_ H] _].
  apply H. constructor; [|constructor].
  exists 8388608%N. split; [reflexivity|by_computation].
Defined.

(** Five pages split into 4: the parts have 2 pages, so there are 3 of
    them, and phase 1 returns the temporary parts 1 to 3. *)
Lemma page_ranges_count_witness :
  fst (@split_parts unit sim_A doc 5 2 scratch (seq 0 4) [] world_8mb)
  = Some (map (temp_part doc scratch) [0; 1; 2]%nat).
Proof.
  destruct (@page_ranges_count unit sim_A doc scratch 5 4 world_8mb)
    as (_ & evs & _ & _ & H); [lia|lia|].
  assert (E : exists parts,
             fst (@split_parts unit sim_A doc 5 (pages_per_split_of 5 4) scratch
                               (seq 0 (Z.to_nat 4)) [] world_8mb) = Some parts)
    by (eexists; vm_compute; reflexivity).
  destruct E as [parts E]. rewrite E in H. destruct H as [Hp _].
  transitivity (Some parts); [exact E|]. rewrite Hp. reflexivity.
Defined.

(** The boundary run of [process_file], where splitting is not allowed. *)
Lemma no_splitting_witness :
  exists evs,
    log (snd (@process_file unit sim_A doc args_2mb two_mb)) = log two_mb ++ evs /\
    forallb (fun e => negb (splitting_event e)) evs = true.
Proof.
  destruct (@no_splitting_unless_allowed unit sim_A doc args_2mb) as [H _];
    [reflexivity|exact (H two_mb)].
Defined.

(** Scenario C: the counts tried are between 2 and 4. *)
Lemma counts_witness :
  exists evs,
    log (snd protocol_C) = log world_60mb ++ evs /\
    forall k, In k (tried_counts evs) -> (2 <= k <= 4)%Z.
Proof.
  destruct (@counts_are_tried_in_order unit (sim_pipeline scenario_C 10) doc out args_C
              world_60mb) as (evs & n & H1 & _ & H3 & _).
  exists evs. split; [exact H1|exact H3].
Defined.

(** Scenario C, where [process_file] fails: no part is left. *)
Lemma failed_processing_witness :
  files (snd (@process_file unit (sim_pipeline scenario_C 10) doc args_C world_60mb))
        (final_part_path_of doc out 0) = None.
Proof.
  destruct (@failed_processing_leaves_nothing unit (sim_pipeline scenario_C 10)
              doc args_C world_60mb) with (q := final_part_path_of doc out 0)
    as [G|G]; [vm_compute; reflexivity|reflexivity|exact G|].
  rewrite G. reflexivity.
Defined.

(** Scenario A against 8 MB: [process_file] answers [True] and
    [doc_compressed.pdf] is within the target. *)
Lemma processed_witness :
  exists n,
    files (snd (@process_file unit sim_A doc args_8mb world_8mb))
          (final_path doc (Named "out")) = Some n /\
    (Z.of_N n # MB <= target_size args_8mb)%Q.
Proof.
  destruct (@processed_means_delivered unit sim_A (sim_leaves_output size_A 10)
              doc args_8mb "out" world_8mb) as [H|[H|[H _]]];
    [reflexivity|vm_compute; reflexivity| |exact H|discriminate H].
  apply Qlt_bool_iff in H. vm_compute in H. discriminate H.
Defined.

(** A batch of one document: the input directory is as it was. *)
Lemma batch_witness :
  files (snd (@process_directory unit sim_A [doc] args_8mb world_8mb)) (pdf_path doc)
  = files world_8mb (pdf_path doc).
Proof.
  destruct (@batch_processing_composes unit sim_A [doc] args_8mb world_8mb)
    as (_ & _ & F & _).
  apply F; [reflexivity|]. intro H. discriminate H.
Defined.

(** Scenario C with its validated arguments: at least one count is
    tried. *)
Lemma validated_arguments_witness :
  exists evs,
    log (snd protocol_C) = log world_60mb ++ evs /\
    (1 <= List.length (tried_counts evs))%nat.
Proof.
  destruct (@validated_arguments_bound_attempts unit (sim_pipeline scenario_C 10)
              doc out args_C world_60mb) as (evs & H1 & H2 & _);
    [vm_compute; reflexivity|cbn; discriminate|].
  exists evs. split; [exact H1|exact H2].
Defined.

(** The bound on the rebuilds of a preset search is reached: on tier
    1, with a first preset far above the target and every other preset
    within it, the search rebuilds six times for five presets. *)
Example six_rebuilds_for_five_presets :
  let sizes := fun p => match dpi p, bg_downsample p with
                        | 300%Z, 1%Z => Some 6291456%N
                        | _, _ => Some 1048576%N
                        end in
  List.length (reconstructions (log (snd (search_tier1 sizes 2 world_8mb)))) = 6%nat.
Proof. vm_compute. reflexivity. Qed.

End Instances.
